(** * EcoFinds backends: authentication, ownership and checkout

    A shallow embedding of [BACKEND/server.js], which holds two programs:
    the Express/MySQL server (lines 1-243) and the Flask/PostgreSQL
    server (lines 245-440).  Handlers become functions from the request
    and the datastore to a response and the new datastore; the JWT and
    bcrypt libraries are interfaces (type classes) with the laws the
    handlers rely on. *)

From Stdlib Require Import ZArith List String Ascii Bool Lia DecimalString HexString.
From Stdlib Require Import DecimalZ DecimalPos Sorted Permutation.
Import ListNotations.
Open Scope string_scope.
Open Scope Z_scope.
Set Warnings "-register-all".

(* ================================================================== *)
(** ** Strings, numbers and JSON values *)

(** [str.split(" ")] of JavaScript and of Python: one piece per separator
    occurrence, empty pieces kept, [""] giving one empty piece. *)
Fixpoint split_on (sep : ascii) (s : string) : list string :=
  match s with
  | EmptyString => [EmptyString]
  | String c rest =>
      if Ascii.eqb c sep then EmptyString :: split_on sep rest
      else match split_on sep rest with
           | [] => [String c EmptyString]
           | w :: ws => String c w :: ws
           end
  end.

Definition space : ascii := " "%char.

(** The string holds no occurrence of the character. *)
Fixpoint no_char (sep : ascii) (s : string) : bool :=
  match s with
  | EmptyString => true
  | String c rest => negb (Ascii.eqb c sep) && no_char sep rest
  end.

(** Decimal rendering of an integer ([toString()] / [str]). *)
Definition Z_to_string (z : Z) : string := NilZero.string_of_int (Z.to_int z).

(** A request field as the handlers see it: absent, or a string. *)
Definition field := option string.

(** JavaScript truthiness of such a field: [undefined] and [""] are falsy. *)
Definition truthy (f : field) : bool :=
  match f with
  | None => false
  | Some s => negb (String.eqb s "")
  end.

(** The string held by a field already known to be truthy. *)
Definition text (f : field) : string :=
  match f with
  | None => ""
  | Some s => s
  end.

Inductive json : Type :=
| JNull
| JBool (b : bool)
| JNum (z : Z)
| JStr (s : string)
| JArr (items : list json)
| JObj (fields : list (string * json)).

Definition jopt {A} (f : A -> json) (o : option A) : json :=
  match o with
  | None => JNull
  | Some a => f a
  end.

(** Does the body carry a field named [k], at any depth? *)
Fixpoint has_field (k : string) (j : json) : bool :=
  match j with
  | JArr items => existsb (has_field k) items
  | JObj fields =>
      existsb (fun kv => String.eqb (fst kv) k || has_field k (snd kv)) fields
  | _ => false
  end.

(** [delete obj.key] on an object. *)
Definition delete_key (k : string) (j : json) : json :=
  match j with
  | JObj fields => JObj (filter (fun kv => negb (String.eqb (fst kv) k)) fields)
  | other => other
  end.

(** The error body shared by both servers: [{error: message}]. *)
Definition error_body (msg : string) : json := JObj [("error", JStr msg)].
Definition message_body (msg : string) : json := JObj [("message", JStr msg)].

(** No field of the body is named after the password column of either
    schema. *)
Definition hides_password (j : json) : bool :=
  negb (has_field "password" j) && negb (has_field "password_hash" j).

(** DECIMAL(10,2) prices are kept in hundredths; their text is the sign,
    the whole part of the magnitude and its two decimals. *)
Definition price_text (p : Z) : string :=
  (if p <? 0 then "-" else "") ++
  Z_to_string (Z.abs p / 100) ++ "." ++
  (if (Z.abs p mod 100) <? 10 then "0" else "") ++ Z_to_string (Z.abs p mod 100).

(** SQL [LIKE]: [%] is any run of characters, [_] any one character. *)
Fixpoint like (pat s : string) : bool :=
  match pat with
  | EmptyString => match s with EmptyString => true | _ => false end
  | String c pat' =>
      if Ascii.eqb c "%" then
        (fix any (t : string) : bool :=
           like pat' t || match t with
                          | EmptyString => false
                          | String _ t' => any t'
                          end) s
      else match s with
           | EmptyString => false
           | String d s' => (Ascii.eqb c "_" || Ascii.eqb c d) && like pat' s'
           end
  end.



(** An INT column against a parameter sent as text: equal when the text
    is the decimal form of the number. *)
Definition int_matches (col : option Z) (param : string) : bool :=
  match col, NilZero.int_of_string param with
  | Some z, Some d => z =? Z.of_int d
  | _, _ => false
  end.

(* ================================================================== *)
(** ** The libraries the handlers call *)

(** The payload of a token: the keys the two servers put in it or read
    from it; a key may be missing from a decoded payload. *)
Record claims : Type := mkClaims {
  c_uid : option Z;        (* Flask: "uid" *)
  c_id : option Z;         (* Express: "id" *)
  c_email : option string; (* Express: "email" *)
  c_iat : option Z;
  c_exp : option Z
}.

Inductive jwt_error : Type := Malformed | BadSignature | Expired.

(** A token carrying [exp] is refused from the instant [exp] on. *)
Definition is_expired (c : claims) (now : Z) : bool :=
  match c_exp c with
  | Some e => e <=? now
  | None => false
  end.

(** jsonwebtoken / PyJWT with HS256: [jwt_encode] signs a payload with a
    secret, [jwt_decode] parses a compact token, checks the signature
    against the secret and the expiry against the clock. *)
Class JwtLib : Type := {
  jwt_encode : claims -> string -> string;
  jwt_decode : string -> string -> Z -> jwt_error + claims;
  jwt_decode_encode : forall c k now,
    jwt_decode (jwt_encode c k) k now =
    if is_expired c now then inl Expired else inr c;
  jwt_encode_compact : forall c k,
    split_on space (jwt_encode c k) = [jwt_encode c k] /\ jwt_encode c k <> ""
}.

(** bcrypt: salted one-way hashing and verification. *)
Class PasswordHasher : Type := {
  bcrypt_hash : string -> string -> string;   (* salt, plaintext *)
  bcrypt_verify : string -> string -> bool;   (* plaintext, stored hash *)
  bcrypt_verify_hash : forall salt p, bcrypt_verify p (bcrypt_hash salt p) = true;
  bcrypt_hash_not_plain : forall salt p, bcrypt_hash salt p <> p
}.

(** Stored credentials (row id, stored hash), the next id to be given
    out, and for each id the plaintext its hash was computed from: every
    stored hash is the hasher's output on the plaintext recorded for its
    id, and an id is recorded once. *)
Definition derived `{PasswordHasher} (creds : list (Z * string)) (next : Z)
  (origin : list (Z * string)) : Prop :=
  (forall i h, In (i, h) creds ->
               exists salt p, In (i, p) origin /\ h = bcrypt_hash salt p)
  /\ (forall i p, In (i, p) origin -> i < next)
  /\ NoDup (map fst origin).

(* ================================================================== *)
(** ** Reference implementations of the two libraries

    A symbolic token format and a transparent hasher: enough to run the
    handlers on concrete requests and to show that the laws of the two
    interfaces can be met together. *)

Module Reference.

Definition bit (b : bool) : ascii := if b then "1"%char else "0"%char.

Definition unbit (c : ascii) : option bool :=
  if Ascii.eqb c "1" then Some true
  else if Ascii.eqb c "0" then Some false
  else None.

(** Every character as eight binary digits. *)
Fixpoint bits (s : string) : string :=
  match s with
  | EmptyString => EmptyString
  | String (Ascii b0 b1 b2 b3 b4 b5 b6 b7) rest =>
      String (bit b0) (String (bit b1) (String (bit b2) (String (bit b3)
      (String (bit b4) (String (bit b5) (String (bit b6) (String (bit b7)
      (bits rest))))))))
  end.

Fixpoint unbits (s : string) : option string :=
  match s with
  | EmptyString => Some EmptyString
  | String c0 (String c1 (String c2 (String c3
      (String c4 (String c5 (String c6 (String c7 rest))))))) =>
      match unbit c0, unbit c1, unbit c2, unbit c3,
            unbit c4, unbit c5, unbit c6, unbit c7, unbits rest with
      | Some b0, Some b1, Some b2, Some b3,
        Some b4, Some b5, Some b6, Some b7, Some r =>
          Some (String (Ascii b0 b1 b2 b3 b4 b5 b6 b7) r)
      | _, _, _, _, _, _, _, _, _ => None
      end
  | _ => None
  end.

(** An optional text: ["n"], or ["j"] before its digits. *)
Definition seg (o : option string) : string :=
  match o with
  | None => "n"
  | Some s => String "j" (bits s)
  end.

Definition unseg (s : string) : option (option string) :=
  match s with
  | String c rest =>
      if Ascii.eqb c "n" then
        match rest with EmptyString => Some None | _ => None end
      else if Ascii.eqb c "j" then option_map Some (unbits rest)
      else None
  | EmptyString => None
  end.

Definition seg_Z (o : option Z) : string := seg (option_map HexString.of_Z o).

Definition unseg_Z (s : string) : option (option Z) :=
  option_map (option_map HexString.to_Z) (unseg s).

Definition dot : ascii := "."%char.

(** Five payload segments and the key that signed them, dot-separated. *)
Definition encode (c : claims) (k : string) : string :=
  seg_Z (c_uid c) ++ String dot (seg_Z (c_id c) ++ String dot
  (seg (c_email c) ++ String dot (seg_Z (c_iat c) ++ String dot
  (seg_Z (c_exp c) ++ String dot (bits k))))).

Definition decode (token k : string) (now : Z) : jwt_error + claims :=
  match split_on dot token with
  | [s1; s2; s3; s4; s5; s6] =>
      match unseg_Z s1, unseg_Z s2, unseg s3, unseg_Z s4, unseg_Z s5, unbits s6 with
      | Some uid, Some id, Some email, Some iat, Some exp, Some key =>
          if String.eqb key k then
            let c := mkClaims uid id email iat exp in
            if is_expired c now then inl Expired else inr c
          else inl BadSignature
      | _, _, _, _, _, _ => inl Malformed
      end
  | _ => inl Malformed
  end.

(** The plaintext under a version tag and before the salt. *)
Definition hash (salt p : string) : string := "$2b$" ++ p ++ "$" ++ salt.

Definition verify (p stored : string) : bool := String.prefix ("$2b$" ++ p ++ "$") stored.

End Reference.

(* ================================================================== *)
(** ** The Express / MySQL server *)

Module Express.

(** *** Identifier resolution *)

Inductive js_value : Type :=
| JsString (s : string)
| JsObject (descr : string).

Inductive js_error : Type :=
| ReferenceError (name : string)
| TypeError (msg : string)
| JsonWebTokenError (e : jwt_error).

Definition scope := list (string * js_value).

(** Every binding the program declares at module level, in source order
    (lines 1-20, 22, 79, 242). *)
Definition module_scope : scope :=
  [ ("express", JsObject "require(express)");
    ("mysql", JsObject "require(mysql)");
    ("cors", JsObject "require(cors)");
    ("bodyParser", JsObject "require(body-parser)");
    ("morgan", JsObject "require(morgan)");
    ("path", JsObject "require(path)");
    ("http", JsObject "require(http)");
    ("Server", JsObject "require(socket.io).Server");
    ("bcrypt", JsObject "require(bcryptjs)");
    ("jwt", JsObject "require(jsonwebtoken)");
    ("app", JsObject "express()");
    ("server", JsObject "http.createServer(app)");
    ("io", JsObject "new Server(server)");
    ("db", JsObject "mysql connection");
    ("connectToDatabase", JsObject "function");
    ("authMiddleware", JsObject "function");
    ("PORT", JsObject "process.env.PORT || 4000") ].

(** What Node adds around a CommonJS module. *)
Definition node_scope : scope :=
  map (fun n => (n, JsObject "node"))
    [ "require"; "module"; "exports"; "__filename"; "__dirname";
      "global"; "globalThis"; "process"; "console"; "Buffer";
      "setTimeout"; "setInterval"; "setImmediate"; "clearTimeout";
      "clearInterval"; "clearImmediate"; "queueMicrotask"; "URL";
      "undefined"; "NaN"; "Infinity"; "Object"; "Array"; "String";
      "Number"; "Boolean"; "Symbol"; "Error"; "JSON"; "Math"; "Date";
      "Promise"; "RegExp"; "Map"; "Set" ].

Definition server_scope : scope := (module_scope ++ node_scope)%list.

Fixpoint lookup (x : string) (sc : scope) : option js_value :=
  match sc with
  | [] => None
  | (y, v) :: rest => if String.eqb x y then Some v else lookup x rest
  end.

(** Evaluating an identifier: its value, or a ReferenceError. *)
Definition resolve (sc : scope) (x : string) : js_error + js_value :=
  match lookup x sc with
  | Some v => inr v
  | None => inl (ReferenceError x)
  end.

(** *** jsonwebtoken *)

Section Jwt.
Context `{JwtLib}.

(** [jwt.verify(token, secret)]: the decoded payload, or a throw. *)
Definition jwt_verify (token : string) (secret : js_value) (now : Z)
  : js_error + claims :=
  match secret with
  | JsString k =>
      match jwt_decode token k now with
      | inr c => inr c
      | inl e => inl (JsonWebTokenError e)
      end
  | JsObject _ => inl (TypeError "secretOrPublicKey")
  end.

(** [jwt.sign(payload, secret, {expiresIn})]: [iat] is the clock, [exp]
    is [iat] plus the lifetime in seconds. *)
Definition jwt_sign (payload : claims) (secret : js_value) (expires_in : Z)
  (now : Z) : js_error + string :=
  match secret with
  | JsString k =>
      inr (jwt_encode
             (mkClaims (c_uid payload) (c_id payload) (c_email payload)
                       (Some now) (Some (now + expires_in))) k)
  | JsObject _ => inl (TypeError "secretOrPrivateKey")
  end.

End Jwt.

(** *** The datastore (tables of lines 38-57) *)

Record user_row : Type := mkUser {
  user_id : Z;
  user_email : string;
  user_password : string;
  user_username : option string;
  user_member_since : Z
}.

Record product_row : Type := mkProduct {
  product_id : Z;
  product_title : string;
  product_description : option string;
  product_category : option string;
  product_price : Z;
  product_image_url : option string;
  product_user_id : option Z
}.

Record mysql_db : Type := mkDb {
  users : list user_row;
  products : list product_row;
  users_auto_increment : Z;
  products_auto_increment : Z
}.

Definition empty_db : mysql_db := mkDb [] [] 1 1.

Definition credentials (db : mysql_db) : list (Z * string) :=
  map (fun u => (user_id u, user_password u)) (users db).

Definition select_users_by_email (db : mysql_db) (email : string) : list user_row :=
  filter (fun u => String.eqb (user_email u) email) (users db).

(** [INSERT INTO users (username, email, password)]: the UNIQUE index on
    [email] refuses a second row with the same address. *)
Definition insert_user (db : mysql_db) (now : Z) (username email hashed : string)
  : string + mysql_db :=
  match select_users_by_email db email with
  | _ :: _ => inl "ER_DUP_ENTRY"
  | [] =>
      inr (mkDb (users db ++
                 [mkUser (users_auto_increment db) email hashed (Some username) now])
                (products db)
                (users_auto_increment db + 1)
                (products_auto_increment db))
  end.

(** *** Responses *)

(** A handler that throws while Express is calling it is caught by the
    router, which answers 500 with an error page; a throw inside a
    callback of the driver or of bcrypt is caught by nothing. *)
Inductive response : Type :=
| Sent (status : Z) (body : json)      (* res.status(s).json(body) *)
| Failed (e : js_error)                (* caught by the router: 500, no JSON *)
| Thrown (e : js_error).               (* an exception nothing catches *)

Definition status_of (r : response) : option Z :=
  match r with
  | Sent s _ => Some s
  | Failed _ => Some 500
  | Thrown _ => None
  end.

Definition body_of (r : response) : option json :=
  match r with
  | Sent _ b => Some b
  | Failed _ => None
  | Thrown _ => None
  end.

Inductive gate (A : Type) : Type :=
| Rejected (status : Z) (body : json)
| Next (user : A).
Arguments Rejected {A} _ _.
Arguments Next {A} _.

Section Handlers.
Context `{JwtLib} `{PasswordHasher}.

(** *** authMiddleware (lines 79-91) *)

Definition bearer_token (authorization : option string) : option string :=
  match authorization with
  | None => None
  | Some h => nth_error (split_on space h) 1
  end.

Definition authMiddleware (sc : scope) (now : Z) (authorization : option string)
  : gate claims :=
  let token := bearer_token authorization in
  if negb (truthy token) then
    Rejected 401 (error_body "Authentication failed: No token provided.")
  else
    let attempt :=
      match resolve sc "JWT_SECRET" with
      | inl e => inl e
      | inr secret => jwt_verify (match token with Some t => t | None => "" end) secret now
      end in
    match attempt with
    | inr decoded => Next decoded
    | inl _ => Rejected 401 (error_body "Authentication failed: Invalid token.")
    end.

(** A route declared as [app.METHOD(path, authMiddleware, handler)]. *)
Definition guarded (sc : scope) (now : Z) (authorization : option string)
  (handler : claims -> response * mysql_db) (db : mysql_db) : response * mysql_db :=
  match authMiddleware sc now authorization with
  | Rejected s b => (Sent s b, db)
  | Next user => handler user
  end.

(** *** POST /api/register (lines 94-119) *)

Record register_body : Type := mkRegister {
  reg_email : field;
  reg_password : field;
  reg_username : field
}.

(** What the environment decides for one request: the salt bcrypt draws,
    whether bcrypt reports an error, and the code of a driver error on
    the query, if one is to happen. *)
Record faults : Type := mkFaults {
  salt : string;
  bcrypt_err : bool;
  query_err : option string
}.

Definition healthy (s : string) : faults := mkFaults s false None.

Definition register (fl : faults) (now : Z) (body : register_body) (db : mysql_db)
  : response * mysql_db :=
  if negb (truthy (reg_email body)) || negb (truthy (reg_password body))
     || negb (truthy (reg_username body)) then
    (Sent 400 (error_body "Username, email, and password are required."), db)
  else if bcrypt_err fl then
    (Sent 500 (error_body "Registration failed."), db)
  else
    let hashedPassword := bcrypt_hash (salt fl) (text (reg_password body)) in
    let outcome :=
      match query_err fl with
      | Some code => inl code
      | None => insert_user db now (text (reg_username body)) (text (reg_email body))
                            hashedPassword
      end in
    match outcome with
    | inl code =>
        if String.eqb code "ER_DUP_ENTRY" then
          (Sent 409 (error_body "Email already registered."), db)
        else (Sent 500 (error_body "Registration failed."), db)
    | inr db' => (Sent 201 (message_body "Registration successful!"), db')
    end.

(** The row a registration adds. *)
Definition registered_row (db : mysql_db) (salt : string) (now : Z)
  (email username password : string) : user_row :=
  mkUser (users_auto_increment db) email (bcrypt_hash salt password) (Some username) now.

(** *** POST /api/login (lines 121-149) *)

Record login_body : Type := mkLogin {
  login_email : field;
  login_password : field
}.

Definition invalid_credentials : response :=
  Sent 401 (error_body "Invalid credentials.").

Definition login (sc : scope) (fl : faults) (now : Z) (body : login_body)
  (db : mysql_db) : response :=
  if negb (truthy (login_email body)) || negb (truthy (login_password body)) then
    Sent 400 (error_body "Email and password are required.")
  else
    match query_err fl with
    | Some _ => Sent 500 (error_body "Login failed.")
    | None =>
        match select_users_by_email db (text (login_email body)) with
        | [] => invalid_credentials
        | user :: _ =>
            if bcrypt_err fl
               || negb (bcrypt_verify (text (login_password body)) (user_password user))
            then invalid_credentials
            else
              match resolve sc "JWT_SECRET" with
              | inl e => Thrown e
              | inr secret =>
                  match jwt_sign
                          (mkClaims None (Some (user_id user))
                                    (Some (user_email user)) None None)
                          secret 3600 now with
                  | inl e => Thrown e
                  | inr token =>
                      Sent 200 (JObj [("message", JStr "Login successful!");
                                      ("token", JStr token)])
                  end
              end
        end
    end.

(** *** GET /api/products (lines 152-172) *)

(** The statement text and the parameter array the handler builds. *)
Definition products_query (q user_id : field) : string * list string :=
  let sql := "SELECT * FROM products" in
  if truthy user_id then (sql ++ " WHERE user_id = ?", [text user_id])
  else if truthy q then (sql ++ " WHERE title LIKE ?", ["%" ++ text q ++ "%"])
  else (sql, []).

(** What MySQL answers to the statements [products_query] can build. *)
Definition run_products_query (db : mysql_db) (stmt : string * list string)
  : string + list product_row :=
  let '(sql, params) := stmt in
  if String.eqb sql "SELECT * FROM products" then inr (products db)
  else if String.eqb sql "SELECT * FROM products WHERE user_id = ?" then
    match params with
    | [uid] => inr (filter (fun p => int_matches (product_user_id p) uid) (products db))
    | _ => inl "ER_PARSE_ERROR"
    end
  else if String.eqb sql "SELECT * FROM products WHERE title LIKE ?" then
    match params with
    | [pat] => inr (filter (fun p => like pat (product_title p)) (products db))
    | _ => inl "ER_PARSE_ERROR"
    end
  else inl "ER_PARSE_ERROR".

Definition product_json (p : product_row) : json :=
  JObj [("id", JNum (product_id p));
        ("title", JStr (product_title p));
        ("description", jopt JStr (product_description p));
        ("category", jopt JStr (product_category p));
        ("price", JNum (product_price p));
        ("image_url", jopt JStr (product_image_url p));
        ("user_id", jopt JNum (product_user_id p))].

Definition get_products (fl : faults) (q user_id : field) (db : mysql_db)
  : response :=
  match query_err fl with
  | Some _ => Sent 500 (error_body "Failed to fetch products.")
  | None =>
      match run_products_query db (products_query q user_id) with
      | inl _ => Sent 500 (error_body "Failed to fetch products.")
      | inr results => Sent 200 (JArr (map product_json results))
      end
  end.

(** *** POST /api/products (lines 174-194) *)

Record product_body : Type := mkProductBody {
  pb_title : field;
  pb_description : field;
  pb_category : field;
  pb_price : option Z;
  pb_image_url : field
}.

(** [!price]: a missing price and the number 0 are falsy. *)
Definition truthy_price (p : option Z) : bool :=
  match p with
  | None => false
  | Some z => negb (z =? 0)
  end.

(** The socket.io broadcast of line 191 is no response and is left out. *)
Definition post_products (fl : faults) (body : product_body) (user : claims)
  (db : mysql_db) : response * mysql_db :=
  if negb (truthy (pb_title body)) || negb (truthy (pb_category body))
     || negb (truthy_price (pb_price body)) then
    (Sent 400 (error_body "Title, category, and price are required."), db)
  else
    let userId := c_id user in
    match query_err fl with
    | Some _ => (Sent 500 (error_body "Failed to add product."), db)
    | None =>
        let row := mkProduct (products_auto_increment db) (text (pb_title body))
                     (pb_description body) (pb_category body)
                     (match pb_price body with Some z => z | None => 0 end)
                     (pb_image_url body) userId in
        (Sent 201 (message_body "Product added successfully!"),
         mkDb (users db) (products db ++ [row])
              (users_auto_increment db) (products_auto_increment db + 1))
    end.

(** *** GET and PUT /api/users/:userId (lines 196-240) *)

Definition user_json (u : user_row) : json :=
  JObj [("id", JNum (user_id u));
        ("email", JStr (user_email u));
        ("password", JStr (user_password u));
        ("username", jopt JStr (user_username u));
        ("member_since", JNum (user_member_since u))].

Definition select_users_by_id (db : mysql_db) (userId : string) : list user_row :=
  filter (fun u => int_matches (Some (user_id u)) userId) (users db).

Definition get_user (fl : faults) (userId : string) (user : claims) (db : mysql_db)
  : response :=
  match c_id user with
  | None => Failed (TypeError "Cannot read properties of undefined (reading 'toString')")
  | Some id =>
      if negb (String.eqb (Z_to_string id) userId) then
        Sent 403 (error_body "Forbidden: You can only access your own data.")
      else
        match query_err fl with
        | Some _ => Sent 500 (error_body "Failed to fetch user data.")
        | None =>
            match select_users_by_id db userId with
            | [] => Sent 404 (error_body "User not found.")
            | row :: _ => Sent 200 (delete_key "password" (user_json row))
            end
        end
  end.

Record profile_body : Type := mkProfile {
  pf_username : field;
  pf_email : field
}.

(** [UPDATE users SET username = ?, email = ? WHERE id = ?]: [email] is
    NOT NULL and UNIQUE. *)
Definition update_user (db : mysql_db) (userId : string) (body : profile_body)
  : string + (Z * mysql_db) :=
  match select_users_by_id db userId with
  | [] => inr (0, db)
  | hit :: _ =>
      match pf_email body with
      | None => inl "ER_BAD_NULL_ERROR"
      | Some email =>
          if existsb (fun u => String.eqb (user_email u) email
                               && negb (user_id u =? user_id hit)) (users db)
          then inl "ER_DUP_ENTRY"
          else
            inr (Z.of_nat (List.length (select_users_by_id db userId)),
                 mkDb (map (fun u =>
                              if int_matches (Some (user_id u)) userId then
                                mkUser (user_id u) email (user_password u)
                                       (pf_username body) (user_member_since u)
                              else u) (users db))
                      (products db) (users_auto_increment db)
                      (products_auto_increment db))
      end
  end.

Definition put_user (fl : faults) (userId : string) (body : profile_body)
  (user : claims) (db : mysql_db) : response * mysql_db :=
  match c_id user with
  | None =>
      (Failed (TypeError "Cannot read properties of undefined (reading 'toString')"), db)
  | Some id =>
      if negb (String.eqb (Z_to_string id) userId) then
        (Sent 403 (error_body "Forbidden: You can only update your own data."), db)
      else
        match query_err fl with
        | Some _ => (Sent 500 (error_body "Failed to update user data."), db)
        | None =>
            match update_user db userId body with
            | inl _ => (Sent 500 (error_body "Failed to update user data."), db)
            | inr (affectedRows, db') =>
                if affectedRows =? 0 then
                  (Sent 404 (error_body "User not found."), db)
                else (Sent 200 (message_body "User updated successfully!"), db')
            end
        end
  end.

(** The keys of the [users] table (lines 50-56): ids given out by
    AUTO_INCREMENT, and the UNIQUE index on [email]. *)
Definition store_ok (db : mysql_db) : Prop :=
  NoDup (map user_email (users db))
  /\ NoDup (map user_id (users db))
  /\ forall u, In u (users db) -> user_id u < users_auto_increment db.

(** The row as GET /api/users/:userId sends it. *)
Definition public_user_json (u : user_row) : json :=
  JObj [("id", JNum (user_id u));
        ("email", JStr (user_email u));
        ("username", jopt JStr (user_username u));
        ("member_since", JNum (user_member_since u))].

(** *** The routes of the application *)

Inductive request : Type :=
| PostRegister (body : register_body)
| PostLogin (body : login_body)
| GetProducts (q user_id : field)
| PostProducts (body : product_body)
| GetUser (userId : string)
| PutUser (userId : string) (body : profile_body).

(** What comes with a request: its Authorization header, the clock, and
    the environment's choices. *)
Record context : Type := mkContext {
  authorization : option string;
  clock : Z;
  env : faults
}.

Definition serve (sc : scope) (cx : context) (r : request) (db : mysql_db)
  : response * mysql_db :=
  match r with
  | PostRegister body => register (env cx) (clock cx) body db
  | PostLogin body => (login sc (env cx) (clock cx) body db, db)
  | GetProducts q user_id =>
      guarded sc (clock cx) (authorization cx)
              (fun _ => (get_products (env cx) q user_id db, db)) db
  | PostProducts body =>
      guarded sc (clock cx) (authorization cx)
              (fun user => post_products (env cx) body user db) db
  | GetUser userId =>
      guarded sc (clock cx) (authorization cx)
              (fun user => (get_user (env cx) userId user db, db)) db
  | PutUser userId body =>
      guarded sc (clock cx) (authorization cx)
              (fun user => put_user (env cx) userId body user db) db
  end.

(** The password a request registers, with the id its row receives. *)
Definition registered (cx : context) (r : request) (db : mysql_db)
  : list (Z * string) :=
  match r with
  | PostRegister body =>
      match fst (register (env cx) (clock cx) body db) with
      | Sent 201 _ => [(users_auto_increment db, text (reg_password body))]
      | _ => []
      end
  | _ => []
  end.

(** A history of requests, from a datastore and the passwords registered
    so far. *)
Fixpoint run (sc : scope) (history : list (context * request))
  (st : mysql_db * list (Z * string)) : mysql_db * list (Z * string) :=
  match history with
  | [] => st
  | (cx, r) :: rest =>
      run sc rest (snd (serve sc cx r (fst st)),
                   (registered cx r (fst st) ++ snd st)%list)
  end.

End Handlers.

End Express.

(* ================================================================== *)
(** ** The Flask / PostgreSQL server *)

Module Flask.

(** *** Exceptions and responses *)

Inductive py_exn : Type :=
| KeyError (key : string)
| IndexError
| TypeError (msg : string)
| PgError (msg : string).

Inductive py (A : Type) : Type :=
| Ok (a : A)
| Raise (e : py_exn).
Arguments Ok {A} _.
Arguments Raise {A} _.

(** A view returns a body and a status (200 when it returns the body
    alone); an exception that leaves the view is answered with 500. *)
Definition response : Type := py (Z * json).

Definition status_of (r : response) : Z :=
  match r with
  | Ok (s, _) => s
  | Raise _ => 500
  end.

Definition body_of (r : response) : option json :=
  match r with
  | Ok (_, b) => Some b
  | Raise _ => None
  end.

(** [data[key]] on the request's JSON object. *)
Definition subscript {A} (key : string) (f : option A) : py A :=
  match f with
  | Some v => Ok v
  | None => Raise (KeyError key)
  end.

(** *** The datastore *)

Record user_row : Type := mkUser {
  user_id : Z;
  user_email : string;
  user_username : option string;
  user_password_hash : string
}.

Record product_row : Type := mkProduct {
  product_id : Z;
  product_title : string;
  product_description : option string;
  product_category : string;
  product_price : Z;
  product_image_url : option string;
  product_owner_id : Z
}.

Record cart_row : Type := mkCart {
  cart_id : Z;
  cart_user_id : Z;
  cart_product_id : Z;
  cart_quantity : Z
}.

Record order_row : Type := mkOrder {
  order_id : Z;
  order_user_id : Z;
  order_product_id : Z;
  order_purchased_at : Z
}.

(** The four tables, and the sequences behind their [id] columns.  A
    rollback restores the tables; sequences are not transactional. *)
Record pg : Type := mkPg {
  users : list user_row;
  products : list product_row;
  cart_items : list cart_row;
  orders : list order_row;
  users_id_seq : Z;
  products_id_seq : Z;
  cart_items_id_seq : Z;
  orders_id_seq : Z
}.

Definition empty_pg : pg := mkPg [] [] [] [] 1 1 1 1.

Definition credentials (db : pg) : list (Z * string) :=
  map (fun u => (user_id u, user_password_hash u)) (users db).

Definition rollback (before current : pg) : pg :=
  mkPg (users before) (products before) (cart_items before) (orders before)
       (users_id_seq current) (products_id_seq current)
       (cart_items_id_seq current) (orders_id_seq current).

(** Same rows in every table, whatever the sequences. *)
Definition same_tables (a b : pg) : Prop :=
  users a = users b /\ products a = products b /\
  cart_items a = cart_items b /\ orders a = orders b.

(** The rows of [users] keep their ids and hashes, and the sequence
    does not go back. *)
Definition keeps (db db' : pg) : Prop :=
  credentials db' = credentials db /\ users_id_seq db <= users_id_seq db'.

(** Listing ids are pairwise distinct and below the sequence. *)
Definition listing_ids_ok (db : pg) : Prop :=
  NoDup (map product_id (products db))
  /\ forall p, In p (products db) -> product_id p < products_id_seq db.

Definition grows (db db' : pg) : Prop :=
  (listing_ids_ok db -> listing_ids_ok db')
  /\ products_id_seq db <= products_id_seq db'.

(** The tables are what they were. *)
Definition unchanged (db db' : pg) : Prop := same_tables db' db.

(** Every listing of the later store is a listing of the earlier one
    with the same id and owner, or has an id the sequence had not yet
    given out. *)
Definition listings_stay (db db' : pg) : Prop :=
  products_id_seq db <= products_id_seq db'
  /\ forall p', In p' (products db') ->
        (exists p, In p (products db) /\ product_id p = product_id p'
                   /\ product_owner_id p = product_owner_id p')
        \/ products_id_seq db <= product_id p'.

Definition answers_200 (r : Z * json) : Prop := fst r = 200.

(** A relation between the store before and after that transactions
    respect: a preorder that survives a rollback. *)
Class Transactional (R : pg -> pg -> Prop) : Prop := {
  tx_refl : forall db, R db db;
  tx_trans : forall a b c, R a b -> R b c -> R a c;
  tx_rollback : forall before current, R before current -> R before (rollback before current)
}.

(** *** Connections, cursors and transactions *)

(** What the environment decides per datastore action (connect, each
    execute, commit), in order: [Some msg] makes that action fail. *)
Definition schedule := list (option string).

Record conn : Type := mkConn {
  store : pg;
  pending : schedule
}.

Definition cursor (A : Type) : Type := conn -> py A * conn.

Definition ret {A} (a : A) : cursor A := fun c => (Ok a, c).
Definition raise {A} (e : py_exn) : cursor A := fun c => (Raise e, c).
Definition bind {A B} (m : cursor A) (k : A -> cursor B) : cursor B :=
  fun c =>
    match m c with
    | (Ok a, c') => k a c'
    | (Raise e, c') => (Raise e, c')
    end.
Definition lift {A} (r : py A) : cursor A := fun c => (r, c).

Notation "x <- m ;; k" := (bind m (fun x => k))
  (at level 61, m at next level, right associativity).

(** Two ways to speak about a cursor program: what it does to the
    store, and what it returns when it returns. *)
Definition cursor_keeps (R : pg -> pg -> Prop) {A} (m : cursor A) : Prop :=
  forall c r c', m c = (r, c') -> R (store c) (store c').

Definition cursor_post {A} (Q : A -> Prop) (m : cursor A) : Prop :=
  forall c a c', m c = (Ok a, c') -> Q a.

(** The next entry of the schedule. *)
Definition next_fault (s : schedule) : option string * schedule :=
  match s with
  | [] => (None, [])
  | f :: rest => (f, rest)
  end.

(** [cur.execute(stmt, params)]: the statement runs on the transaction's
    view of the store, or raises a [psycopg2.Error]. *)
Definition execute {A} (stmt : pg -> (string + A) * pg) : cursor A :=
  fun c =>
    match next_fault (pending c) with
    | (Some msg, rest) => (Raise (PgError msg), mkConn (store c) rest)
    | (None, rest) =>
        match stmt (store c) with
        | (inl msg, db') => (Raise (PgError msg), mkConn db' rest)
        | (inr a, db') => (Ok a, mkConn db' rest)
        end
    end.

(** [with get_db() as conn: with conn.cursor() as cur: body]: the block
    is one transaction, committed when it ends normally (a [return]
    included) and rolled back when an exception leaves it. *)
Definition with_db {A} (body : cursor A) (db : pg) (fl : schedule) : py A * pg :=
  match next_fault fl with
  | (Some msg, _) => (Raise (PgError msg), db)
  | (None, fl1) =>
      match body (mkConn db fl1) with
      | (Ok a, c) =>
          match next_fault (pending c) with
          | (Some msg, _) => (Raise (PgError msg), rollback db (store c))
          | (None, _) => (Ok a, store c)
          end
      | (Raise e, c) => (Raise e, rollback db (store c))
      end
  end.

(** *** Configuration (line 263) *)

Definition JWT_SECRET (getenv : string -> option string) : string :=
  match getenv "JWT_SECRET" with
  | Some s => s
  | None => "supersecret"
  end.

Section Handlers.
Context `{JwtLib} `{PasswordHasher}.
Variable getenv : string -> option string.

(** *** require_auth (lines 273-286) *)

(** [request.headers.get("Authorization", "")]. *)
Definition header_text (authorization : option string) : string :=
  match authorization with Some h => h | None => "" end.

(** The token a header presents, when it has the Bearer prefix. *)
Definition presented (authorization : option string) : option string :=
  if String.prefix "Bearer " (header_text authorization)
  then nth_error (split_on space (header_text authorization)) 1
  else None.

Definition require_auth (f : Z -> response * pg) (authorization : option string)
  (now : Z) (db : pg) : response * pg :=
  let auth := header_text authorization in
  if negb (String.prefix "Bearer " auth) then
    (Ok (401, error_body "Missing token"), db)
  else
    match nth_error (split_on space auth) 1 with
    | None => (Raise IndexError, db)
    | Some token =>
        match jwt_decode token (JWT_SECRET getenv) now with
        | inl _ => (Ok (401, error_body "Invalid token"), db)
        | inr payload =>
            match c_uid payload with
            | None => (Raise (KeyError "uid"), db)
            | Some uid => f uid
            end
        end
    end.

(** *** signup and login (lines 289-314) *)

Record signup_body : Type := mkSignup {
  su_email : field;
  su_username : field;
  su_password : field
}.

(** Modelled from the spec: the PostgreSQL schema is not in the sources;
    section 3 makes [email] globally unique, so a second row with the
    same address is refused.  The [id] default is drawn from the
    sequence before the row is checked. *)
Definition insert_user (email : string) (username : field) (hashed : string)
  (db : pg) : (string + Z) * pg :=
  let uid := users_id_seq db in
  let drawn := mkPg (users db) (products db) (cart_items db) (orders db)
                    (uid + 1) (products_id_seq db) (cart_items_id_seq db)
                    (orders_id_seq db) in
  if existsb (fun u => String.eqb (user_email u) email) (users db) then
    (inl "duplicate key value violates unique constraint", drawn)
  else
    (inr uid,
     mkPg (users db ++ [mkUser uid email username hashed]) (products db)
          (cart_items db) (orders db)
          (uid + 1) (products_id_seq db) (cart_items_id_seq db) (orders_id_seq db)).

Definition signup (salt : string) (fl : schedule) (data : signup_body) (db : pg)
  : response * pg :=
  if negb (truthy (su_email data)) || negb (truthy (su_password data)) then
    (Ok (400, error_body "Email and password required"), db)
  else
    let hashed := bcrypt_hash salt (text (su_password data)) in
    match with_db (execute (insert_user (text (su_email data)) (su_username data) hashed))
                  db fl with
    | (Ok uid, db') =>
        (Ok (200, JObj [("message", JStr "User created"); ("id", JNum uid)]), db')
    | (Raise (PgError msg), db') => (Ok (400, error_body msg), db')
    | (Raise e, db') => (Raise e, db')
    end.

(** The store after a signup that creates a row. *)
Definition signed_up (db : pg) (salt email : string) (username : field)
  (password : string) : pg :=
  mkPg (users db ++ [mkUser (users_id_seq db) email username (bcrypt_hash salt password)])
       (products db) (cart_items db) (orders db)
       (users_id_seq db + 1) (products_id_seq db) (cart_items_id_seq db)
       (orders_id_seq db).

Record login_body : Type := mkLogin {
  lg_email : field;
  lg_password : field
}.

(** A [SELECT] changes nothing; [fetchone()] is the first row, if any. *)
Definition fetchone {A} (rows : pg -> list A) (db : pg) : (string + option A) * pg :=
  (inr (hd_error (rows db)), db).

Definition fetchall {A} (rows : pg -> list A) (db : pg) : (string + list A) * pg :=
  (inr (rows db), db).

Definition users_by_email (email : string) (db : pg) : list user_row :=
  filter (fun u => String.eqb (user_email u) email) (users db).

Definition users_by_id (uid : Z) (db : pg) : list user_row :=
  filter (fun u => user_id u =? uid) (users db).

Definition token_lifetime : Z := 8 * 3600.

(** The token of line 313: the user's id under "uid", expiry eight hours
    after the clock. *)
Definition session_token (uid now : Z) : string :=
  jwt_encode (mkClaims (Some uid) None None None (Some (now + token_lifetime)))
             (JWT_SECRET getenv).

Definition login (now : Z) (fl : schedule) (data : login_body) (db : pg)
  : response * pg :=
  with_db
    (email <- lift (subscript "email" (lg_email data)) ;;
     row <- execute (fetchone (users_by_email email)) ;;
     match row with
     | None => ret (401, error_body "Invalid credentials")
     | Some u =>
         password <- lift (subscript "password" (lg_password data)) ;;
         if negb (bcrypt_verify password (user_password_hash u)) then
           ret (401, error_body "Invalid credentials")
         else
           let token := session_token (user_id u) now in
           ret (200, JObj [("token", JStr token);
                           ("user", JObj [("id", JNum (user_id u));
                                          ("email", JStr email);
                                          ("username", jopt JStr (user_username u))])])
     end)
    db fl.

(** *** Profile (lines 317-334) *)

Definition not_subscriptable : py_exn :=
  TypeError "'NoneType' object is not subscriptable".

Definition profile_json (u : user_row) : json :=
  JObj [("id", JNum (user_id u));
        ("email", JStr (user_email u));
        ("username", jopt JStr (user_username u))].

Definition me (fl : schedule) (uid : Z) (db : pg) : response * pg :=
  with_db
    (row <- execute (fetchone (users_by_id uid)) ;;
     match row with
     | None => raise not_subscriptable
     | Some u => ret (200, profile_json u)
     end)
    db fl.

Record profile_body : Type := mkProfile {
  pf_username : field;
  pf_email : field
}.

(** The UPDATE of line 332, answering the row it RETURNs.  Modelled from
    the spec: as for [insert_user], [email] is unique (section 3), so the
    statement is refused when another row has the address. *)
Definition update_user (username email : string) (uid : Z) (db : pg)
  : (string + option user_row) * pg :=
  if existsb (fun u => String.eqb (user_email u) email && negb (user_id u =? uid))
             (users db)
     && existsb (fun u => user_id u =? uid) (users db)
  then (inl "duplicate key value violates unique constraint", db)
  else
    let users' :=
      map (fun u => if user_id u =? uid
                    then mkUser (user_id u) email (Some username) (user_password_hash u)
                    else u) (users db) in
    (inr (hd_error (filter (fun u => user_id u =? uid) users')),
     mkPg users' (products db) (cart_items db) (orders db)
          (users_id_seq db) (products_id_seq db) (cart_items_id_seq db)
          (orders_id_seq db)).

Definition update_me (fl : schedule) (data : profile_body) (uid : Z) (db : pg)
  : response * pg :=
  with_db
    (username <- lift (subscript "username" (pf_username data)) ;;
     email <- lift (subscript "email" (pf_email data)) ;;
     row <- execute (update_user username email uid) ;;
     match row with
     | None => raise not_subscriptable
     | Some u => ret (200, JObj [("user", profile_json u)])
     end)
    db fl.

(** *** Products (lines 337-392) *)

(** [lower()] / [LOWER()] on the letters A-Z; other characters are left
    as they are. *)
Definition lower_ascii (c : ascii) : ascii :=
  let n := nat_of_ascii c in
  if (Nat.leb 65 n && Nat.leb n 90)%bool then ascii_of_nat (n + 32) else c.

Fixpoint lower (s : string) : string :=
  match s with
  | EmptyString => EmptyString
  | String c rest => String (lower_ascii c) (lower rest)
  end.

Definition listing_json (p : product_row) : json :=
  JObj [("id", JNum (product_id p));
        ("title", JStr (product_title p));
        ("description", jopt JStr (product_description p));
        ("category", JStr (product_category p));
        ("price", JStr (price_text (product_price p)));
        ("image_url", jopt JStr (product_image_url p));
        ("owner_id", JNum (product_owner_id p))].

Definition items (l : list json) : Z * json := (200, JObj [("items", JArr l)]).

Definition list_products (fl : schedule) (arg_q arg_category : field) (db : pg)
  : response * pg :=
  let q := lower (match arg_q with Some v => v | None => "" end) in
  let cat := match arg_category with Some v => v | None => "All" end in
  with_db
    (rows <- execute (fetchall (fun d =>
       filter (fun p =>
                 (negb (truthy (Some q))
                  || like ("%" ++ q ++ "%") (lower (product_title p)))
                 && (String.eqb cat "All" || String.eqb (product_category p) cat))
              (products d))) ;;
     ret (items (map listing_json rows)))
    db fl.

Record product_body : Type := mkProductBody {
  pb_title : field;
  pb_description : field;
  pb_category : field;
  pb_price : option Z;
  pb_image_url : field
}.

Definition insert_product (title : string) (description : field) (category : string)
  (price : Z) (image_url : field) (owner : Z) (db : pg) : (string + Z) * pg :=
  let pid := products_id_seq db in
  (inr pid,
   mkPg (users db)
        (products db ++ [mkProduct pid title description category price image_url owner])
        (cart_items db) (orders db)
        (users_id_seq db) (pid + 1) (cart_items_id_seq db) (orders_id_seq db)).

Definition create_product (fl : schedule) (data : product_body) (uid : Z) (db : pg)
  : response * pg :=
  with_db
    (title <- lift (subscript "title" (pb_title data)) ;;
     category <- lift (subscript "category" (pb_category data)) ;;
     price <- lift (subscript "price" (pb_price data)) ;;
     pid <- execute (insert_product title (pb_description data) category price
                                    (pb_image_url data) uid) ;;
     ret (200, JObj [("id", JNum pid)]))
    db fl.

(** The row an UPDATE or DELETE addresses: [WHERE id=%s AND owner_id=%s]. *)
Definition owned_by (pid uid : Z) (p : product_row) : bool :=
  (product_id p =? pid) && (product_owner_id p =? uid).

(** The listing as an accepted update leaves it. *)
Definition updated_listing (p : product_row) (title : string) (description : field)
  (category : string) (price : Z) (image_url : field) : product_row :=
  mkProduct (product_id p) title description category price image_url
            (product_owner_id p).

(** The UPDATE of line 372; the answer is [cur.rowcount]. *)
Definition update_listing (title : string) (description : field) (category : string)
  (price : Z) (image_url : field) (pid uid : Z) (db : pg) : (string + Z) * pg :=
  (inr (Z.of_nat (List.length (filter (owned_by pid uid) (products db)))),
   mkPg (users db)
        (map (fun p => if owned_by pid uid p
                       then updated_listing p title description category price image_url
                       else p) (products db))
        (cart_items db) (orders db)
        (users_id_seq db) (products_id_seq db) (cart_items_id_seq db)
        (orders_id_seq db)).

Definition update_product (fl : schedule) (pid : Z) (data : product_body) (uid : Z)
  (db : pg) : response * pg :=
  with_db
    (title <- lift (subscript "title" (pb_title data)) ;;
     category <- lift (subscript "category" (pb_category data)) ;;
     price <- lift (subscript "price" (pb_price data)) ;;
     rowcount <- execute (update_listing title (pb_description data) category price
                                         (pb_image_url data) pid uid) ;;
     if rowcount =? 0 then ret (404, error_body "Not found")
     else ret (200, message_body "Updated"))
    db fl.

(** The DELETE of line 382; the answer is the number of rows removed. *)
Definition delete_listing (pid uid : Z) (db : pg) : (string + Z) * pg :=
  (inr (Z.of_nat (List.length (filter (owned_by pid uid) (products db)))),
   mkPg (users db)
        (filter (fun p => negb (owned_by pid uid p)) (products db))
        (cart_items db) (orders db)
        (users_id_seq db) (products_id_seq db) (cart_items_id_seq db)
        (orders_id_seq db)).

Definition delete_product (fl : schedule) (pid : Z) (uid : Z) (db : pg)
  : response * pg :=
  with_db
    (_ <- execute (delete_listing pid uid) ;;
     ret (200, message_body "Deleted"))
    db fl.

Definition my_listing_json (p : product_row) : json :=
  JObj [("id", JNum (product_id p));
        ("title", JStr (product_title p));
        ("price", JStr (price_text (product_price p)));
        ("category", JStr (product_category p));
        ("image_url", jopt JStr (product_image_url p))].

Definition my_listings (fl : schedule) (uid : Z) (db : pg) : response * pg :=
  with_db
    (rows <- execute (fetchall (fun d =>
       filter (fun p => product_owner_id p =? uid) (products d))) ;;
     ret (items (map my_listing_json rows)))
    db fl.

(** *** Cart and orders (lines 395-437) *)

Definition cart_of (uid : Z) (db : pg) : list cart_row :=
  filter (fun c => cart_user_id c =? uid) (cart_items db).

Definition orders_of (uid : Z) (db : pg) : list order_row :=
  filter (fun o => order_user_id o =? uid) (orders db).

(** [cart_items c JOIN products p ON c.product_id = p.id]. *)
Definition cart_join (uid : Z) (db : pg) : list (cart_row * product_row) :=
  flat_map (fun c =>
              map (fun p => (c, p))
                  (filter (fun p => product_id p =? cart_product_id c) (products db)))
           (cart_of uid db).

Definition cart_json (cp : cart_row * product_row) : json :=
  JObj [("id", JNum (cart_id (fst cp)));
        ("title", JStr (product_title (snd cp)));
        ("price", JStr (price_text (product_price (snd cp))));
        ("image_url", jopt JStr (product_image_url (snd cp)))].

Definition get_cart (fl : schedule) (uid : Z) (db : pg) : response * pg :=
  with_db
    (rows <- execute (fetchall (cart_join uid)) ;;
     ret (items (map cart_json rows)))
    db fl.

Record cart_body : Type := mkCartBody {
  cb_product_id : option Z;
  cb_quantity : option Z
}.

Definition insert_cart_item (uid product quantity : Z) (db : pg) : (string + unit) * pg :=
  let cid := cart_items_id_seq db in
  (inr tt,
   mkPg (users db) (products db)
        (cart_items db ++ [mkCart cid uid product quantity]) (orders db)
        (users_id_seq db) (products_id_seq db) (cid + 1) (orders_id_seq db)).

Definition add_cart (fl : schedule) (data : cart_body) (uid : Z) (db : pg)
  : response * pg :=
  with_db
    (product <- lift (subscript "product_id" (cb_product_id data)) ;;
     _ <- execute (insert_cart_item uid product
                     (match cb_quantity data with Some n => n | None => 1 end)) ;;
     ret (200, message_body "Added"))
    db fl.

Definition delete_cart_item (item_id uid : Z) (db : pg) : (string + unit) * pg :=
  (inr tt,
   mkPg (users db) (products db)
        (filter (fun c => negb ((cart_id c =? item_id) && (cart_user_id c =? uid)))
                (cart_items db))
        (orders db)
        (users_id_seq db) (products_id_seq db) (cart_items_id_seq db)
        (orders_id_seq db)).

Definition remove_cart (fl : schedule) (item_id : Z) (uid : Z) (db : pg)
  : response * pg :=
  with_db
    (_ <- execute (delete_cart_item item_id uid) ;;
     ret (200, message_body "Removed"))
    db fl.

(** Rows numbered from the sequence, one value per row. *)
Fixpoint number_orders (next : Z) (now : Z) (rows : list cart_row) : list order_row :=
  match rows with
  | [] => []
  | c :: rest =>
      mkOrder next (cart_user_id c) (cart_product_id c) now
      :: number_orders (next + 1) now rest
  end.

(** [INSERT INTO orders (...) SELECT user_id, product_id, NOW() FROM
    cart_items WHERE user_id=%s] (line 426). *)
Definition copy_cart_to_orders (now uid : Z) (db : pg) : (string + unit) * pg :=
  let rows := cart_of uid db in
  (inr tt,
   mkPg (users db) (products db) (cart_items db)
        (orders db ++ number_orders (orders_id_seq db) now rows)
        (users_id_seq db) (products_id_seq db) (cart_items_id_seq db)
        (orders_id_seq db + Z.of_nat (List.length rows))).

(** [DELETE FROM cart_items WHERE user_id=%s] (line 427). *)
Definition clear_cart (uid : Z) (db : pg) : (string + unit) * pg :=
  (inr tt,
   mkPg (users db) (products db)
        (filter (fun c => negb (cart_user_id c =? uid)) (cart_items db))
        (orders db)
        (users_id_seq db) (products_id_seq db) (cart_items_id_seq db)
        (orders_id_seq db)).

(** The store after both statements of [checkout]. *)
Definition checked_out (now uid : Z) (db : pg) : pg :=
  snd (clear_cart uid (snd (copy_cart_to_orders now uid db))).

Definition checkout (now : Z) (fl : schedule) (uid : Z) (db : pg) : response * pg :=
  with_db
    (_ <- execute (copy_cart_to_orders now uid) ;;
     _ <- execute (clear_cart uid) ;;
     ret (200, message_body "Order placed"))
    db fl.

(** [ORDER BY o.purchased_at DESC], as a stable insertion sort: a row
    goes behind the newer rows only, so rows of one instant stay in the
    order of the join. *)
Fixpoint insert_desc (x : order_row * product_row) (l : list (order_row * product_row))
  : list (order_row * product_row) :=
  match l with
  | [] => [x]
  | y :: rest =>
      if order_purchased_at (fst y) <=? order_purchased_at (fst x)
      then x :: y :: rest
      else y :: insert_desc x rest
  end.


Definition sort_desc (l : list (order_row * product_row))
  : list (order_row * product_row) :=
  fold_right insert_desc [] l.

Definition orders_join (uid : Z) (db : pg) : list (order_row * product_row) :=
  sort_desc
    (flat_map (fun o =>
                 map (fun p => (o, p))
                     (filter (fun p => product_id p =? order_product_id o) (products db)))
              (orders_of uid db)).

(** Timestamps are seconds; their decimal text stands for [isoformat()]. *)
Definition order_json (op : order_row * product_row) : json :=
  JObj [("id", JNum (order_id (fst op)));
        ("title", JStr (product_title (snd op)));
        ("price", JStr (price_text (product_price (snd op))));
        ("image_url", jopt JStr (product_image_url (snd op)));
        ("purchased_at", JStr (Z_to_string (order_purchased_at (fst op))))].

(* The view [orders]; the name is taken by the table. *)
Definition orders_view (fl : schedule) (uid : Z) (db : pg) : response * pg :=
  with_db
    (rows <- execute (fetchall (orders_join uid)) ;;
     ret (items (map order_json rows)))
    db fl.

(** *** The routes of the application *)

Inductive request : Type :=
| Signup (salt : string) (data : signup_body)
| Login (data : login_body)
| Me
| UpdateMe (data : profile_body)
| ListProducts (q category : field)
| CreateProduct (data : product_body)
| UpdateProduct (pid : Z) (data : product_body)
| DeleteProduct (pid : Z)
| MyListings
| GetCart
| AddCart (data : cart_body)
| RemoveCart (item_id : Z)
| Checkout
| Orders.

Record context : Type := mkContext {
  authorization : option string;
  clock : Z;
  env : schedule
}.

Definition serve (cx : context) (r : request) (db : pg) : response * pg :=
  let auth view := require_auth view (authorization cx) (clock cx) db in
  match r with
  | Signup salt data => signup salt (env cx) data db
  | Login data => login (clock cx) (env cx) data db
  | Me => auth (fun uid => me (env cx) uid db)
  | UpdateMe data => auth (fun uid => update_me (env cx) data uid db)
  | ListProducts q category => auth (fun _ => list_products (env cx) q category db)
  | CreateProduct data => auth (fun uid => create_product (env cx) data uid db)
  | UpdateProduct pid data => auth (fun uid => update_product (env cx) pid data uid db)
  | DeleteProduct pid => auth (fun uid => delete_product (env cx) pid uid db)
  | MyListings => auth (fun uid => my_listings (env cx) uid db)
  | GetCart => auth (fun uid => get_cart (env cx) uid db)
  | AddCart data => auth (fun uid => add_cart (env cx) data uid db)
  | RemoveCart item_id => auth (fun uid => remove_cart (env cx) item_id uid db)
  | Checkout => auth (fun uid => checkout (clock cx) (env cx) uid db)
  | Orders => auth (fun uid => orders_view (env cx) uid db)
  end.

(** The password a request registers, with the id its row receives. *)
Definition registered (cx : context) (r : request) (db : pg) : list (Z * string) :=
  match r with
  | Signup salt data =>
      match fst (signup salt (env cx) data db) with
      | Ok (200, _) => [(users_id_seq db, text (su_password data))]
      | _ => []
      end
  | _ => []
  end.

Fixpoint run (history : list (context * request)) (st : pg * list (Z * string))
  : pg * list (Z * string) :=
  match history with
  | [] => st
  | (cx, r) :: rest =>
      run rest (snd (serve cx r (fst st)),
                (registered cx r (fst st) ++ snd st)%list)
  end.

End Handlers.

End Flask.

(* ================================================================== *)
(** * The clients *)

(** ** The script client (src/FRONTEND/OMKAR.JS, src/unnamed/part_000)

    It is written against port 4000, where the Express server listens. *)
Module Script.

(** What [fetch] comes back with: a response with its status and its
    body, JSON or not, or no response at all. *)
Inductive reply : Type :=
| Response (status : Z) (body : option json)   (* [None]: a body that is not JSON *)
| NoResponse.

Inductive thrown : Type :=
| JsError (reason : json)     (* new Error(reason) *)
| SyntaxError                 (* res.json() on a body that is not JSON *)
| TypeError.                  (* fetch without a response; a property of null *)

(** What a call of [api] ends in. *)
Inductive outcome : Type :=
| Resolved (data : json)
| Threw (e : thrown).

(** Truthiness of a property read off a parsed body. *)
Definition js_truthy (v : option json) : bool :=
  match v with
  | None => false
  | Some JNull => false
  | Some (JBool b) => b
  | Some (JNum z) => negb (z =? 0)
  | Some (JStr s) => negb (String.eqb s "")
  | Some (JArr _) => true
  | Some (JObj _) => true
  end.

(** [value.key] on a parsed body other than null: of equal keys
    JSON.parse keeps the last; only objects have properties of their
    own named like this. *)
Definition property (key : string) (value : json) : option json :=
  match value with
  | JObj fields =>
      fold_left (fun found kv => if String.eqb (fst kv) key then Some (snd kv) else found)
                fields None
  | _ => None
  end.

(** [api(endpoint, method, body, auth)] (OMKAR.JS lines 15-35).  [send]
    is the server's answer to the endpoint, method and body of the call,
    as a function of the Authorization header; [token] is the item
    "token" of localStorage. *)
Definition api (send : option string -> reply) (token : field) (auth : bool)
  : outcome :=
  let authorization :=
    if auth && truthy token then Some ("Bearer " ++ text token) else None in
  match send authorization with
  | NoResponse => Threw TypeError
  | Response status body =>
      if (200 <=? status) && (status <=? 299) then
        match body with
        | Some data => Resolved data
        | None => Threw SyntaxError
        end
      else
        match body with
        | None => Threw (JsError (JStr "API error"))
        | Some JNull => Threw TypeError
        | Some err =>
            Threw (JsError (if js_truthy (property "error" err)
                            then match property "error" err with
                                 | Some reason => reason
                                 | None => JNull
                                 end
                            else JStr "API error"))
        end
  end.

(** What [loadProducts] does with the outcome: hand the products to
    [renderProducts], or log the error and leave the grid alone. *)
Inductive loaded : Type :=
| Rendered (products : json)
| Logged (e : thrown).

(** [loadProducts(query)] (part_000 lines 6-14): the call names no
    [auth] argument, so it is [false].  The server reads as [q] what
    [encodeURIComponent] encoded. *)
Definition loadProducts (products_route : field -> option string -> reply)
  (token : field) (query : string) : loaded :=
  match api (products_route (Some query)) token false with
  | Resolved products => Rendered products
  | Threw e => Logged e
  end.

Section Wire.
Context `{JwtLib} `{PasswordHasher}.

(** GET /api/products on the Express server, seen from the client: the
    router's error page is not JSON, and an exception nothing catches
    leaves the client without a response. *)
Definition express_products (sc : Express.scope) (now : Z) (fl : Express.faults)
  (db : Express.mysql_db) (q : field) (authorization : option string) : reply :=
  match fst (Express.serve sc (Express.mkContext authorization now fl)
                           (Express.GetProducts q None) db) with
  | Express.Sent status body => Response status (Some body)
  | Express.Failed _ => Response 500 None
  | Express.Thrown _ => NoResponse
  end.

End Wire.

End Script.

(** ** The React client (src/frend.jsx)

    It is written against port 5000, where the Flask server listens. *)
Module React.

(** *** Regular expressions, as far as [emailRegex] needs them *)

Inductive regex : Type :=
| Void                                  (* matches nothing *)
| Eps                                   (* matches the empty string *)
| Class (member : ascii -> bool)        (* one character of a class *)
| Cat (r s : regex)
| Alt (r s : regex)
| Star (r : regex).

(** [r+] *)
Definition Plus (r : regex) : regex := Cat r (Star r).

Fixpoint nullable (r : regex) : bool :=
  match r with
  | Void => false
  | Eps => true
  | Class _ => false
  | Cat r s => nullable r && nullable s
  | Alt r s => nullable r || nullable s
  | Star _ => true
  end.

(** What is left of [r] to match once [c] has been read. *)
Fixpoint deriv (c : ascii) (r : regex) : regex :=
  match r with
  | Void => Void
  | Eps => Void
  | Class member => if member c then Eps else Void
  | Cat r s =>
      if nullable r then Alt (Cat (deriv c r) s) (deriv c s)
      else Cat (deriv c r) s
  | Alt r s => Alt (deriv c r) (deriv c s)
  | Star r => Cat (deriv c r) (Star r)
  end.

(** [/^r$/.test(s)]: the whole of [s] matches [r]. *)
Fixpoint test (r : regex) (s : string) : bool :=
  match s with
  | EmptyString => nullable r
  | String c rest => test (deriv c r) rest
  end.

(** The strings a regular expression matches. *)
Inductive lang : regex -> string -> Prop :=
| lang_eps : lang Eps ""
| lang_class member c : member c = true -> lang (Class member) (String c "")
| lang_cat r s u v : lang r u -> lang s v -> lang (Cat r s) (u ++ v)
| lang_alt_l r s u : lang r u -> lang (Alt r s) u
| lang_alt_r r s u : lang s u -> lang (Alt r s) u
| lang_star_nil r : lang (Star r) ""
| lang_star_app r u v : lang r u -> lang (Star r) v -> lang (Star r) (u ++ v).

(** The class [\s] on characters below 256: tab to carriage return,
    space and no-break space. *)
Definition whitespace (c : ascii) : bool :=
  let n := N_of_ascii c in
  ((9 <=? n) && (n <=? 13) || (n =? 32) || (n =? 160))%N.

(** The class [[^\s@]]. *)
Definition not_space_at (c : ascii) : bool :=
  negb (whitespace c || Ascii.eqb c "@").

(** [/^[^\s@]+@[^\s@]+\.[^\s@]+$/] (line 52). *)
Definition emailRegex : regex :=
  Cat (Plus (Class not_space_at))
      (Cat (Class (Ascii.eqb "@"))
           (Cat (Plus (Class not_space_at))
                (Cat (Class (Ascii.eqb "."))
                     (Plus (Class not_space_at))))).

Fixpoint all_chars (member : ascii -> bool) (s : string) : bool :=
  match s with
  | EmptyString => true
  | String c rest => member c && all_chars member rest
  end.

(** A non-empty run of characters other than white space and "@". *)
Definition plain (s : string) : Prop :=
  s <> "" /\ all_chars not_space_at s = true.

(** *** The forms and their validation (lines 54-68) *)

(** The state of the form of [AuthScreen]: three strings. *)
Record form : Type := mkForm {
  email : string;
  username : string;
  password : string
}.

(** The [errors] object: a message for each field found wrong. *)
Record errors : Type := mkErrors {
  errors_email : option string;
  errors_username : option string;
  errors_password : option string
}.

Definition validateSignup (f : form) : errors :=
  mkErrors
    (if negb (truthy (Some (email f))) || negb (test emailRegex (email f))
     then Some "Enter a valid email" else None)
    (if negb (truthy (Some (username f))) || (String.length (username f) <? 3)%nat
     then Some "Username must be at least 3 characters" else None)
    (if negb (truthy (Some (password f))) || (String.length (password f) <? 6)%nat
     then Some "Password must be at least 6 characters" else None).

Definition validateLogin (f : form) : errors :=
  mkErrors
    (if negb (truthy (Some (email f))) || negb (test emailRegex (email f))
     then Some "Enter a valid email" else None)
    None
    (if negb (truthy (Some (password f)))
     then Some "Password is required" else None).

(** [Object.keys(errs).length] is 0: [onSubmit] goes on to the request. *)
Definition no_errors (e : errors) : bool :=
  match e with
  | mkErrors None None None => true
  | _ => false
  end.

(** The bodies [onSubmit] sends (lines 260 and 264): the form itself to
    /api/auth/signup, its email and password to /api/auth/login. *)
Definition signup_request (f : form) : Flask.signup_body :=
  Flask.mkSignup (Some (email f)) (Some (username f)) (Some (password f)).

Definition login_request (f : form) : Flask.login_body :=
  Flask.mkLogin (Some (email f)) (Some (password f)).

End React.

(* ================================================================== *)
(** ** Invariants and the example scenario *)

(** The invariant of a server's store and the passwords registered so
    far. *)
Definition express_inv `{PasswordHasher} (st : Express.mysql_db * list (Z * string))
  : Prop :=
  derived (Express.credentials (fst st)) (Express.users_auto_increment (fst st)) (snd st).

Definition flask_inv `{PasswordHasher} (st : Flask.pg * list (Z * string)) : Prop :=
  derived (Flask.credentials (fst st)) (Flask.users_id_seq (fst st)) (snd st).

Definition body_hides (r : Z * json) : Prop := hides_password (snd r) = true.

(** The scenario of section 8: ana signs up with "a@x.com" / "secret1"
    and lists a lamp; a second user, bob, has the lamp in his cart. *)
Module Scenario.

Definition no_env : string -> option string := fun _ => None.

Definition ana_hash : string := Reference.hash "salt" "secret1".
Definition bob_hash : string := Reference.hash "pepper" "secret2".

Definition express_ana : Express.user_row :=
  Express.mkUser 1 "a@x.com" ana_hash (Some "ana") 0.

Definition express_db : Express.mysql_db := Express.mkDb [express_ana] [] 2 1.

Definition ana : Flask.user_row := Flask.mkUser 1 "a@x.com" (Some "ana") ana_hash.
Definition bob : Flask.user_row := Flask.mkUser 2 "b@x.com" (Some "bob") bob_hash.

Definition lamp : Flask.product_row :=
  Flask.mkProduct 1 "Lamp" None "Home" 1250 None 1.

Definition flask_db : Flask.pg :=
  Flask.mkPg [ana; bob] [lamp] [Flask.mkCart 1 2 1 1] [] 3 2 2 1.

(** A payload as Express signs it: an id and an email, no "uid". *)
Definition express_payload : claims :=
  mkClaims None (Some 1) (Some "a@x.com") (Some 0) (Some 3600).

Definition ok_view (db : Flask.pg) (uid : Z) : Flask.response * Flask.pg :=
  (Flask.Ok (200, JObj [("id", JNum uid)]), db).

(** The token a login at time 1 gives ana, in the reference format. *)
Definition ana_token : string :=
  Reference.encode (mkClaims (Some 1) None None None (Some (1 + 8 * 3600)))
                   "supersecret".

(** Ana signs up, logs in and reads her profile. *)
Definition ana_history : list (Flask.context * Flask.request) :=
  [ (Flask.mkContext None 0 [],
     Flask.Signup "salt" (Flask.mkSignup (Some "a@x.com") (Some "ana") (Some "secret1")));
    (Flask.mkContext None 1 [],
     Flask.Login (Flask.mkLogin (Some "a@x.com") (Some "secret1")));
    (Flask.mkContext (Some ("Bearer " ++ ana_token)%string) 2 [], Flask.Me) ].

(** A scope in which [JWT_SECRET] is bound, as the program would need. *)
Definition bound_scope : Express.scope :=
  ("JWT_SECRET", Express.JsString "supersecret") :: Express.server_scope.

(** A third user's signup form. *)
Definition cleo : React.form := React.mkForm "c@x.com" "cleo" "secret3".

End Scenario.

(* ================================================================== *)
(** * Properties *)

(** ** Splitting *)

Lemma split_on_no_char (sep : ascii) (s : string) :
  no_char sep s = true -> split_on sep s = [s].
Proof.
  induction s as [|c rest IH]; simpl; [reflexivity|].
  intros Hn. apply andb_prop in Hn as [Hc Hrest].
  apply negb_true_iff in Hc. rewrite Hc, (IH Hrest). reflexivity.
Qed.

Lemma split_on_app (sep : ascii) (a b : string) :
  no_char sep a = true ->
  split_on sep (a ++ String sep b) = a :: split_on sep b.
Proof.
  induction a as [|c rest IH]; simpl.
  - intros _. rewrite Ascii.eqb_refl. reflexivity.
  - intros Hn. apply andb_prop in Hn as [Hc Hrest].
    apply negb_true_iff in Hc. rewrite Hc, (IH Hrest). reflexivity.
Qed.

Lemma no_char_app (sep : ascii) (a b : string) :
  no_char sep (a ++ b) = no_char sep a && no_char sep b.
Proof.
  induction a as [|c rest IH]; simpl; [reflexivity|].
  rewrite IH. apply andb_assoc.
Qed.

(** The second piece of ["Bearer <token>"] is the token. *)
Lemma split_bearer (token : string) :
  no_char space token = true ->
  nth_error (split_on space ("Bearer " ++ token)) 1 = Some token.
Proof.
  intros Hn.
  change ("Bearer " ++ token) with ("Bearer" ++ String space token).
  rewrite split_on_app by reflexivity.
  rewrite (split_on_no_char _ _ Hn). reflexivity.
Qed.

Lemma prefix_app (a b : string) : String.prefix a (a ++ b) = true.
Proof.
  induction a as [|c rest IH]; simpl.
  - destruct b; reflexivity.
  - destruct (ascii_dec c c) as [_|Hne]; [exact IH | contradiction].
Qed.

Lemma append_assoc (a b c : string) : ((a ++ b) ++ c)%string = (a ++ (b ++ c))%string.
Proof. induction a as [|x rest IH]; simpl; [reflexivity | now rewrite IH]. Qed.

Lemma length_append (a b : string) :
  String.length (a ++ b) = (String.length a + String.length b)%nat.
Proof. induction a as [|x rest IH]; simpl; [reflexivity | now rewrite IH]. Qed.

Lemma prefix_bearer (token : string) : String.prefix "Bearer " ("Bearer " ++ token) = true.
Proof. apply prefix_app. Qed.

Lemma split_single_no_char (sep : ascii) (s : string) :
  split_on sep s = [s] -> no_char sep s = true.
Proof.
  induction s as [|c rest IH]; simpl; [reflexivity|].
  destruct (Ascii.eqb c sep) eqn:Hc.
  - intros Heq. inversion Heq.
  - destruct (split_on sep rest) as [|w ws] eqn:Hs.
    + intros Heq. inversion Heq; subst. reflexivity.
    + intros Heq. inversion Heq; subst. simpl. apply IH. reflexivity.
Qed.

(** ** The reference implementations meet the interfaces *)

Module ReferenceLaws.
Import Reference.

Lemma unbit_bit (b : bool) : unbit (bit b) = Some b.
Proof. destruct b; reflexivity. Qed.

Lemma unbits_bits (s : string) : unbits (bits s) = Some s.
Proof.
  induction s as [|[b0 b1 b2 b3 b4 b5 b6 b7] rest IH]; [reflexivity|].
  cbn [bits unbits]. rewrite !unbit_bit, IH. reflexivity.
Qed.

Lemma bit_other (c : ascii) (b : bool) :
  Ascii.eqb "0" c = false -> Ascii.eqb "1" c = false -> Ascii.eqb (bit b) c = false.
Proof. destruct b; simpl; auto. Qed.

Lemma bits_no_char (c : ascii) (s : string) :
  Ascii.eqb "0" c = false -> Ascii.eqb "1" c = false -> no_char c (bits s) = true.
Proof.
  intros H0 H1.
  induction s as [|[b0 b1 b2 b3 b4 b5 b6 b7] rest IH]; [reflexivity|].
  cbn [bits no_char]. rewrite !bit_other by assumption. exact IH.
Qed.

Lemma unseg_seg (o : option string) : unseg (seg o) = Some o.
Proof.
  destruct o as [s|]; [|reflexivity].
  cbn. rewrite unbits_bits. reflexivity.
Qed.

Lemma unseg_Z_seg_Z (o : option Z) : unseg_Z (seg_Z o) = Some o.
Proof.
  unfold unseg_Z, seg_Z. rewrite unseg_seg.
  destruct o as [z|]; [|reflexivity].
  cbn. rewrite HexString.to_Z_of_Z. reflexivity.
Qed.

Lemma seg_no_char (c : ascii) (o : option string) :
  Ascii.eqb "0" c = false -> Ascii.eqb "1" c = false ->
  Ascii.eqb "n" c = false -> Ascii.eqb "j" c = false ->
  no_char c (seg o) = true.
Proof.
  intros H0 H1 Hn Hj. destruct o as [s|]; cbn [seg no_char].
  - rewrite Hj. apply bits_no_char; assumption.
  - rewrite Hn. reflexivity.
Qed.

Lemma decode_encode (c : claims) (k : string) (now : Z) :
  decode (encode c k) k now = if is_expired c now then inl Expired else inr c.
Proof.
  unfold decode, encode, seg_Z.
  repeat rewrite split_on_app by (apply seg_no_char; reflexivity).
  rewrite split_on_no_char by (apply bits_no_char; reflexivity).
  fold (seg_Z (c_uid c)) (seg_Z (c_id c)) (seg_Z (c_iat c)) (seg_Z (c_exp c)).
  rewrite !unseg_Z_seg_Z, unseg_seg, unbits_bits, String.eqb_refl.
  destruct c; reflexivity.
Qed.

Lemma encode_no_space (c : claims) (k : string) : no_char space (encode c k) = true.
Proof.
  unfold encode, seg_Z.
  repeat (rewrite no_char_app; cbn [no_char];
          rewrite seg_no_char by reflexivity; cbn [andb negb Ascii.eqb]).
  cbn. apply bits_no_char; reflexivity.
Qed.

Lemma encode_compact (c : claims) (k : string) :
  split_on space (encode c k) = [encode c k] /\ encode c k <> "".
Proof.
  split.
  - apply split_on_no_char, encode_no_space.
  - unfold encode, seg_Z, seg. destruct (option_map HexString.of_Z (c_uid c)); discriminate.
Qed.

Lemma verify_hash (salt p : string) : verify p (hash salt p) = true.
Proof.
  unfold verify, hash.
  replace ("$2b$" ++ p ++ "$" ++ salt) with (("$2b$" ++ p ++ "$") ++ salt).
  - apply prefix_app.
  - rewrite !append_assoc. reflexivity.
Qed.

Lemma hash_not_plain (salt p : string) : hash salt p <> p.
Proof.
  intros Heq. apply (f_equal String.length) in Heq.
  unfold hash in Heq. cbn in Heq. rewrite length_append in Heq.
  lia.
Qed.

End ReferenceLaws.

#[export] Instance reference_jwt : JwtLib := {
  jwt_encode := Reference.encode;
  jwt_decode := Reference.decode;
  jwt_decode_encode := ReferenceLaws.decode_encode;
  jwt_encode_compact := ReferenceLaws.encode_compact
}.

#[export] Instance reference_hasher : PasswordHasher := {
  bcrypt_hash := Reference.hash;
  bcrypt_verify := Reference.verify;
  bcrypt_verify_hash := ReferenceLaws.verify_hash;
  bcrypt_hash_not_plain := ReferenceLaws.hash_not_plain
}.

(* ================================================================== *)
(** ** Tokens in the Authorization header *)

Section Tokens.
Context `{JwtLib}.

Lemma token_no_space (c : claims) (k : string) : no_char space (jwt_encode c k) = true.
Proof. apply split_single_no_char, jwt_encode_compact. Qed.

Lemma token_truthy (c : claims) (k : string) : truthy (Some (jwt_encode c k)) = true.
Proof.
  simpl. apply negb_true_iff, String.eqb_neq, jwt_encode_compact.
Qed.

Lemma bearer_token_of (c : claims) (k : string) :
  Express.bearer_token (Some ("Bearer " ++ jwt_encode c k)) = Some (jwt_encode c k).
Proof. apply split_bearer, token_no_space. Qed.

End Tokens.

(* ================================================================== *)
(** ** The Express gate and the unbound secret *)

Section ExpressGate.
Context `{JwtLib} `{PasswordHasher}.
Import Express.

Lemma jwt_secret_unbound : lookup "JWT_SECRET" server_scope = None.
Proof. reflexivity. Qed.

Lemma resolve_unbound (sc : scope) :
  lookup "JWT_SECRET" sc = None ->
  resolve sc "JWT_SECRET" = inl (ReferenceError "JWT_SECRET").
Proof. unfold resolve. intros ->. reflexivity. Qed.

(** Without a binding for the secret the gate answers 401 whatever the
    header: the throw happens inside its [try]. *)
Lemma authMiddleware_unbound (sc : scope) (now : Z) (authorization : option string) :
  lookup "JWT_SECRET" sc = None ->
  authMiddleware sc now authorization =
  Rejected 401
    (error_body (if truthy (bearer_token authorization)
                 then "Authentication failed: Invalid token."
                 else "Authentication failed: No token provided.")).
Proof.
  intros Hsc. unfold authMiddleware.
  rewrite (resolve_unbound sc Hsc).
  destruct (truthy (bearer_token authorization)); reflexivity.
Qed.

(** With the secret bound to a string the gate does what jsonwebtoken
    decides. *)
Lemma authMiddleware_bound (sc : scope) (k : string) (now : Z)
  (authorization : option string) (token : string) :
  lookup "JWT_SECRET" sc = Some (JsString k) ->
  bearer_token authorization = Some token ->
  token <> "" ->
  authMiddleware sc now authorization =
  match jwt_decode token k now with
  | inr decoded => Next decoded
  | inl _ => Rejected 401 (error_body "Authentication failed: Invalid token.")
  end.
Proof.
  intros Hsc Htok Hne. unfold authMiddleware, resolve.
  rewrite Hsc, Htok. simpl.
  apply String.eqb_neq in Hne. rewrite Hne. simpl.
  destruct (jwt_decode token k now); reflexivity.
Qed.

Lemma authMiddleware_no_token (sc : scope) (now : Z) (authorization : option string) :
  truthy (bearer_token authorization) = false ->
  authMiddleware sc now authorization =
  Rejected 401 (error_body "Authentication failed: No token provided.").
Proof. intros Ht. unfold authMiddleware. rewrite Ht. reflexivity. Qed.

(** A rejected request never reaches the handler of a guarded route. *)
Lemma guarded_rejected (sc : scope) (now : Z) (authorization : option string)
  (handler : claims -> response * mysql_db) (db : mysql_db) (s : Z) (b : json) :
  authMiddleware sc now authorization = Rejected s b ->
  guarded sc now authorization handler db = (Sent s b, db).
Proof. unfold guarded. intros ->. reflexivity. Qed.

(** Every guarded route of the program answers 401 and keeps the store. *)
Lemma guarded_server_scope (now : Z) (authorization : option string)
  (handler : claims -> response * mysql_db) (db : mysql_db) :
  exists msg, guarded server_scope now authorization handler db
              = (Sent 401 (error_body msg), db).
Proof.
  eexists. apply guarded_rejected, authMiddleware_unbound, jwt_secret_unbound.
Qed.

(** A login that reaches the signing step with the secret unbound. *)
Lemma login_reaches_sign (sc : scope) (fl : faults) (now : Z) (body : login_body)
  (db : mysql_db) (user : user_row) (rest : list user_row) :
  truthy (login_email body) = true ->
  truthy (login_password body) = true ->
  query_err fl = None ->
  bcrypt_err fl = false ->
  select_users_by_email db (text (login_email body)) = user :: rest ->
  bcrypt_verify (text (login_password body)) (user_password user) = true ->
  login sc fl now body db =
  match resolve sc "JWT_SECRET" with
  | inl e => Thrown e
  | inr secret =>
      match jwt_sign (mkClaims None (Some (user_id user)) (Some (user_email user))
                               None None) secret 3600 now with
      | inl e => Thrown e
      | inr token => Sent 200 (JObj [("message", JStr "Login successful!");
                                     ("token", JStr token)])
      end
  end.
Proof.
  intros He Hp Hq Hb Hsel Hver. unfold login.
  rewrite He, Hp, Hq, Hsel, Hb, Hver. reflexivity.
Qed.

(** No path through [login] answers 200 when the secret is unbound. *)
Lemma login_never_succeeds (sc : scope) (fl : faults) (now : Z) (body : login_body)
  (db : mysql_db) :
  lookup "JWT_SECRET" sc = None ->
  status_of (login sc fl now body db) <> Some 200.
Proof.
  intros Hsc. unfold login. rewrite (resolve_unbound sc Hsc).
  destruct (negb (truthy (login_email body)) || negb (truthy (login_password body)));
    [discriminate|].
  destruct (query_err fl); [discriminate|].
  destruct (select_users_by_email db (text (login_email body))); [discriminate|].
  destruct (bcrypt_err fl || negb (bcrypt_verify (text (login_password body)) (user_password u)));
    discriminate.
Qed.

(** C9. In the Express program [JWT_SECRET] is bound nowhere; so the
    gate answers 401 to every request that bears a token and never calls
    the next handler, a login with correct credentials throws a
    ReferenceError at the signing step instead of returning a token, and
    no login answers 200. *)
Theorem express_jwt_secret_never_defined
  (fl : faults) (now : Z) (body : login_body) (db : mysql_db)
  (user : user_row) (rest : list user_row)
  (Hemail : truthy (login_email body) = true)
  (Hpassword : truthy (login_password body) = true)
  (Hquery : query_err fl = None)
  (Hbcrypt : bcrypt_err fl = false)
  (Hrow : select_users_by_email db (text (login_email body)) = user :: rest)
  (Hmatch : bcrypt_verify (text (login_password body)) (user_password user) = true) :
  lookup "JWT_SECRET" server_scope = None
  /\ (forall now' authorization,
        truthy (bearer_token authorization) = true ->
        authMiddleware server_scope now' authorization
        = Rejected 401 (error_body "Authentication failed: Invalid token."))
  /\ (forall now' authorization decoded,
        authMiddleware server_scope now' authorization <> Next decoded)
  /\ login server_scope fl now body db = Thrown (ReferenceError "JWT_SECRET")
  /\ (forall fl' now' body' db',
        status_of (login server_scope fl' now' body' db') <> Some 200).
Proof.
  split; [reflexivity|]. split; [|split; [|split]].
  - intros now' authorization Ht.
    rewrite (authMiddleware_unbound _ _ _ jwt_secret_unbound), Ht. reflexivity.
  - intros now' authorization decoded.
    rewrite (authMiddleware_unbound _ _ _ jwt_secret_unbound). discriminate.
  - rewrite (login_reaches_sign _ _ _ _ _ _ _ Hemail Hpassword Hquery Hbcrypt Hrow Hmatch).
    reflexivity.
  - intros. apply login_never_succeeds, jwt_secret_unbound.
Qed.

End ExpressGate.

(* ================================================================== *)
(** ** The Flask gate *)

Lemma prefix_split (a s : string) :
  String.prefix a s = true -> exists rest, s = (a ++ rest)%string.
Proof.
  revert s. induction a as [|c a' IH]; intros s Hp.
  - exists s. reflexivity.
  - destruct s as [|d s']; simpl in Hp; [discriminate|].
    destruct (ascii_dec c d) as [->|]; [|discriminate].
    destruct (IH s' Hp) as [rest ->]. exists rest. reflexivity.
Qed.

Lemma split_on_nonempty (sep : ascii) (s : string) : split_on sep s <> [].
Proof.
  destruct s as [|c rest]; simpl; [discriminate|].
  destruct (Ascii.eqb c sep); [discriminate|].
  destruct (split_on sep rest); discriminate.
Qed.

Section FlaskGate.
Context `{JwtLib}.
Variable getenv : string -> option string.
Import Flask.

Local Abbreviation require_auth := (Flask.require_auth getenv).
Local Abbreviation session_token := (Flask.session_token getenv).

Lemma require_auth_missing (view : Z -> response * pg) (authorization : option string)
  (now : Z) (db : pg) :
  String.prefix "Bearer " (header_text authorization) = false ->
  require_auth view authorization now db = (Ok (401, error_body "Missing token"), db).
Proof.
  unfold Flask.require_auth, header_text. intros ->. reflexivity.
Qed.

Lemma require_auth_absent (view : Z -> response * pg) (now : Z) (db : pg) :
  require_auth view None now db = (Ok (401, error_body "Missing token"), db).
Proof. reflexivity. Qed.

(** After the prefix test there always is a second piece. *)
Lemma require_auth_second_piece (h : string) :
  String.prefix "Bearer " h = true ->
  exists token, nth_error (split_on space h) 1 = Some token.
Proof.
  intros Hp. destruct (prefix_split _ _ Hp) as [rest ->].
  change ("Bearer " ++ rest)%string with ("Bearer" ++ String space rest)%string.
  rewrite split_on_app by reflexivity.
  destruct (split_on space rest) as [|w ws] eqn:Hs.
  - exfalso. exact (split_on_nonempty _ _ Hs).
  - exists w. reflexivity.
Qed.

Lemma require_auth_decoded (view : Z -> response * pg) (authorization : option string)
  (now : Z) (db : pg) (token : string) :
  String.prefix "Bearer " (header_text authorization) = true ->
  nth_error (split_on space (header_text authorization)) 1 = Some token ->
  require_auth view authorization now db =
  match jwt_decode token (JWT_SECRET getenv) now with
  | inl _ => (Ok (401, error_body "Invalid token"), db)
  | inr payload =>
      match c_uid payload with
      | None => (Raise (KeyError "uid"), db)
      | Some uid => view uid
      end
  end.
Proof.
  unfold Flask.require_auth, header_text. intros -> ->. reflexivity.
Qed.

(** The four ways a request leaves the gate. *)
Lemma require_auth_cases (view : Z -> response * pg) (authorization : option string)
  (now : Z) (db : pg) :
  require_auth view authorization now db = (Ok (401, error_body "Missing token"), db)
  \/ require_auth view authorization now db = (Ok (401, error_body "Invalid token"), db)
  \/ require_auth view authorization now db = (Raise (KeyError "uid"), db)
  \/ exists uid, require_auth view authorization now db = view uid.
Proof.
  destruct (String.prefix "Bearer " (header_text authorization)) eqn:Hp.
  - destruct (require_auth_second_piece _ Hp) as [token Htok].
    rewrite (require_auth_decoded view authorization now db token Hp Htok).
    destruct (jwt_decode token (JWT_SECRET getenv) now) as [e|payload]; [auto|].
    destruct (c_uid payload) as [uid|]; [|auto].
    right. right. right. exists uid. reflexivity.
  - left. apply require_auth_missing, Hp.
Qed.

(** A header made of a token the library encoded. *)
Lemma require_auth_bearer (view : Z -> response * pg) (c : claims) (k : string)
  (now : Z) (db : pg) :
  require_auth view (Some ("Bearer " ++ jwt_encode c k)%string) now db =
  match jwt_decode (jwt_encode c k) (JWT_SECRET getenv) now with
  | inl _ => (Ok (401, error_body "Invalid token"), db)
  | inr payload =>
      match c_uid payload with
      | None => (Raise (KeyError "uid"), db)
      | Some uid => view uid
      end
  end.
Proof.
  apply require_auth_decoded.
  - apply prefix_bearer.
  - apply split_bearer, token_no_space.
Qed.

Lemma require_auth_session (view : Z -> response * pg) (uid issued now : Z) (db : pg) :
  require_auth view (Some ("Bearer " ++ session_token uid issued)%string) now db =
  if issued + token_lifetime <=? now
  then (Ok (401, error_body "Invalid token"), db)
  else view uid.
Proof.
  unfold Flask.session_token. rewrite require_auth_bearer, jwt_decode_encode.
  unfold is_expired. simpl.
  destruct (issued + token_lifetime <=? now); reflexivity.
Qed.

End FlaskGate.

(** C1. The gates at tokens the library signed.  The Express gate
    answers 401 to a bearer token signed with any secret at all, since
    [JWT_SECRET] is unbound: no token can verify and no handler behind
    the gate can run.  The Flask gate, given a token that verifies but
    has no "uid", neither answers 401 nor runs the view: the KeyError
    leaves it. *)
Theorem auth_gate_divergence `{JwtLib}
  (getenv : string -> option string) (view : Z -> Flask.response * Flask.pg)
  (c : claims) (k : string) (now : Z) (db : Flask.pg)
  (Huid : c_uid c = None) (Hlive : is_expired c now = false) :
  Express.authMiddleware Express.server_scope now
    (Some ("Bearer " ++ jwt_encode c k)%string)
  = Express.Rejected 401 (error_body "Authentication failed: Invalid token.")
  /\ Flask.require_auth getenv view
       (Some ("Bearer " ++ jwt_encode c (Flask.JWT_SECRET getenv))%string) now db
     = (Flask.Raise (Flask.KeyError "uid"), db).
Proof.
  split.
  - rewrite (authMiddleware_unbound _ _ _ jwt_secret_unbound).
    rewrite bearer_token_of, token_truthy. reflexivity.
  - rewrite require_auth_bearer, jwt_decode_encode, Hlive, Huid. reflexivity.
Qed.

(* ================================================================== *)
(** ** Logging in *)

Ltac flask_step :=
  cbn [Flask.store Flask.pending fst snd
       Flask.lg_email Flask.lg_password Flask.su_email Flask.su_username
       Flask.su_password Flask.pf_username Flask.pf_email
       Flask.pb_title Flask.pb_description Flask.pb_category Flask.pb_price
       Flask.pb_image_url Flask.cb_product_id Flask.cb_quantity].

Ltac flask_run :=
  unfold Flask.with_db, Flask.bind, Flask.execute, Flask.lift, Flask.subscript,
         Flask.ret, Flask.raise, Flask.next_fault, Flask.fetchone, Flask.fetchall;
  flask_step.

(** The first three entries of a schedule, case by case. *)
Ltac schedule_cases fl :=
  destruct fl as [|[?|] [|[?|] [|[?|] ?]]].

Lemma rollback_same (db : Flask.pg) : Flask.rollback db db = db.
Proof. destruct db; reflexivity. Qed.

Section FlaskLogin.
Context `{JwtLib} `{PasswordHasher}.
Variable getenv : string -> option string.
Import Flask.

Lemma flask_login_no_user (now : Z) (email : string) (password : field) (db : pg) :
  users_by_email email db = [] ->
  login getenv now [] (mkLogin (Some email) password) db
  = (Ok (401, error_body "Invalid credentials"), db).
Proof.
  intros Hnone. unfold login. flask_run. rewrite Hnone. reflexivity.
Qed.

Lemma flask_login_wrong_password (now : Z) (email password : string) (db : pg)
  (u : user_row) (rest : list user_row) :
  users_by_email email db = u :: rest ->
  bcrypt_verify password (user_password_hash u) = false ->
  login getenv now [] (mkLogin (Some email) (Some password)) db
  = (Ok (401, error_body "Invalid credentials"), db).
Proof.
  intros Hrow Hbad. unfold login. flask_run. rewrite Hrow. cbn. rewrite Hbad.
  reflexivity.
Qed.

Lemma flask_login_no_password (now : Z) (email : string) (db : pg)
  (u : user_row) (rest : list user_row) :
  users_by_email email db = u :: rest ->
  login getenv now [] (mkLogin (Some email) None) db
  = (Raise (KeyError "password"), db).
Proof.
  intros Hrow. unfold login. flask_run. rewrite Hrow. cbn.
  rewrite rollback_same. reflexivity.
Qed.

Lemma flask_login_ok (now : Z) (email password : string) (db : pg)
  (u : user_row) (rest : list user_row) :
  users_by_email email db = u :: rest ->
  bcrypt_verify password (user_password_hash u) = true ->
  login getenv now [] (mkLogin (Some email) (Some password)) db
  = (Ok (200, JObj [("token", JStr (session_token getenv (user_id u) now));
                    ("user", JObj [("id", JNum (user_id u));
                                   ("email", JStr email);
                                   ("username", jopt JStr (user_username u))])]),
     db).
Proof.
  intros Hrow Hok. unfold login. flask_run. rewrite Hrow. cbn. rewrite Hok.
  reflexivity.
Qed.

End FlaskLogin.

Section ExpressLogin.
Context `{JwtLib} `{PasswordHasher}.
Import Express.

Lemma express_login_no_user (sc : scope) (fl : faults) (now : Z)
  (email password : string) (db : mysql_db) :
  email <> "" -> password <> "" -> query_err fl = None ->
  select_users_by_email db email = [] ->
  login sc fl now (mkLogin (Some email) (Some password)) db = invalid_credentials.
Proof.
  intros He Hp Hq Hnone. unfold login. simpl.
  apply String.eqb_neq in He, Hp. rewrite He, Hp, Hq, Hnone. reflexivity.
Qed.

Lemma express_login_wrong_password (sc : scope) (fl : faults) (now : Z)
  (email password : string) (db : mysql_db) (u : user_row) (rest : list user_row) :
  email <> "" -> password <> "" -> query_err fl = None ->
  select_users_by_email db email = u :: rest ->
  bcrypt_err fl = true \/ bcrypt_verify password (user_password u) = false ->
  login sc fl now (mkLogin (Some email) (Some password)) db = invalid_credentials.
Proof.
  intros He Hp Hq Hrow Hbad. unfold login. simpl.
  apply String.eqb_neq in He, Hp. rewrite He, Hp, Hq, Hrow. simpl.
  destruct Hbad as [-> | ->]; [reflexivity|].
  rewrite orb_true_r. reflexivity.
Qed.

(** With the secret bound, [login] issues a token the gate accepts for
    one hour and refuses from then on. *)
Lemma express_login_when_bound (sc : scope) (k : string) (fl : faults) (now now' : Z)
  (body : login_body) (db : mysql_db) (user : user_row) (rest : list user_row) :
  lookup "JWT_SECRET" sc = Some (JsString k) ->
  truthy (login_email body) = true ->
  truthy (login_password body) = true ->
  query_err fl = None ->
  bcrypt_err fl = false ->
  select_users_by_email db (text (login_email body)) = user :: rest ->
  bcrypt_verify (text (login_password body)) (user_password user) = true ->
  let payload := mkClaims None (Some (user_id user)) (Some (user_email user))
                          (Some now) (Some (now + 3600)) in
  login sc fl now body db
  = Sent 200 (JObj [("message", JStr "Login successful!");
                    ("token", JStr (jwt_encode payload k))])
  /\ authMiddleware sc now' (Some ("Bearer " ++ jwt_encode payload k)%string)
     = if now + 3600 <=? now'
       then Rejected 401 (error_body "Authentication failed: Invalid token.")
       else Next payload.
Proof.
  intros Hsc He Hp Hq Hb Hrow Hok payload. split.
  - rewrite (login_reaches_sign _ _ _ _ _ _ _ He Hp Hq Hb Hrow Hok).
    unfold resolve. rewrite Hsc. reflexivity.
  - rewrite (authMiddleware_bound sc k now' _ (jwt_encode payload k) Hsc).
    + rewrite jwt_decode_encode. unfold is_expired. simpl.
      destruct (now + 3600 <=? now'); reflexivity.
    + apply bearer_token_of.
    + apply jwt_encode_compact.
Qed.

End ExpressLogin.

(* ================================================================== *)
(** ** Registering *)

Lemma truthy_some (s : string) : s <> "" -> truthy (Some s) = true.
Proof. intros Hne. simpl. apply negb_true_iff, String.eqb_neq, Hne. Qed.

Lemma truthy_text (f : field) : truthy f = true -> f = Some (text f) /\ text f <> "".
Proof.
  destruct f as [s|]; simpl; [|discriminate].
  intros Ht. apply negb_true_iff, String.eqb_neq in Ht. auto.
Qed.

Section ExpressRegister.
Context `{JwtLib} `{PasswordHasher}.
Import Express.

Lemma register_created (salt : string) (now : Z) (email username password : string)
  (db : mysql_db) :
  email <> "" -> username <> "" -> password <> "" ->
  select_users_by_email db email = [] ->
  register (healthy salt) now (mkRegister (Some email) (Some password) (Some username)) db
  = (Sent 201 (message_body "Registration successful!"),
     mkDb (users db ++ [registered_row db salt now email username password])
          (products db) (users_auto_increment db + 1) (products_auto_increment db)).
Proof.
  intros He Hu Hp Hfresh. unfold register, insert_user. simpl.
  apply String.eqb_neq in He, Hu, Hp. rewrite He, Hu, Hp, Hfresh. reflexivity.
Qed.



(** The row a registration adds is the one a lookup by its email finds. *)
Lemma select_after_register (salt : string) (now : Z) (email username password : string)
  (db : mysql_db) :
  select_users_by_email db email = [] ->
  select_users_by_email
    (mkDb (users db ++ [registered_row db salt now email username password])
          (products db) (users_auto_increment db + 1) (products_auto_increment db))
    email
  = [registered_row db salt now email username password].
Proof.
  unfold select_users_by_email. simpl. intros Hfresh.
  rewrite filter_app, Hfresh. simpl. rewrite String.eqb_refl. reflexivity.
Qed.

(** C5. A valid registration on the Express server is answered 201, and
    the login that follows with the same email and password throws at
    the signing step: no token comes back. *)
Theorem express_register_then_login_throws
  (salt salt' : string) (now now' : Z) (email username password : string)
  (db : mysql_db)
  (Hemail : email <> "") (Husername : username <> "") (Hpassword : password <> "")
  (Hfresh : select_users_by_email db email = []) :
  let signup := register (healthy salt) now
                  (mkRegister (Some email) (Some password) (Some username)) db in
  fst signup = Sent 201 (message_body "Registration successful!")
  /\ login server_scope (healthy salt') now' (mkLogin (Some email) (Some password))
           (snd signup)
     = Thrown (ReferenceError "JWT_SECRET").
Proof.
  cbv zeta. rewrite (register_created salt now email username password db)
    by assumption.
  split; [reflexivity|]. cbn [snd].
  erewrite login_reaches_sign.
  - reflexivity.
  - apply truthy_some, Hemail.
  - apply truthy_some, Hpassword.
  - reflexivity.
  - reflexivity.
  - apply select_after_register, Hfresh.
  - apply bcrypt_verify_hash.
Qed.

End ExpressRegister.

Lemma existsb_filter_nil {A} (f : A -> bool) (l : list A) :
  filter f l = [] -> existsb f l = false.
Proof.
  induction l as [|a l IH]; simpl; [reflexivity|].
  destruct (f a); [discriminate | exact IH].
Qed.

Lemma existsb_filter_cons {A} (f : A -> bool) (l : list A) :
  filter f l <> [] -> existsb f l = true.
Proof.
  induction l as [|a l IH]; simpl; [contradiction|].
  destruct (f a); [reflexivity | exact IH].
Qed.

Section FlaskSignup.
Context `{JwtLib} `{PasswordHasher}.
Variable getenv : string -> option string.
Import Flask.

Lemma signup_created (salt email : string) (username : field) (password : string)
  (db : pg) :
  email <> "" -> password <> "" ->
  users_by_email email db = [] ->
  signup salt [] (mkSignup (Some email) username (Some password)) db
  = (Ok (200, JObj [("message", JStr "User created"); ("id", JNum (users_id_seq db))]),
     signed_up db salt email username password).
Proof.
  intros He Hp Hfresh. unfold signup, insert_user. flask_run. simpl.
  apply String.eqb_neq in He, Hp. rewrite He, Hp. simpl.
  rewrite (existsb_filter_nil _ _ Hfresh). reflexivity.
Qed.

Lemma signup_duplicate (salt email : string) (username : field) (password : string)
  (db : pg) :
  email <> "" -> password <> "" ->
  users_by_email email db <> [] ->
  fst (signup salt [] (mkSignup (Some email) username (Some password)) db)
  = Ok (400, error_body "duplicate key value violates unique constraint")
  /\ same_tables (snd (signup salt [] (mkSignup (Some email) username (Some password)) db)) db.
Proof.
  intros He Hp Hdup. unfold signup, insert_user. flask_run. simpl.
  apply String.eqb_neq in He, Hp. rewrite He, Hp. simpl.
  rewrite (existsb_filter_cons _ _ Hdup). simpl.
  split; [reflexivity|]. repeat split.
Qed.


Lemma users_by_email_signed_up (salt email : string) (username : field)
  (password : string) (db : pg) :
  users_by_email email db = [] ->
  users_by_email email (signed_up db salt email username password)
  = [mkUser (users_id_seq db) email username (bcrypt_hash salt password)].
Proof.
  unfold users_by_email. simpl. intros Hfresh.
  rewrite filter_app, Hfresh. simpl. rewrite String.eqb_refl. reflexivity.
Qed.

(** On the Flask server a signup followed by a login with the same
    email and password returns a token whose subject is the new id. *)
Lemma flask_signup_then_login (salt email : string) (username : field)
  (password : string) (now now' now'' : Z) (db db'' : pg)
  (view : Z -> response * pg) :
  email <> "" -> password <> "" ->
  users_by_email email db = [] ->
  now'' < now' + token_lifetime ->
  let created := signup salt [] (mkSignup (Some email) username (Some password)) db in
  let uid := users_id_seq db in
  fst created = Ok (200, JObj [("message", JStr "User created"); ("id", JNum uid)])
  /\ fst (login getenv now' [] (mkLogin (Some email) (Some password)) (snd created))
     = Ok (200, JObj [("token", JStr (session_token getenv uid now'));
                      ("user", JObj [("id", JNum uid); ("email", JStr email);
                                     ("username", jopt JStr username)])])
  /\ require_auth getenv view (Some ("Bearer " ++ session_token getenv uid now')%string)
                  now'' db''
     = view uid.
Proof.
  intros He Hp Hfresh Hlive. cbv zeta.
  rewrite (signup_created salt email username password db He Hp Hfresh).
  split; [reflexivity|]. cbn [snd fst]. split.
  - rewrite (flask_login_ok getenv now' email password _ _ []
               (users_by_email_signed_up salt email username password db Hfresh)
               (bcrypt_verify_hash _ _)).
    reflexivity.
  - rewrite require_auth_session.
    destruct (Z.leb_spec (now' + token_lifetime) now''); [lia | reflexivity].
Qed.

End FlaskSignup.

(* ================================================================== *)
(** ** Issuing and verifying, signing up, failing to log in *)

(** C2. Issue-then-verify on the two servers.  On Express the login of
    a registered user with the right password throws at [jwt.sign], so
    there is no token to verify.  On Flask the same login returns a
    token which the gate accepts as that user for eight hours and
    answers with 401 from then on. *)
Theorem issue_then_verify_divergence `{JwtLib} `{PasswordHasher}
  (getenv : string -> option string)
  (fl : Express.faults) (now now' : Z) (email password : string)
  (edb : Express.mysql_db) (euser : Express.user_row) (erest : list Express.user_row)
  (fdb fdb' : Flask.pg) (fuser : Flask.user_row) (frest : list Flask.user_row)
  (view : Z -> Flask.response * Flask.pg)
  (Hemail : email <> "") (Hpassword : password <> "")
  (Hquery : Express.query_err fl = None) (Hbcrypt : Express.bcrypt_err fl = false)
  (Herow : Express.select_users_by_email edb email = euser :: erest)
  (Hematch : bcrypt_verify password (Express.user_password euser) = true)
  (Hfrow : Flask.users_by_email email fdb = fuser :: frest)
  (Hfmatch : bcrypt_verify password (Flask.user_password_hash fuser) = true) :
  Express.login Express.server_scope fl now
                (Express.mkLogin (Some email) (Some password)) edb
  = Express.Thrown (Express.ReferenceError "JWT_SECRET")
  /\ fst (Flask.login getenv now [] (Flask.mkLogin (Some email) (Some password)) fdb)
     = Flask.Ok (200, JObj [("token",
                             JStr (Flask.session_token getenv (Flask.user_id fuser) now));
                            ("user", JObj [("id", JNum (Flask.user_id fuser));
                                           ("email", JStr email);
                                           ("username",
                                            jopt JStr (Flask.user_username fuser))])])
  /\ Flask.require_auth getenv view
       (Some ("Bearer " ++ Flask.session_token getenv (Flask.user_id fuser) now)%string)
       now' fdb'
     = if now + Flask.token_lifetime <=? now'
       then (Flask.Ok (401, error_body "Invalid token"), fdb')
       else view (Flask.user_id fuser).
Proof.
  split; [|split].
  - rewrite (login_reaches_sign Express.server_scope fl now _ edb euser erest);
      try assumption; try (apply truthy_some; assumption).
    reflexivity.
  - rewrite (flask_login_ok getenv now email password fdb fuser frest Hfrow Hfmatch).
    reflexivity.
  - apply require_auth_session.
Qed.

(** Failed logins with both fields present look the same on both
    servers, whether the email is unknown or the password is wrong. *)
Lemma login_failures_same_shape `{JwtLib} `{PasswordHasher}
  (getenv : string -> option string) (sc : Express.scope)
  (fl : Express.faults) (now : Z) (email password : string)
  (edb1 edb2 : Express.mysql_db) (euser : Express.user_row) (erest : list Express.user_row)
  (fdb1 fdb2 : Flask.pg) (fuser : Flask.user_row) (frest : list Flask.user_row) :
  email <> "" -> password <> "" -> Express.query_err fl = None ->
  Express.select_users_by_email edb1 email = [] ->
  Express.select_users_by_email edb2 email = euser :: erest ->
  Express.bcrypt_err fl = true
  \/ bcrypt_verify password (Express.user_password euser) = false ->
  Flask.users_by_email email fdb1 = [] ->
  Flask.users_by_email email fdb2 = fuser :: frest ->
  bcrypt_verify password (Flask.user_password_hash fuser) = false ->
  Express.login sc fl now (Express.mkLogin (Some email) (Some password)) edb1
  = Express.Sent 401 (error_body "Invalid credentials.")
  /\ Express.login sc fl now (Express.mkLogin (Some email) (Some password)) edb2
     = Express.Sent 401 (error_body "Invalid credentials.")
  /\ fst (Flask.login getenv now [] (Flask.mkLogin (Some email) (Some password)) fdb1)
     = Flask.Ok (401, error_body "Invalid credentials")
  /\ fst (Flask.login getenv now [] (Flask.mkLogin (Some email) (Some password)) fdb2)
     = Flask.Ok (401, error_body "Invalid credentials").
Proof.
  intros He Hp Hq He1 He2 Hebad Hf1 Hf2 Hfbad. repeat split.
  - apply express_login_no_user; assumption.
  - apply (express_login_wrong_password sc fl now email password edb2 euser erest);
      assumption.
  - rewrite flask_login_no_user by assumption. reflexivity.
  - rewrite (flask_login_wrong_password getenv now email password fdb2 fuser frest)
      by assumption.
    reflexivity.
Qed.

(** C8. A Flask login request that carries an email and no password is
    answered 401 when the email is unknown, and ends in a KeyError (a
    500) when the email is registered: the two failures differ. *)
Theorem flask_login_reveals_registered_email `{JwtLib} `{PasswordHasher}
  (getenv : string -> option string) (now : Z) (email : string)
  (unknown known : Flask.pg) (u : Flask.user_row) (rest : list Flask.user_row)
  (Hunknown : Flask.users_by_email email unknown = [])
  (Hknown : Flask.users_by_email email known = u :: rest) :
  let attempt := Flask.mkLogin (Some email) None in
  fst (Flask.login getenv now [] attempt unknown)
  = Flask.Ok (401, error_body "Invalid credentials")
  /\ fst (Flask.login getenv now [] attempt known) = Flask.Raise (Flask.KeyError "password")
  /\ Flask.status_of (fst (Flask.login getenv now [] attempt unknown)) = 401
  /\ Flask.status_of (fst (Flask.login getenv now [] attempt known)) = 500.
Proof.
  cbv zeta.
  rewrite (flask_login_no_user getenv now email None unknown Hunknown).
  rewrite (flask_login_no_password getenv now email known u rest Hknown).
  repeat split.
Qed.


(* ================================================================== *)
(** ** Ownership of listings *)

Lemma nodup_map_inj {A B} (f : A -> B) (l : list A) (a b : A) :
  NoDup (map f l) -> In a l -> In b l -> f a = f b -> a = b.
Proof.
  induction l as [|x l IH]; simpl; [contradiction|].
  intros Hnd Ha Hb Hf. inversion Hnd as [|y ys Hnotin Hnd']; subst.
  destruct Ha as [-> | Ha], Hb as [-> | Hb].
  - reflexivity.
  - exfalso. apply Hnotin. rewrite Hf. apply in_map, Hb.
  - exfalso. apply Hnotin. rewrite <- Hf. apply in_map, Ha.
  - apply IH; assumption.
Qed.

Lemma filter_nil_iff {A} (f : A -> bool) (l : list A) :
  (forall x, In x l -> f x = false) -> filter f l = [].
Proof.
  induction l as [|a l IH]; simpl; [reflexivity|].
  intros Hall. rewrite (Hall a (or_introl eq_refl)). apply IH.
  intros x Hx. apply Hall. right. exact Hx.
Qed.

Lemma map_unless {A} (f : A -> bool) (g : A -> A) (l : list A) :
  filter f l = [] -> map (fun x => if f x then g x else x) l = l.
Proof.
  induction l as [|a l IH]; simpl; [reflexivity|].
  destruct (f a); [discriminate|]. intros Hnil. rewrite (IH Hnil). reflexivity.
Qed.

Lemma filter_negb_all {A} (f : A -> bool) (l : list A) :
  filter f l = [] -> filter (fun x => negb (f x)) l = l.
Proof.
  induction l as [|a l IH]; simpl; [reflexivity|].
  destruct (f a); [discriminate|]. intros Hnil. simpl. rewrite (IH Hnil). reflexivity.
Qed.

Section Ownership.
Context `{JwtLib}.
Variable getenv : string -> option string.
Import Flask.

(** With unique ids, nobody but the owner addresses the listing. *)
Lemma not_owned (db : pg) (listing : product_row) (other : Z) :
  NoDup (map product_id (products db)) ->
  In listing (products db) ->
  other <> product_owner_id listing ->
  filter (owned_by (product_id listing) other) (products db) = [].
Proof.
  intros Hkey Hin Hother. apply filter_nil_iff. intros p Hp.
  unfold owned_by.
  destruct (product_id p =? product_id listing) eqn:Hid; [|reflexivity].
  apply Z.eqb_eq in Hid.
  rewrite (nodup_map_inj product_id _ p listing Hkey Hp Hin Hid).
  simpl. apply Z.eqb_neq. congruence.
Qed.

Lemma update_listing_noop title description category price image_url pid uid (db : pg) :
  filter (owned_by pid uid) (products db) = [] ->
  update_listing title description category price image_url pid uid db = (inr 0, db).
Proof.
  intros Hnone. unfold update_listing. rewrite Hnone, (map_unless _ _ _ Hnone).
  destruct db; reflexivity.
Qed.

Lemma delete_listing_noop pid uid (db : pg) :
  filter (owned_by pid uid) (products db) = [] ->
  delete_listing pid uid db = (inr 0, db).
Proof.
  intros Hnone. unfold delete_listing.
  rewrite Hnone, (filter_negb_all _ _ Hnone).
  destruct db; reflexivity.
Qed.

(** Whatever the body and the datastore's mood, an update that
    addresses no row changes nothing and answers 404 or 500. *)
Lemma update_product_noop (fl : schedule) (pid : Z) (data : product_body) (uid : Z)
  (db : pg) :
  filter (owned_by pid uid) (products db) = [] ->
  snd (update_product fl pid data uid db) = db
  /\ (status_of (fst (update_product fl pid data uid db)) = 404
      \/ status_of (fst (update_product fl pid data uid db)) = 500).
Proof.
  intros Hnone. unfold update_product. flask_run.
  schedule_cases fl;
    destruct (pb_title data), (pb_category data), (pb_price data);
    flask_step;
    rewrite ?(update_listing_noop _ _ _ _ _ _ _ _ Hnone);
    cbn; rewrite ?rollback_same; auto.
Qed.

Lemma delete_product_noop (fl : schedule) (pid uid : Z) (db : pg) :
  filter (owned_by pid uid) (products db) = [] ->
  snd (delete_product fl pid uid db) = db
  /\ (status_of (fst (delete_product fl pid uid db)) = 200
      \/ status_of (fst (delete_product fl pid uid db)) = 500).
Proof.
  intros Hnone. unfold delete_product. flask_run.
  schedule_cases fl;
    flask_step;
    rewrite ?(delete_listing_noop _ _ _ Hnone);
    cbn; rewrite ?rollback_same; auto.
Qed.

(** A header with no token, or with one the library refuses, gets 401
    from the gate, whatever the view behind it. *)
Lemma require_auth_unauthorized (view : Z -> response * pg)
  (authorization : option string) (now : Z) (db : pg) :
  (forall token, presented authorization = Some token ->
                 exists e, jwt_decode token (JWT_SECRET getenv) now = inl e) ->
  exists msg,
    require_auth getenv view authorization now db = (Ok (401, error_body msg), db).
Proof.
  unfold presented. intros Hbad.
  destruct (String.prefix "Bearer " (header_text authorization)) eqn:Hp.
  - destruct (require_auth_second_piece _ Hp) as [token Htok].
    rewrite (require_auth_decoded getenv view authorization now db token Hp Htok).
    destruct (Hbad token Htok) as [e ->]. eexists. reflexivity.
  - eexists. apply require_auth_missing, Hp.
Qed.

End Ownership.

Section OwnerOnly.
Context `{JwtLib}.
Variable getenv : string -> option string.
Import Flask.

Lemma session_live (view : Z -> response * pg) (uid issued now : Z) (db : pg) :
  now < issued + token_lifetime ->
  require_auth getenv view (Some ("Bearer " ++ session_token getenv uid issued)%string)
               now db
  = view uid.
Proof.
  intros Hlive. rewrite require_auth_session.
  destruct (Z.leb_spec (issued + token_lifetime) now); [lia | reflexivity].
Qed.

Lemma owned_by_owner (p : product_row) :
  owned_by (product_id p) (product_owner_id p) p = true.
Proof. unfold owned_by. rewrite !Z.eqb_refl. reflexivity. Qed.

Lemma rowcount_positive (db : pg) (listing : product_row) :
  In listing (products db) ->
  (Z.of_nat (List.length (filter (owned_by (product_id listing)
                                           (product_owner_id listing))
                                 (products db))) =? 0) = false.
Proof.
  intros Hin. apply Z.eqb_neq.
  assert (Hf : In listing (filter (owned_by (product_id listing)
                                            (product_owner_id listing)) (products db))).
  { apply filter_In. split; [exact Hin | apply owned_by_owner]. }
  destruct (filter _ (products db)); [contradiction | simpl; lia].
Qed.

(** With unique ids, the owner's statement addresses the listing and
    nothing else. *)
Lemma owned_by_key (db : pg) (listing p : product_row) :
  NoDup (map product_id (products db)) ->
  In listing (products db) -> In p (products db) ->
  owned_by (product_id listing) (product_owner_id listing) p
  = (product_id p =? product_id listing).
Proof.
  intros Hkey Hin Hp. unfold owned_by.
  destruct (product_id p =? product_id listing) eqn:Hid; [|reflexivity].
  apply Z.eqb_eq in Hid.
  rewrite (nodup_map_inj product_id _ p listing Hkey Hp Hin Hid).
  apply Z.eqb_refl.
Qed.

Lemma not_owned_by (listing : product_row) (pid other : Z) :
  other <> product_owner_id listing -> owned_by pid other listing = false.
Proof.
  intros Hother. unfold owned_by. apply andb_false_iff. right.
  apply Z.eqb_neq. congruence.
Qed.

(** Whatever id a statement of another user names, the listing is not
    among the rows it addresses. *)
Lemma update_listing_frame (g : product_row -> product_row) (pid other : Z)
  (rows : list product_row) (listing : product_row) :
  In listing rows -> other <> product_owner_id listing ->
  In listing (map (fun p => if owned_by pid other p then g p else p) rows).
Proof.
  intros Hin Hother.
  apply in_map_iff. exists listing. rewrite (not_owned_by listing pid other Hother).
  auto.
Qed.

Lemma delete_listing_frame (pid other : Z) (rows : list product_row)
  (listing : product_row) :
  In listing rows -> other <> product_owner_id listing ->
  In listing (filter (fun p => negb (owned_by pid other p)) rows).
Proof.
  intros Hin Hother.
  apply filter_In. rewrite (not_owned_by listing pid other Hother). auto.
Qed.

Lemma update_product_frame (fl : schedule) (pid : Z) (body : product_body)
  (other : Z) (db : pg) (listing : product_row) :
  In listing (products db) -> other <> product_owner_id listing ->
  In listing (products (snd (update_product fl pid body other db))).
Proof.
  intros Hin Hother.
  unfold update_product. flask_run.
  schedule_cases fl;
    destruct (pb_title body), (pb_category body), (pb_price body);
    flask_step; unfold update_listing; flask_step;
    repeat match goal with
           | |- context [if ?b then _ else _] => destruct b
           end;
    cbn [fst snd store pending products rollback]; try exact Hin;
    apply update_listing_frame; assumption.
Qed.

Lemma delete_product_frame (fl : schedule) (pid other : Z) (db : pg)
  (listing : product_row) :
  In listing (products db) -> other <> product_owner_id listing ->
  In listing (products (snd (delete_product fl pid other db))).
Proof.
  intros Hin Hother.
  unfold delete_product. flask_run.
  schedule_cases fl; flask_step; unfold delete_listing; flask_step;
    cbn [fst snd store pending products rollback]; try exact Hin;
    apply delete_listing_frame; assumption.
Qed.

(** C3. A listing and the tokens of other users.  Whatever id another
    user's update or delete names, and whatever the body and the
    datastore do, the listing stays in the table as it was.  At the
    listing's own id the update is answered 404 "Not found", never 403
    and never 200.  The delete is not: it is answered 200 "Deleted",
    the answer the owner's delete gets and the answer for an id no
    listing has, never 404, since the view does not look at the row
    count as [update_product] does.  The owner's update puts the
    body's fields in the listing and leaves its id, its owner and every
    other row as they were; the owner's delete removes that row and no
    other; a request with no token or a refused one gets 401 and
    changes nothing. *)
Theorem listing_owner_only
  (db : pg) (listing : product_row) (other issued now : Z)
  (title : string) (description : field) (category : string) (price : Z)
  (image_url : field) (unauthorized : option string)
  (Hkey : NoDup (map product_id (products db)))
  (Hin : In listing (products db))
  (Hother : other <> product_owner_id listing)
  (Hlive : now < issued + token_lifetime)
  (Hbad : forall token, presented unauthorized = Some token ->
                        exists e, jwt_decode token (JWT_SECRET getenv) now = inl e) :
  let pid := product_id listing in
  let owner := product_owner_id listing in
  let data := mkProductBody (Some title) description (Some category) (Some price)
                            image_url in
  let bearer uid := Some ("Bearer " ++ session_token getenv uid issued)%string in
  let put auth :=
    require_auth getenv (fun uid => update_product [] pid data uid db) auth now db in
  let delete auth :=
    require_auth getenv (fun uid => delete_product [] pid uid db) auth now db in
  put (bearer other) = (Ok (404, error_body "Not found"), db)
  /\ delete (bearer other) = (Ok (200, message_body "Deleted"), db)
  /\ fst (delete (bearer other)) = fst (delete (bearer owner))
  /\ (forall absent,
        (forall p, In p (products db) -> product_id p <> absent) ->
        delete_product [] absent other db = (Ok (200, message_body "Deleted"), db))
  /\ (forall fl body,
        snd (update_product fl pid body other db) = db
        /\ status_of (fst (update_product fl pid body other db)) <> 403
        /\ status_of (fst (update_product fl pid body other db)) <> 200)
  /\ (forall fl,
        snd (delete_product fl pid other db) = db
        /\ status_of (fst (delete_product fl pid other db)) <> 403
        /\ status_of (fst (delete_product fl pid other db)) <> 404)
  /\ (forall fl any body,
        In listing (products (snd (update_product fl any body other db)))
        /\ In listing (products (snd (delete_product fl any other db))))
  /\ put (bearer owner)
     = (Ok (200, message_body "Updated"),
        mkPg (users db)
             (map (fun p => if product_id p =? pid
                            then mkProduct pid title description category price
                                           image_url owner
                            else p)
                  (products db))
             (cart_items db) (orders db)
             (users_id_seq db) (products_id_seq db) (cart_items_id_seq db)
             (orders_id_seq db))
  /\ delete (bearer owner)
     = (Ok (200, message_body "Deleted"),
        mkPg (users db)
             (filter (fun p => negb (product_id p =? pid)) (products db))
             (cart_items db) (orders db)
             (users_id_seq db) (products_id_seq db) (cart_items_id_seq db)
             (orders_id_seq db))
  /\ (exists msg, put unauthorized = (Ok (401, error_body msg), db))
  /\ (exists msg, delete unauthorized = (Ok (401, error_body msg), db)).
Proof.
  cbv beta zeta.
  pose proof (not_owned db listing other Hkey Hin Hother) as Hnone.
  rewrite !session_live by exact Hlive.
  repeat match goal with |- _ /\ _ => split end.
  - unfold update_product. flask_run.
    rewrite (update_listing_noop _ _ _ _ _ _ _ _ Hnone). reflexivity.
  - unfold delete_product. flask_run.
    rewrite (delete_listing_noop _ _ _ Hnone). reflexivity.
  - unfold delete_product. flask_run. reflexivity.
  - intros absent Habsent.
    assert (Hempty : filter (owned_by absent other) (products db) = []).
    { apply filter_nil_iff. intros p Hp. unfold owned_by.
      apply andb_false_iff. left. apply Z.eqb_neq, Habsent, Hp. }
    unfold delete_product. flask_run.
    rewrite (delete_listing_noop _ _ _ Hempty). reflexivity.
  - intros fl body.
    destruct (update_product_noop fl (product_id listing) body other db Hnone)
      as [Hsame [Hst | Hst]]; rewrite Hst; repeat split; auto; discriminate.
  - intros fl.
    destruct (delete_product_noop fl (product_id listing) other db Hnone)
      as [Hsame [Hst | Hst]]; rewrite Hst; repeat split; auto; discriminate.
  - intros fl any body. split.
    + apply update_product_frame; assumption.
    + apply delete_product_frame; assumption.
  - unfold update_product. flask_run. unfold update_listing. flask_step.
    rewrite (rowcount_positive db listing Hin).
    rewrite (map_ext_in _
               (fun p => if product_id p =? product_id listing
                         then mkProduct (product_id listing) title description category
                                        price image_url (product_owner_id listing)
                         else p)).
    + reflexivity.
    + intros p Hp. rewrite (owned_by_key db listing p Hkey Hin Hp).
      destruct (product_id p =? product_id listing) eqn:Hid; [|reflexivity].
      apply Z.eqb_eq in Hid.
      rewrite (nodup_map_inj product_id _ p listing Hkey Hp Hin Hid). reflexivity.
  - unfold delete_product. flask_run. unfold delete_listing. flask_step.
    rewrite (filter_ext_in _ (fun p => negb (product_id p =? product_id listing))).
    + reflexivity.
    + intros p Hp. rewrite (owned_by_key db listing p Hkey Hin Hp). reflexivity.
  - apply require_auth_unauthorized, Hbad.
  - apply require_auth_unauthorized, Hbad.
Qed.

End OwnerOnly.

(* ================================================================== *)
(** ** Checkout *)

Section Checkout.
Import Flask.

Lemma number_orders_length (next now : Z) (rows : list cart_row) :
  List.length (number_orders next now rows) = List.length rows.
Proof.
  revert next. induction rows as [|c rows IH]; intros next; simpl;
    [reflexivity | now rewrite IH].
Qed.

Lemma number_orders_of (uid v next now : Z) (rows : list cart_row) :
  (forall c, In c rows -> cart_user_id c = uid) ->
  filter (fun o => order_user_id o =? v) (number_orders next now rows)
  = if uid =? v then number_orders next now rows else [].
Proof.
  revert next. induction rows as [|c rows IH]; intros next Hall; simpl.
  - destruct (uid =? v); reflexivity.
  - rewrite (Hall c (or_introl eq_refl)).
    rewrite IH by (intros x Hx; apply Hall; right; exact Hx).
    destruct (uid =? v); reflexivity.
Qed.

Lemma cart_of_owner (uid : Z) (db : pg) :
  forall c, In c (cart_of uid db) -> cart_user_id c = uid.
Proof.
  intros c Hc. apply filter_In in Hc as [_ Hc]. apply Z.eqb_eq, Hc.
Qed.

Lemma filter_after_clear (uid v : Z) (l : list cart_row) :
  filter (fun c => cart_user_id c =? v)
         (filter (fun c => negb (cart_user_id c =? uid)) l)
  = if uid =? v then [] else filter (fun c => cart_user_id c =? v) l.
Proof.
  induction l as [|c l IH]; simpl.
  - destruct (uid =? v); reflexivity.
  - destruct (cart_user_id c =? uid) eqn:Hu; simpl.
    + apply Z.eqb_eq in Hu. rewrite IH, Hu.
      destruct (uid =? v); reflexivity.
    + rewrite IH. destruct (uid =? v) eqn:Huv.
      * apply Z.eqb_eq in Huv. subst v. rewrite Hu. reflexivity.
      * reflexivity.
Qed.

Lemma checked_out_cart (now uid v : Z) (db : pg) :
  cart_of v (checked_out now uid db) = if uid =? v then [] else cart_of v db.
Proof. unfold checked_out, cart_of. simpl. apply filter_after_clear. Qed.

Lemma checked_out_orders (now uid v : Z) (db : pg) :
  orders_of v (checked_out now uid db)
  = (orders_of v db
     ++ if uid =? v then number_orders (orders_id_seq db) now (cart_of uid db) else [])%list.
Proof.
  unfold checked_out, orders_of. simpl. rewrite filter_app.
  rewrite (number_orders_of uid v) by apply cart_of_owner. reflexivity.
Qed.

Lemma same_tables_rollback (before current : pg) :
  same_tables (rollback before current) before.
Proof. repeat split. Qed.

(** What [checkout] does, by the first four entries of the schedule:
    connect, the INSERT, the DELETE, the commit. *)
Lemma checkout_outcome (now : Z) (fl : schedule) (uid : Z) (db : pg) :
  (fst (checkout now fl uid db) = Ok (200, message_body "Order placed")
   /\ snd (checkout now fl uid db) = checked_out now uid db)
  \/ ((exists msg, fst (checkout now fl uid db) = Raise (PgError msg))
      /\ same_tables (snd (checkout now fl uid db)) db).
Proof.
  unfold checkout. flask_run.
  destruct fl as [|[m0|] [|[m1|] [|[m2|] [|[m3|] fl]]]]; cbn;
    try (left; split; reflexivity);
    right; (split; [eexists; reflexivity | repeat split]).
Qed.

(** C4. Checkout is all or nothing.  Either it answers "Order placed",
    the caller's cart is empty and the caller has exactly as many more
    orders as the cart had rows, everybody else's cart and orders being
    as before; or it raises and every table is as it was.  With a
    datastore that does not fail it is the first. *)
Theorem checkout_atomic (now : Z) (fl : schedule) (uid : Z) (db : pg) :
  let after := snd (checkout now fl uid db) in
  ((fst (checkout now fl uid db) = Ok (200, message_body "Order placed")
    /\ cart_of uid after = []
    /\ List.length (orders_of uid after)
       = (List.length (orders_of uid db) + List.length (cart_of uid db))%nat
    /\ (forall v, v <> uid ->
          cart_of v after = cart_of v db /\ orders_of v after = orders_of v db)
    /\ users after = users db /\ products after = products db)
   \/ ((exists msg, fst (checkout now fl uid db) = Raise (PgError msg))
       /\ same_tables after db))
  /\ fst (checkout now [] uid db) = Ok (200, message_body "Order placed").
Proof.
  cbv zeta. split; [|reflexivity].
  destruct (checkout_outcome now fl uid db) as [[Hok Hdb] | Hfail]; [left | right; exact Hfail].
  rewrite Hdb. split; [exact Hok|]. split; [|split; [|split]].
  - rewrite checked_out_cart, Z.eqb_refl. reflexivity.
  - rewrite checked_out_orders, Z.eqb_refl, length_app, number_orders_length.
    reflexivity.
  - intros v Hv. rewrite checked_out_cart, checked_out_orders.
    assert ((uid =? v) = false) as -> by (apply Z.eqb_neq; congruence).
    rewrite app_nil_r. split; reflexivity.
  - split; reflexivity.
Qed.

End Checkout.

(* ================================================================== *)
(** ** Filters of GET /api/products *)

Section ProductFilters.
Import Express.

Lemma products_query_user_id (q user_id : field) :
  truthy user_id = true ->
  products_query q user_id = ("SELECT * FROM products WHERE user_id = ?", [text user_id]).
Proof. unfold products_query. intros ->. reflexivity. Qed.

Lemma products_query_title (q user_id : field) :
  truthy user_id = false -> truthy q = true ->
  products_query q user_id
  = ("SELECT * FROM products WHERE title LIKE ?", ["%" ++ text q ++ "%"]%string).
Proof. unfold products_query. intros -> ->. reflexivity. Qed.

Lemma products_query_all (q user_id : field) :
  truthy user_id = false -> truthy q = false ->
  products_query q user_id = ("SELECT * FROM products", []).
Proof. unfold products_query. intros -> ->. reflexivity. Qed.

(** C10, as the handler has it.  A non-empty [user_id] selects by owner
    and the answer does not depend on [q]; [q] selects by title only
    when [user_id] is absent or empty and [q] is not; with neither (or
    both empty) every product is returned; a statement never has more
    than one filter. *)
Theorem products_query_precedence (fl : faults) (q user_id : field) (db : mysql_db) :
  (truthy user_id = true ->
   products_query q user_id
   = ("SELECT * FROM products WHERE user_id = ?", [text user_id])
   /\ forall q', get_products fl q user_id db = get_products fl q' user_id db)
  /\ (truthy user_id = false -> truthy q = true ->
      products_query q user_id
      = ("SELECT * FROM products WHERE title LIKE ?", ["%" ++ text q ++ "%"]%string))
  /\ (truthy user_id = false -> truthy q = false ->
      products_query q user_id = ("SELECT * FROM products", [])
      /\ (query_err fl = None ->
          get_products fl q user_id db = Sent 200 (JArr (map product_json (products db)))))
  /\ (List.length (snd (products_query q user_id)) <= 1)%nat.
Proof.
  repeat split.
  - apply products_query_user_id; assumption.
  - intros q'. unfold get_products.
    rewrite !products_query_user_id by assumption. reflexivity.
  - apply products_query_title; assumption.
  - apply products_query_all; assumption.
  - intros Hq. unfold get_products.
    rewrite Hq, products_query_all by assumption. reflexivity.
  - unfold products_query.
    destruct (truthy user_id); [simpl; lia|].
    destruct (truthy q); simpl; lia.
Qed.

End ProductFilters.

(* ================================================================== *)
(** ** Stored hashes and their plaintexts *)

Section Derived.
Context `{PasswordHasher}.

Lemma derived_empty (next : Z) : derived [] next [].
Proof.
  repeat split; try (intros; contradiction). constructor.
Qed.

Lemma derived_keep (creds : list (Z * string)) (next next' : Z)
  (origin : list (Z * string)) :
  derived creds next origin -> next <= next' -> derived creds next' origin.
Proof.
  intros (Hc & Hb & Hn) Hle. repeat split; [exact Hc | | exact Hn].
  intros i p Hip. specialize (Hb i p Hip). lia.
Qed.

Lemma derived_add (creds : list (Z * string)) (next : Z) (origin : list (Z * string))
  (salt p : string) :
  derived creds next origin ->
  derived (creds ++ [(next, bcrypt_hash salt p)]) (next + 1) ((next, p) :: origin).
Proof.
  intros (Hc & Hb & Hn). repeat split.
  - intros i h Hin. apply in_app_or in Hin as [Hin | [Heq | []]].
    + destruct (Hc i h Hin) as (s & q & Hq & Hh).
      exists s, q. split; [right; exact Hq | exact Hh].
    + inversion Heq; subst. exists salt, p. split; [left; reflexivity | reflexivity].
  - intros i q [Heq | Hin].
    + inversion Heq; subst. lia.
    + specialize (Hb i q Hin). lia.
  - simpl. constructor; [|exact Hn].
    intros Hin. apply in_map_iff in Hin as ([i q] & Hi & Hin). simpl in Hi. subst i.
    specialize (Hb next q Hin). lia.
Qed.

Lemma nodup_fst_functional {A B} (l : list (A * B)) (a : A) (b b' : B) :
  NoDup (map fst l) -> In (a, b) l -> In (a, b') l -> b = b'.
Proof.
  induction l as [|[x y] l IH]; simpl; [contradiction|].
  intros Hnd Hb Hb'. inversion Hnd as [|z zs Hnotin Hnd']; subst.
  destruct Hb as [Hb | Hb], Hb' as [Hb' | Hb'].
  - congruence.
  - inversion Hb; subst. exfalso. apply Hnotin.
    change a with (fst (a, b')). apply in_map, Hb'.
  - inversion Hb'; subst. exfalso. apply Hnotin.
    change a with (fst (a, b)). apply in_map, Hb.
  - apply IH; assumption.
Qed.

(** What the invariant gives for one stored hash. *)
Lemma derived_sound (creds : list (Z * string)) (next : Z) (origin : list (Z * string))
  (i : Z) (h : string) :
  derived creds next origin -> In (i, h) creds ->
  exists p, In (i, p) origin
            /\ (forall p', In (i, p') origin -> p' = p)
            /\ (exists salt, h = bcrypt_hash salt p)
            /\ h <> p.
Proof.
  intros (Hc & _ & Hn) Hin. destruct (Hc i h Hin) as (salt & p & Hp & Hh).
  exists p. repeat split.
  - exact Hp.
  - intros p' Hp'. apply (nodup_fst_functional origin i p' p Hn Hp' Hp).
  - exists salt. exact Hh.
  - rewrite Hh. apply bcrypt_hash_not_plain.
Qed.

End Derived.

(** Case analysis on an innermost scrutinee of the goal. *)
Ltac break_match :=
  match goal with
  | |- context [match ?x with _ => _ end] =>
      lazymatch x with
      | context [match _ with _ => _ end] => fail
      | _ => destruct x eqn:?
      end
  end.

Section ExpressPasswords.
Context `{JwtLib} `{PasswordHasher}.
Import Express.

Lemma credentials_put (db : mysql_db) (userId : string) (email : string)
  (username : field) (ps : list product_row) (a b : Z) :
  credentials
    (mkDb (map (fun u => if int_matches (Some (user_id u)) userId
                         then mkUser (user_id u) email (user_password u) username
                                     (user_member_since u)
                         else u) (users db)) ps a b)
  = credentials db.
Proof.
  unfold credentials. cbn [users]. rewrite map_map. apply map_ext.
  intros u. destruct (int_matches (Some (user_id u)) userId); reflexivity.
Qed.

Lemma put_user_keeps (fl : faults) (userId : string) (body : profile_body)
  (user : claims) (db : mysql_db) :
  credentials (snd (put_user fl userId body user db)) = credentials db
  /\ users_auto_increment (snd (put_user fl userId body user db))
     = users_auto_increment db.
Proof.
  unfold put_user, update_user.
  repeat (break_match; cbn [snd]); try (split; reflexivity);
    split; [apply credentials_put | reflexivity].
Qed.

Lemma post_products_keeps (fl : faults) (body : product_body) (user : claims)
  (db : mysql_db) :
  credentials (snd (post_products fl body user db)) = credentials db
  /\ users_auto_increment (snd (post_products fl body user db))
     = users_auto_increment db.
Proof.
  unfold post_products. repeat (break_match; cbn [snd]); split; reflexivity.
Qed.

Lemma guarded_keeps (sc : scope) (now : Z) (authorization : option string)
  (handler : claims -> response * mysql_db) (db : mysql_db) :
  (forall user, credentials (snd (handler user)) = credentials db
                /\ users_auto_increment (snd (handler user)) = users_auto_increment db) ->
  credentials (snd (guarded sc now authorization handler db)) = credentials db
  /\ users_auto_increment (snd (guarded sc now authorization handler db))
     = users_auto_increment db.
Proof.
  intros Hh. unfold guarded.
  destruct (authMiddleware sc now authorization); [split; reflexivity | apply Hh].
Qed.

Lemma register_step (cx : context) (body : register_body) (st : mysql_db * list (Z * string)) :
  express_inv st ->
  express_inv (snd (register (env cx) (clock cx) body (fst st)),
               (registered cx (PostRegister body) (fst st) ++ snd st)%list).
Proof.
  unfold express_inv, registered, register, insert_user. cbn [fst snd].
  intros Hinv.
  repeat (break_match; cbn [fst snd app]); try exact Hinv;
    try match goal with
    | Heq : inr _ = inr _ |- _ => inversion Heq; subst; clear Heq
    | Heq : inl _ = inr _ |- _ => discriminate Heq
    | Heq : inr _ = inl _ |- _ => discriminate Heq
    end;
    try match goal with
    | Heq : Sent _ _ = Sent _ _ |- _ => inversion Heq; subst; clear Heq
    end;
    try exact Hinv; try discriminate.
  unfold credentials. cbn [users users_auto_increment]. rewrite map_app.
  apply derived_add. exact Hinv.
Qed.

Lemma express_step (sc : scope) (cx : context) (r : request)
  (st : mysql_db * list (Z * string)) :
  express_inv st ->
  express_inv (snd (serve sc cx r (fst st)), (registered cx r (fst st) ++ snd st)%list).
Proof.
  intros Hinv. destruct r as [body | body | q uid | body | userId | userId body].
  - apply register_step, Hinv.
  - exact Hinv.
  - unfold express_inv, serve. cbn [fst snd registered app].
    destruct (guarded_keeps sc (clock cx) (authorization cx)
                (fun _ => (get_products (env cx) q uid (fst st), fst st)) (fst st))
      as [-> ->]; [split; reflexivity | exact Hinv].
  - unfold express_inv, serve. cbn [fst snd registered app].
    destruct (guarded_keeps sc (clock cx) (authorization cx)
                (fun user => post_products (env cx) body user (fst st)) (fst st))
      as [-> ->]; [intros; apply post_products_keeps | exact Hinv].
  - unfold express_inv, serve. cbn [fst snd registered app].
    destruct (guarded_keeps sc (clock cx) (authorization cx)
                (fun user => (get_user (env cx) userId user (fst st), fst st)) (fst st))
      as [-> ->]; [split; reflexivity | exact Hinv].
  - unfold express_inv, serve. cbn [fst snd registered app].
    destruct (guarded_keeps sc (clock cx) (authorization cx)
                (fun user => put_user (env cx) userId body user (fst st)) (fst st))
      as [-> ->]; [intros; apply put_user_keeps | exact Hinv].
Qed.

Lemma express_run_inv (sc : scope) (history : list (context * request))
  (st : mysql_db * list (Z * string)) :
  express_inv st -> express_inv (run sc history st).
Proof.
  revert st. induction history as [|[cx r] rest IH]; intros st Hinv; simpl.
  - exact Hinv.
  - apply IH. apply (express_step sc cx r st Hinv).
Qed.

End ExpressPasswords.

(* ================================================================== *)
(** ** Response bodies *)

Lemma has_field_array {A} (k : string) (f : A -> json) (l : list A) :
  (forall x, has_field k (f x) = false) -> has_field k (JArr (map f l)) = false.
Proof.
  intros Hf. simpl. induction l as [|a l IH]; simpl; [reflexivity|].
  rewrite Hf, IH. reflexivity.
Qed.

Lemma hides_password_iff (j : json) :
  hides_password j = true <->
  has_field "password" j = false /\ has_field "password_hash" j = false.
Proof.
  unfold hides_password. rewrite andb_true_iff, !negb_true_iff. reflexivity.
Qed.

Lemma hides_array {A} (f : A -> json) (l : list A) :
  (forall x, hides_password (f x) = true) -> hides_password (JArr (map f l)) = true.
Proof.
  intros Hf. apply hides_password_iff.
  split; apply has_field_array; intros x; apply (hides_password_iff (f x)), Hf.
Qed.

Lemma hides_items {A} (f : A -> json) (l : list A) :
  (forall x, hides_password (f x) = true) ->
  hides_password (JObj [("items", JArr (map f l))]) = true.
Proof.
  intros Hf. pose proof (hides_array f l Hf) as Ha.
  apply hides_password_iff in Ha as [Hp Hh].
  apply hides_password_iff.
  change (has_field "password" (JObj [("items", JArr (map f l))]))
    with (("items" =? "password")%string || has_field "password" (JArr (map f l)) || false).
  change (has_field "password_hash" (JObj [("items", JArr (map f l))]))
    with (("items" =? "password_hash")%string
          || has_field "password_hash" (JArr (map f l)) || false).
  rewrite Hp, Hh. split; reflexivity.
Qed.

Lemma hides_error (msg : string) : hides_password (error_body msg) = true.
Proof. reflexivity. Qed.

Lemma hides_message (msg : string) : hides_password (message_body msg) = true.
Proof. reflexivity. Qed.

Section ExpressBodies.
Context `{JwtLib} `{PasswordHasher}.
Import Express.

Lemma hides_product (p : product_row) : hides_password (product_json p) = true.
Proof.
  unfold product_json.
  destruct (product_description p), (product_category p), (product_image_url p),
           (product_user_id p); reflexivity.
Qed.

(** [delete user.password] takes the hash out of the row. *)
Lemma hides_user (u : user_row) :
  hides_password (delete_key "password" (user_json u)) = true.
Proof. unfold user_json. destruct (user_username u); reflexivity. Qed.

Ltac sent_body :=
  let Heq := fresh "Heq" in
  cbn [fst snd body_of]; intros Heq;
  first [ discriminate Heq
        | injection Heq as <-;
          first [ reflexivity | apply hides_user
                | apply hides_array; apply hides_product ] ].

Lemma express_hides (sc : scope) (cx : context) (r : request) (db : mysql_db) (b : json) :
  body_of (fst (serve sc cx r db)) = Some b -> hides_password b = true.
Proof.
  destruct r as [body | body | q uid | body | userId | userId body];
    unfold serve, guarded, authMiddleware.
  - unfold register. repeat break_match; sent_body.
  - unfold login, invalid_credentials. repeat break_match; sent_body.
  - unfold get_products. repeat break_match; sent_body.
  - unfold post_products. repeat break_match; sent_body.
  - unfold get_user. repeat break_match; sent_body.
  - unfold put_user. repeat break_match; sent_body.
Qed.

End ExpressBodies.

(* ================================================================== *)
(** ** Cursor programs: what they keep and what they return *)

Section Cursors.
Import Flask.

#[export] Instance keeps_transactional : Transactional keeps.
Proof.
  split.
  - intros db. split; [reflexivity | lia].
  - intros a b c [Hc1 Hs1] [Hc2 Hs2]. split; [congruence | lia].
  - intros before current [_ Hs]. split; [reflexivity | exact Hs].
Qed.

#[export] Instance grows_transactional : Transactional grows.
Proof.
  split.
  - intros db. split; [auto | lia].
  - intros a b c [Hc1 Hs1] [Hc2 Hs2]. split; [auto | lia].
  - intros before current [_ Hs]. split; [|exact Hs].
    intros [Hnd Hlt]. split; [exact Hnd|].
    intros p Hp. specialize (Hlt p Hp). cbn in *. lia.
Qed.

Section Relation.
Context (R : pg -> pg -> Prop) `{!Transactional R}.

Lemma ck_ret {A} (a : A) : cursor_keeps R (ret a).
Proof. intros c r c' Heq. inversion Heq; subst. apply tx_refl. Qed.

Lemma ck_raise {A} (e : py_exn) : cursor_keeps R (@raise A e).
Proof. intros c r c' Heq. inversion Heq; subst. apply tx_refl. Qed.

Lemma ck_lift {A} (r : py A) : cursor_keeps R (lift r).
Proof. intros c r' c' Heq. inversion Heq; subst. apply tx_refl. Qed.

Lemma ck_bind {A B} (m : cursor A) (k : A -> cursor B) :
  cursor_keeps R m -> (forall a, cursor_keeps R (k a)) -> cursor_keeps R (bind m k).
Proof.
  intros Hm Hk c r c' Heq. unfold bind in Heq.
  destruct (m c) as [[a | e] c1] eqn:Hmc.
  - apply (tx_trans _ (store c1)); [apply (Hm _ _ _ Hmc) | apply (Hk a _ _ _ Heq)].
  - inversion Heq; subst. apply (Hm _ _ _ Hmc).
Qed.

Lemma ck_execute {A} (stmt : pg -> (string + A) * pg) :
  (forall db, R db (snd (stmt db))) -> cursor_keeps R (execute stmt).
Proof.
  intros Hs c r c' Heq. unfold execute, next_fault in Heq.
  destruct (pending c) as [|[msg|] rest].
  - specialize (Hs (store c)). destruct (stmt (store c)) as [[msg | a] db'];
      inversion Heq; subst; exact Hs.
  - inversion Heq; subst. apply tx_refl.
  - specialize (Hs (store c)). destruct (stmt (store c)) as [[msg | a] db'];
      inversion Heq; subst; exact Hs.
Qed.

Lemma with_db_keeps {A} (body : cursor A) (db : pg) (fl : schedule) :
  cursor_keeps R body -> R db (snd (with_db body db fl)).
Proof.
  intros Hb. unfold with_db, next_fault.
  destruct fl as [|[msg|] fl1]; cbn [snd]; try apply tx_refl.
  - destruct (body (mkConn db [])) as [[a | e] c] eqn:Hbody;
      pose proof (Hb _ _ _ Hbody) as Hk; cbn [store] in Hk.
    + destruct (pending c) as [|[msg|] rest]; cbn [snd];
        [exact Hk | apply tx_rollback, Hk | exact Hk].
    + apply tx_rollback, Hk.
  - destruct (body (mkConn db fl1)) as [[a | e] c] eqn:Hbody;
      pose proof (Hb _ _ _ Hbody) as Hk; cbn [store] in Hk.
    + destruct (pending c) as [|[msg|] rest]; cbn [snd];
        [exact Hk | apply tx_rollback, Hk | exact Hk].
    + apply tx_rollback, Hk.
Qed.

End Relation.

Lemma keeps_refl (db : pg) : keeps db db.
Proof. apply tx_refl. Qed.

Lemma cp_ret {A} (Q : A -> Prop) (a : A) : Q a -> cursor_post Q (ret a).
Proof. intros Hq c b c' Heq. inversion Heq; subst. exact Hq. Qed.

Lemma cp_raise {A} (Q : A -> Prop) (e : py_exn) : cursor_post Q (raise e).
Proof. intros c b c' Heq. inversion Heq. Qed.

Lemma cp_bind {A B} (Q : B -> Prop) (m : cursor A) (k : A -> cursor B) :
  (forall a, cursor_post Q (k a)) -> cursor_post Q (bind m k).
Proof.
  intros Hk c b c' Heq. unfold bind in Heq.
  destruct (m c) as [[a | e] c1]; [apply (Hk a _ _ _ Heq) | inversion Heq].
Qed.

Lemma with_db_post {A} (Q : A -> Prop) (body : cursor A) (db : pg) (fl : schedule)
  (a : A) :
  cursor_post Q body -> fst (with_db body db fl) = Ok a -> Q a.
Proof.
  intros Hb. unfold with_db, next_fault.
  destruct fl as [|[msg|] fl1]; cbn [fst]; try discriminate.
  - destruct (body (mkConn db [])) as [[x | e] c] eqn:Hbody; [|discriminate].
    destruct (pending c) as [|[msg|] rest]; cbn [fst]; try discriminate;
      intros Heq; inversion Heq; subst; apply (Hb _ _ _ Hbody).
  - destruct (body (mkConn db fl1)) as [[x | e] c] eqn:Hbody; [|discriminate].
    destruct (pending c) as [|[msg|] rest]; cbn [fst]; try discriminate;
      intros Heq; inversion Heq; subst; apply (Hb _ _ _ Hbody).
Qed.

(** Statements that leave [users] alone. *)
Lemma keeps_users (db db' : pg) :
  users db' = users db -> users_id_seq db' = users_id_seq db -> keeps db db'.
Proof. intros Hu Hs. unfold keeps, credentials. rewrite Hu, Hs. split; [reflexivity | lia]. Qed.

Lemma update_user_keeps (username email : string) (uid : Z) (db : pg) :
  keeps db (snd (update_user username email uid db)).
Proof.
  unfold update_user. break_match; cbn [snd]; [apply keeps_refl|].
  split; [|cbn; lia]. unfold credentials. cbn [users]. rewrite map_map.
  apply map_ext. intros u. destruct (user_id u =? uid); reflexivity.
Qed.

End Cursors.

Ltac cursor_views R statement :=
  repeat first
    [ apply (ck_ret R) | apply (ck_raise R) | apply (ck_lift R)
    | apply (ck_execute R); intros ?; statement
    | apply (ck_bind R); [|intros ?]
    | break_match ].

Ltac keeps_statement :=
  first [ apply update_user_keeps | apply keeps_users; reflexivity ].

Ltac unfold_view :=
  first [ unfold Flask.login | unfold Flask.me | unfold Flask.update_me
        | unfold Flask.list_products | unfold Flask.create_product
        | unfold Flask.update_product | unfold Flask.delete_product
        | unfold Flask.my_listings | unfold Flask.get_cart | unfold Flask.add_cart
        | unfold Flask.remove_cart | unfold Flask.checkout | unfold Flask.orders_view ].

Section FlaskPasswords.
Context `{JwtLib} `{PasswordHasher}.
Variable getenv : string -> option string.
Import Flask.

Lemma flask_inv_keeps (db db' : pg) (origin : list (Z * string)) :
  flask_inv (db, origin) -> keeps db db' -> flask_inv (db', origin).
Proof.
  unfold flask_inv. cbn [fst snd]. intros Hinv [Hc Hs]. rewrite Hc.
  apply (derived_keep _ _ _ _ Hinv Hs).
Qed.

Lemma require_auth_keeps (view : Z -> response * pg) (authorization : option string)
  (now : Z) (db : pg) :
  (forall uid, keeps db (snd (view uid))) ->
  keeps db (snd (require_auth getenv view authorization now db)).
Proof.
  intros Hv.
  destruct (require_auth_cases getenv view authorization now db)
    as [-> | [-> | [-> | [uid ->]]]]; try apply keeps_refl. apply Hv.
Qed.

Lemma views_keep (cx : context) (r : request) (db : pg) :
  (forall salt data, r <> Signup salt data) ->
  keeps db (snd (serve getenv cx r db)) /\ registered cx r db = [].
Proof.
  intros Hr. destruct r; try (exfalso; eapply Hr; reflexivity);
    (split; [|reflexivity]); unfold serve;
    try (apply require_auth_keeps; intros uid);
    unfold_view; apply (with_db_keeps keeps); cursor_views keeps keeps_statement.
Qed.

Lemma signup_step (cx : context) (salt : string) (data : signup_body)
  (st : pg * list (Z * string)) :
  flask_inv st ->
  flask_inv (snd (signup salt (env cx) data (fst st)),
             (registered cx (Signup salt data) (fst st) ++ snd st)%list).
Proof.
  destruct st as [db origin]. unfold flask_inv, registered, signup, insert_user.
  cbn [fst snd]. intros Hinv.
  destruct (negb (truthy (su_email data)) || negb (truthy (su_password data)));
    [exact Hinv|].
  flask_run.
  destruct (existsb (fun u => (user_email u =? text (su_email data))%string) (users db));
    schedule_cases (env cx); cbn [fst snd app store pending];
    try exact Hinv;
    try (apply (derived_keep _ _ _ _ Hinv); cbn; lia);
    unfold credentials; cbn [users users_id_seq]; rewrite map_app;
    apply derived_add; exact Hinv.
Qed.

Lemma flask_step (cx : context) (r : request) (st : pg * list (Z * string)) :
  flask_inv st ->
  flask_inv (snd (serve getenv cx r (fst st)), (registered cx r (fst st) ++ snd st)%list).
Proof.
  intros Hinv.
  assert (Hsign : (exists salt data, r = Signup salt data)
                  \/ forall salt data, r <> Signup salt data).
  { destruct r; try (right; intros; discriminate). left. eauto. }
  destruct Hsign as [(salt & data & ->) | Hother].
  - apply signup_step, Hinv.
  - destruct (views_keep cx r (fst st) Hother) as [Hk ->]. cbn [app].
    destruct st as [db origin]. apply (flask_inv_keeps db _ origin Hinv Hk).
Qed.

Lemma flask_run_inv (history : list (context * request)) (st : pg * list (Z * string)) :
  flask_inv st -> flask_inv (run getenv history st).
Proof.
  revert st. induction history as [|[cx r] rest IH]; intros st Hinv; simpl.
  - exact Hinv.
  - apply IH. apply (flask_step cx r st Hinv).
Qed.

End FlaskPasswords.

Lemma nodup_snoc {A} (l : list A) (x : A) : NoDup l -> ~ In x l -> NoDup (l ++ [x]).
Proof.
  induction l as [|a l IH]; simpl; intros Hnd Hx.
  - constructor; [intros [] | constructor].
  - inversion Hnd as [|b bs Ha Hnd']; subst. constructor.
    + intros Hin. apply in_app_or in Hin as [Hin | [Heq | []]]; [contradiction|].
      apply Hx. left. symmetry. exact Heq.
    + apply IH; [exact Hnd' | intros Hin; apply Hx; right; exact Hin].
Qed.

Lemma nodup_map_filter {A B} (g : A -> B) (f : A -> bool) (l : list A) :
  NoDup (map g l) -> NoDup (map g (filter f l)).
Proof.
  induction l as [|a l IH]; simpl; intros Hnd; [constructor|].
  inversion Hnd as [|b bs Ha Hnd']; subst.
  destruct (f a); simpl; [|apply IH, Hnd'].
  constructor; [|apply IH, Hnd'].
  intros Hin. apply Ha. apply in_map_iff in Hin as (x & Hx & Hin).
  apply filter_In in Hin as [Hin _]. rewrite <- Hx. apply in_map, Hin.
Qed.

Section ListingIds.
Context `{JwtLib} `{PasswordHasher}.
Variable getenv : string -> option string.
Import Flask.

Lemma grows_products (db db' : pg) :
  products db' = products db -> products_id_seq db' = products_id_seq db -> grows db db'.
Proof.
  intros Hp Hs. unfold grows, listing_ids_ok. rewrite Hp, Hs. split; [auto | lia].
Qed.

Lemma insert_product_grows title description category price image_url owner (db : pg) :
  grows db (snd (insert_product title description category price image_url owner db)).
Proof.
  unfold grows, listing_ids_ok, insert_product. cbn [snd products products_id_seq].
  split; [|lia]. intros [Hnd Hlt]. split.
  - rewrite map_app. apply nodup_snoc; [exact Hnd|]. simpl.
    intros Hin. apply in_map_iff in Hin as (p & Hid & Hp).
    specialize (Hlt p Hp). lia.
  - intros p Hp. apply in_app_or in Hp as [Hp | [<- | []]].
    + specialize (Hlt p Hp). lia.
    + simpl. lia.
Qed.

Lemma update_listing_grows title description category price image_url pid uid (db : pg) :
  grows db (snd (update_listing title description category price image_url pid uid db)).
Proof.
  unfold grows, listing_ids_ok, update_listing. cbn [snd products products_id_seq].
  split; [|lia]. intros [Hnd Hlt]. split.
  - rewrite map_map.
    erewrite map_ext; [exact Hnd|].
    intros p. destruct (owned_by pid uid p); reflexivity.
  - intros p Hp. apply in_map_iff in Hp as (p0 & <- & Hp0).
    specialize (Hlt p0 Hp0). destruct (owned_by pid uid p0); exact Hlt.
Qed.

Lemma delete_listing_grows pid uid (db : pg) :
  grows db (snd (delete_listing pid uid db)).
Proof.
  unfold grows, listing_ids_ok, delete_listing. cbn [snd products products_id_seq].
  split; [|lia]. intros [Hnd Hlt]. split.
  - apply nodup_map_filter, Hnd.
  - intros p Hp. apply filter_In in Hp as [Hp _]. apply Hlt, Hp.
Qed.

Ltac grows_statement :=
  first [ apply insert_product_grows | apply update_listing_grows
        | apply delete_listing_grows | apply grows_products; reflexivity
        | unfold update_user; break_match; apply grows_products; reflexivity ].

Lemma require_auth_grows (view : Z -> response * pg) (authorization : option string)
  (now : Z) (db : pg) :
  (forall uid, grows db (snd (view uid))) ->
  grows db (snd (require_auth getenv view authorization now db)).
Proof.
  intros Hv.
  destruct (require_auth_cases getenv view authorization now db)
    as [-> | [-> | [-> | [uid ->]]]]; try apply (tx_refl (R := grows)). apply Hv.
Qed.

Lemma signup_grows (salt : string) (fl : schedule) (data : signup_body) (db : pg) :
  grows db (snd (signup salt fl data db)).
Proof.
  unfold signup. break_match; [apply tx_refl|].
  match goal with
  | |- context [with_db ?body db fl] =>
      assert (Hg : grows db (snd (with_db body db fl)))
  end.
  { apply (with_db_keeps grows). apply (ck_execute grows). intros d.
    unfold insert_user. break_match; apply grows_products; reflexivity. }
  repeat break_match; exact Hg.
Qed.

Lemma serve_grows (cx : context) (r : request) (db : pg) :
  grows db (snd (serve getenv cx r db)).
Proof.
  destruct r; unfold serve;
    try apply signup_grows;
    try (apply require_auth_grows; intros uid);
    unfold_view; apply (with_db_keeps grows); cursor_views grows grows_statement.
Qed.

(** Along any history the listing ids stay pairwise distinct: the
    premise of C3 holds in every store the server can reach. *)
Lemma listing_ids_reachable (history : list (context * request))
  (st : pg * list (Z * string)) :
  listing_ids_ok (fst st) -> listing_ids_ok (fst (run getenv history st)).
Proof.
  revert st. induction history as [|[cx r] rest IH]; intros st Hok; simpl.
  - exact Hok.
  - apply IH. cbn [fst]. apply (serve_grows cx r (fst st)), Hok.
Qed.

Lemma listing_ids_unique (history : list (context * request)) :
  NoDup (map product_id (products (fst (run getenv history (empty_pg, []))))).
Proof.
  apply (listing_ids_reachable history (empty_pg, [])).
  split; [constructor | intros p []].
Qed.

End ListingIds.

Section FlaskBodies.
Context `{JwtLib} `{PasswordHasher}.
Variable getenv : string -> option string.
Import Flask.

Lemma hides_profile (u : user_row) : hides_password (profile_json u) = true.
Proof. unfold profile_json. destruct (user_username u); reflexivity. Qed.

Lemma hides_listing (p : product_row) : hides_password (listing_json p) = true.
Proof.
  unfold listing_json. destruct (product_description p), (product_image_url p);
    reflexivity.
Qed.

Lemma hides_my_listing (p : product_row) : hides_password (my_listing_json p) = true.
Proof. unfold my_listing_json. destruct (product_image_url p); reflexivity. Qed.

Lemma hides_cart (cp : cart_row * product_row) : hides_password (cart_json cp) = true.
Proof. unfold cart_json. destruct (product_image_url (snd cp)); reflexivity. Qed.

Lemma hides_order (op : order_row * product_row) : hides_password (order_json op) = true.
Proof. unfold order_json. destruct (product_image_url (snd op)); reflexivity. Qed.

Ltac body_hides_tac :=
  unfold body_hides, items; cbn [snd];
  first [ reflexivity
        | apply hides_profile
        | apply hides_items;
          first [ apply hides_listing | apply hides_my_listing
                | apply hides_cart | apply hides_order ]
        | unfold profile_json;
          match goal with
          | |- context [jopt JStr ?o] => destruct o; reflexivity
          end ].

Ltac post_views :=
  repeat first
    [ apply cp_raise
    | apply cp_ret; body_hides_tac
    | apply cp_bind; intros ?
    | break_match ].

Lemma body_of_ok (r : response) (b : json) :
  body_of r = Some b -> exists s, r = Ok (s, b).
Proof.
  destruct r as [[s b'] | e]; simpl; intros Heq; inversion Heq; subst; eauto.
Qed.

Lemma require_auth_hides (view : Z -> response * pg) (authorization : option string)
  (now : Z) (db : pg) (b : json) :
  (forall uid s, fst (view uid) = Ok (s, b) -> hides_password b = true) ->
  body_of (fst (require_auth getenv view authorization now db)) = Some b ->
  hides_password b = true.
Proof.
  intros Hv Hb. apply body_of_ok in Hb as [s Hb].
  destruct (require_auth_cases getenv view authorization now db)
    as [Heq | [Heq | [Heq | [uid Heq]]]]; rewrite Heq in Hb; cbn [fst] in Hb.
  - inversion Hb; subst. reflexivity.
  - inversion Hb; subst. reflexivity.
  - discriminate Hb.
  - apply (Hv uid s Hb).
Qed.

Lemma signup_hides (salt : string) (fl : schedule) (data : signup_body) (db : pg)
  (b : json) :
  body_of (fst (signup salt fl data db)) = Some b -> hides_password b = true.
Proof.
  unfold signup.
  repeat break_match; cbn [fst body_of]; intros Heq; inversion Heq; subst; reflexivity.
Qed.

Lemma flask_hides (cx : context) (r : request) (db : pg) (b : json) :
  body_of (fst (serve getenv cx r db)) = Some b -> hides_password b = true.
Proof.
  destruct r; unfold serve.
  1: apply signup_hides.
  1: { intros Hb. apply body_of_ok in Hb as [s Hb]. unfold login in Hb.
       refine (with_db_post body_hides _ _ _ _ _ Hb). post_views. }
  all: apply require_auth_hides; intros uid s Hb;
    first [ unfold me in Hb | unfold update_me in Hb | unfold list_products in Hb
          | unfold create_product in Hb | unfold update_product in Hb
          | unfold delete_product in Hb | unfold my_listings in Hb
          | unfold get_cart in Hb | unfold add_cart in Hb
          | unfold remove_cart in Hb | unfold checkout in Hb
          | unfold orders_view in Hb ];
    refine (with_db_post body_hides _ _ _ _ _ Hb); post_views.
Qed.

End FlaskBodies.

(* ================================================================== *)
(** ** Passwords *)

(** C6. Along any history of requests, on either server, every stored
    password value is the hasher's output on the plaintext that was
    registered for its row, and differs from that plaintext; and no
    response body, in any state, carries a field named [password] or
    [password_hash]. *)
Theorem password_hash_never_plain_never_sent `{JwtLib} `{PasswordHasher}
  (getenv : string -> option string) (sc : Express.scope)
  (ehistory : list (Express.context * Express.request))
  (fhistory : list (Flask.context * Flask.request)) :
  let estate := Express.run sc ehistory (Express.empty_db, []) in
  let fstate := Flask.run getenv fhistory (Flask.empty_pg, []) in
  (forall u, In u (Express.users (fst estate)) ->
     exists p, In (Express.user_id u, p) (snd estate)
               /\ (forall p', In (Express.user_id u, p') (snd estate) -> p' = p)
               /\ (exists salt, Express.user_password u = bcrypt_hash salt p)
               /\ Express.user_password u <> p)
  /\ (forall u, In u (Flask.users (fst fstate)) ->
        exists p, In (Flask.user_id u, p) (snd fstate)
                  /\ (forall p', In (Flask.user_id u, p') (snd fstate) -> p' = p)
                  /\ (exists salt, Flask.user_password_hash u = bcrypt_hash salt p)
                  /\ Flask.user_password_hash u <> p)
  /\ (forall edb cx r b,
        Express.body_of (fst (Express.serve sc cx r edb)) = Some b ->
        hides_password b = true)
  /\ (forall fdb cx r b,
        Flask.body_of (fst (Flask.serve getenv cx r fdb)) = Some b ->
        hides_password b = true).
Proof.
  cbv zeta. split; [|split; [|split]].
  - intros u Hu.
    apply (derived_sound _ _ _ _ _
             (express_run_inv sc ehistory (Express.empty_db, [])
                              (derived_empty _))).
    unfold Express.credentials.
    change (Express.user_id u, Express.user_password u)
      with ((fun v => (Express.user_id v, Express.user_password v)) u).
    apply in_map, Hu.
  - intros u Hu.
    apply (derived_sound _ _ _ _ _
             (flask_run_inv getenv fhistory (Flask.empty_pg, [])
                            (derived_empty _))).
    unfold Flask.credentials.
    change (Flask.user_id u, Flask.user_password_hash u)
      with ((fun v => (Flask.user_id v, Flask.user_password_hash v)) u).
    apply in_map, Hu.
  - intros edb cx r b. apply express_hides.
  - intros fdb cx r b. apply flask_hides.
Qed.

(* ================================================================== *)
(** * Further properties of the two servers and their clients *)

(** ** The Express routes behind the gate *)

Section ExpressRoutes.
Context `{JwtLib} `{PasswordHasher}.
Import Express.

Lemma register_appends (fl : faults) (now : Z) (body : register_body) (db : mysql_db) :
  products (snd (register fl now body db)) = products db
  /\ exists added, users (snd (register fl now body db)) = (users db ++ added)%list.
Proof.
  unfold register, insert_user. cbv zeta.
  repeat (break_match; cbn [snd]);
    try match goal with
    | Heq : inr _ = inr _ |- _ => inversion Heq; subst; clear Heq
    | Heq : inl _ = inr _ |- _ => discriminate Heq
    | Heq : inr _ = inl _ |- _ => discriminate Heq
    end;
    cbn [users products];
    (split; [reflexivity|]);
    first [ exists []; rewrite app_nil_r; reflexivity | eexists; reflexivity ].
Qed.

Lemma serve_unbound (cx : context) (r : request) (db : mysql_db) :
  products (snd (serve server_scope cx r db)) = products db
  /\ exists added, users (snd (serve server_scope cx r db)) = (users db ++ added)%list.
Proof.
  destruct r as [body | body | q uid | body | userId | userId body]; unfold serve.
  1: apply register_appends.
  1: cbn [snd]; split; [reflexivity | exists []; rewrite app_nil_r; reflexivity].
  all: match goal with
       | |- context [guarded server_scope ?n ?a ?h ?d] =>
           destruct (guarded_server_scope n a h d) as [msg ->]
       end;
       cbn [snd]; split; [reflexivity | exists []; rewrite app_nil_r; reflexivity].
Qed.

(** X1. In the Express program as written every route behind
    authMiddleware answers 401 and leaves the store alone, so along any
    history of requests the products table is what it was at the start
    and the users table only gains rows at its end. *)
Theorem express_store_only_gains_users
  (history : list (context * request)) (st : mysql_db * list (Z * string)) :
  (forall cx r db,
     (forall body, r <> PostRegister body) -> (forall body, r <> PostLogin body) ->
     exists msg, serve server_scope cx r db = (Sent 401 (error_body msg), db))
  /\ products (fst (run server_scope history st)) = products (fst st)
  /\ exists added,
       users (fst (run server_scope history st)) = (users (fst st) ++ added)%list.
Proof.
  split.
  - intros cx r db Hreg Hlog.
    destruct r as [body | body | q uid | body | userId | userId body];
      try (exfalso; eapply Hreg; reflexivity);
      try (exfalso; eapply Hlog; reflexivity);
      unfold serve; apply guarded_server_scope.
  - revert st. induction history as [|[cx r] rest IH]; intros st.
    + simpl. split; [reflexivity | exists []; rewrite app_nil_r; reflexivity].
    + simpl. destruct (IH (snd (serve server_scope cx r (fst st)),
                           (registered cx r (fst st) ++ snd st)%list))
        as [Hp [added Hu]].
      cbn [fst] in Hp, Hu.
      destruct (serve_unbound cx r (fst st)) as [Hp1 [added1 Hu1]].
      split; [congruence|].
      exists (added1 ++ added)%list. rewrite Hu, Hu1, app_assoc. reflexivity.
Qed.

(** What [int_matches] says of a parameter that is a number's decimal
    form. *)
Lemma to_int_not_nil (z : Z) :
  Z.to_int z <> Decimal.Pos Decimal.Nil /\ Z.to_int z <> Decimal.Neg Decimal.Nil.
Proof.
  destruct z as [|p|p]; simpl; split; try discriminate;
    intros Heq; inversion Heq as [Hnil]; exact (Unsigned.to_uint_nonnil p Hnil).
Qed.

Lemma int_matches_decimal (z id : Z) :
  int_matches (Some z) (Z_to_string id) = (z =? id).
Proof.
  unfold int_matches, Z_to_string.
  destruct (to_int_not_nil id) as [Hp Hn].
  rewrite (NilZero.isi _ Hp Hn), DecimalZ.of_to. reflexivity.
Qed.

Lemma select_users_by_decimal (db : mysql_db) (id : Z) :
  select_users_by_id db (Z_to_string id) = filter (fun u => user_id u =? id) (users db).
Proof.
  unfold select_users_by_id. apply filter_ext. intros u. apply int_matches_decimal.
Qed.

Lemma hidden_password (u : user_row) :
  delete_key "password" (user_json u) = public_user_json u.
Proof. reflexivity. Qed.

(** X2. GET and PUT /api/users/:userId compare the path parameter, as
    text, with the decimal form of the caller's id: any other text (the
    id with a leading zero included) is answered 403 and changes
    nothing; the caller's own id gives the caller's row without its
    password, or 404 when the row is gone; a token without an id makes
    the handler throw while the router is calling it, which Express
    answers with 500 and no JSON body, the store staying as it was. *)
Theorem own_profile_only (fl : faults) (userId : string) (body : profile_body)
  (user : claims) (id : Z) (db : mysql_db)
  (Hid : c_id user = Some id) (Hquery : query_err fl = None) :
  (userId <> Z_to_string id ->
   get_user fl userId user db
   = Sent 403 (error_body "Forbidden: You can only access your own data.")
   /\ put_user fl userId body user db
      = (Sent 403 (error_body "Forbidden: You can only update your own data."), db))
  /\ get_user fl (Z_to_string id) user db
     = match filter (fun u => user_id u =? id) (users db) with
       | [] => Sent 404 (error_body "User not found.")
       | row :: _ => Sent 200 (public_user_json row)
       end
  /\ (forall anonymous, c_id anonymous = None ->
        status_of (get_user fl userId anonymous db) = Some 500
        /\ body_of (get_user fl userId anonymous db) = None
        /\ put_user fl userId body anonymous db
           = (Failed (TypeError "Cannot read properties of undefined (reading 'toString')"),
              db)).
Proof.
  split; [|split].
  - intros Hne. unfold get_user, put_user. rewrite Hid.
    assert ((Z_to_string id =? userId)%string = false) as ->
      by (apply String.eqb_neq; congruence).
    split; reflexivity.
  - unfold get_user. rewrite Hid, String.eqb_refl, Hquery, select_users_by_decimal.
    cbn [negb]. destruct (filter _ (users db)); [reflexivity|].
    rewrite hidden_password. reflexivity.
  - intros anonymous Hnone. unfold get_user, put_user. rewrite Hnone.
    repeat split; reflexivity.
Qed.

(** X3. POST /api/products refuses a body whose title or category is
    missing or empty, or whose price is missing or 0, with 400 and no
    change; otherwise it answers 201 and appends one row that carries
    the fields of the body, the next AUTO_INCREMENT id and the id of
    the caller's token, leaving every user row and every older product
    as it was. *)
Theorem post_products_appends (fl : faults) (body : product_body) (user : claims)
  (db : mysql_db) (Hquery : query_err fl = None) :
  (truthy (pb_title body) = false \/ truthy (pb_category body) = false
   \/ pb_price body = None \/ pb_price body = Some 0 ->
   post_products fl body user db
   = (Sent 400 (error_body "Title, category, and price are required."), db))
  /\ (forall title category price,
        pb_title body = Some title -> title <> "" ->
        pb_category body = Some category -> category <> "" ->
        pb_price body = Some price -> price <> 0 ->
        fst (post_products fl body user db)
        = Sent 201 (message_body "Product added successfully!")
        /\ products (snd (post_products fl body user db))
           = (products db
              ++ [mkProduct (products_auto_increment db) title (pb_description body)
                            (Some category) price (pb_image_url body) (c_id user)])%list
        /\ users (snd (post_products fl body user db)) = users db
        /\ products_auto_increment (snd (post_products fl body user db))
           = products_auto_increment db + 1).
Proof.
  split.
  - intros Hbad. unfold post_products.
    destruct Hbad as [-> | [-> | [-> | ->]]]; cbn; rewrite ?orb_true_r; reflexivity.
  - intros title category price Ht Htne Hc Hcne Hp Hpne. unfold post_products.
    rewrite Ht, Hc, Hp, Hquery. cbn.
    apply String.eqb_neq in Htne, Hcne. rewrite Htne, Hcne.
    apply Z.eqb_neq in Hpne. rewrite Hpne. cbn. repeat split.
Qed.

End ExpressRoutes.

(** ** Keys of the Express users table *)

Lemma nodup_map_update {A B C} (key : A -> B) (val : A -> C) (m : A -> bool)
  (g : A -> A) (h : B) (e : C) (l : list A) :
  NoDup (map key l) -> NoDup (map val l) ->
  (forall u, key (g u) = key u) ->
  (forall u, m u = true -> val (g u) = e) ->
  (forall u, In u l -> m u = true -> key u = h) ->
  (forall u, In u l -> val u = e -> key u = h) ->
  NoDup (map val (map (fun u => if m u then g u else u) l)).
Proof.
  intros Hk Hv Hg He Hm Hval.
  induction l as [|a l IH]; simpl; [constructor|].
  inversion Hk as [|x xs Hka Hk']; inversion Hv as [|y ys Hva Hv']; subst.
  constructor.
  - intros Hin. apply in_map_iff in Hin as (b' & Hb' & Hin).
    apply in_map_iff in Hin as (b & <- & Hb).
    assert (Hkab : key a <> key b).
    { intros Heq. apply Hka. rewrite Heq. apply in_map, Hb. }
    destruct (m a) eqn:Hma, (m b) eqn:Hmb.
    + apply Hkab. rewrite (Hm a (or_introl eq_refl) Hma), (Hm b (or_intror Hb) Hmb).
      reflexivity.
    + rewrite (He a Hma) in Hb'. apply Hkab.
      rewrite (Hm a (or_introl eq_refl) Hma), (Hval b (or_intror Hb) Hb'). reflexivity.
    + rewrite (He b Hmb) in Hb'. apply Hkab.
      rewrite (Hm b (or_intror Hb) Hmb), (Hval a (or_introl eq_refl) (eq_sym Hb')).
      reflexivity.
    + apply Hva. rewrite <- Hb'. apply in_map, Hb.
  - apply IH; try assumption; intros u Hu; [apply Hm | apply Hval]; right; exact Hu.
Qed.

Section ExpressKeys.
Context `{JwtLib} `{PasswordHasher}.
Import Express.

Lemma int_matches_value (z : Z) (param : string) :
  int_matches (Some z) param = true ->
  exists d, NilZero.int_of_string param = Some d /\ z = Z.of_int d.
Proof.
  unfold int_matches. destruct (NilZero.int_of_string param) as [d|]; [|discriminate].
  intros Heq. apply Z.eqb_eq in Heq. eauto.
Qed.

Lemma update_user_ok (db db' : mysql_db) (userId : string) (body : profile_body) (n : Z) :
  store_ok db -> update_user db userId body = inr (n, db') -> store_ok db'.
Proof.
  intros (Hemail & Hids & Hlt). unfold update_user.
  destruct (select_users_by_id db userId) as [|hit rest] eqn:Hsel.
  - intros Heq. inversion Heq; subst. repeat split; assumption.
  - destruct (pf_email body) as [email|]; [|discriminate].
    destruct (existsb _ (users db)) eqn:Hdup; [discriminate|].
    intros Heq. inversion Heq; subst; clear Heq.
    assert (Hhit : int_matches (Some (user_id hit)) userId = true).
    { assert (Hin : In hit (select_users_by_id db userId)) by (rewrite Hsel; left; reflexivity).
      apply filter_In in Hin as [_ Hm]. exact Hm. }
    apply int_matches_value in Hhit as (d & Hd & Hhid).
    repeat split; cbn [users users_auto_increment].
    + apply (nodup_map_update user_id user_email _ _ (user_id hit) email);
        try assumption; try reflexivity.
      * intros u _ Hm. apply int_matches_value in Hm as (d' & Hd' & Hu). congruence.
      * intros u Hu He.
        destruct (user_id u =? user_id hit) eqn:Hsame; [apply Z.eqb_eq, Hsame|].
        exfalso.
        assert (Hex : existsb (fun u0 => (user_email u0 =? email)%string
                                         && negb (user_id u0 =? user_id hit)) (users db) = true).
        { apply existsb_exists. exists u. split; [exact Hu|].
          rewrite He, String.eqb_refl, Hsame. reflexivity. }
        congruence.
    + rewrite map_map. erewrite map_ext; [exact Hids|].
      intros u. cbv beta. repeat break_match; reflexivity.
    + intros u Hu. apply in_map_iff in Hu as (u0 & <- & Hu0).
      specialize (Hlt u0 Hu0). repeat break_match; exact Hlt.
Qed.

Lemma put_user_ok (fl : faults) (userId : string) (body : profile_body)
  (user : claims) (db : mysql_db) :
  store_ok db -> store_ok (snd (put_user fl userId body user db)).
Proof.
  intros Hok. unfold put_user.
  destruct (c_id user); [|exact Hok].
  destruct (negb _); [exact Hok|].
  destruct (query_err fl); [exact Hok|].
  destruct (update_user db userId body) as [code | [n db']] eqn:Hup; [exact Hok|].
  destruct (n =? 0); [exact Hok|].
  apply (update_user_ok db db' userId body n Hok Hup).
Qed.

Lemma register_ok (fl : faults) (now : Z) (body : register_body) (db : mysql_db) :
  store_ok db -> store_ok (snd (register fl now body db)).
Proof.
  intros (Hemail & Hids & Hlt). unfold register. cbv zeta.
  destruct (_ || _); [repeat split; assumption|].
  destruct (bcrypt_err fl); [repeat split; assumption|].
  destruct (query_err fl) as [code|].
  { destruct (code =? "ER_DUP_ENTRY")%string; repeat split; assumption. }
  unfold insert_user.
  destruct (select_users_by_email db (text (reg_email body))) eqn:Hsel;
    [|cbn; repeat split; assumption].
  cbn [snd]. unfold store_ok. cbn [users users_auto_increment]. repeat split.
  - rewrite map_app. apply nodup_snoc; [exact Hemail|]. simpl.
    intros Hin. apply in_map_iff in Hin as (u & Hu & Hin).
    assert (Hf : In u (select_users_by_email db (text (reg_email body)))).
    { apply filter_In. split; [exact Hin | apply String.eqb_eq, Hu]. }
    rewrite Hsel in Hf. exact Hf.
  - rewrite map_app. apply nodup_snoc; [exact Hids|]. simpl.
    intros Hin. apply in_map_iff in Hin as (u & Hu & Hin).
    specialize (Hlt u Hin). lia.
  - intros u Hu. apply in_app_or in Hu as [Hu | [<- | []]].
    + specialize (Hlt u Hu). lia.
    + simpl. lia.
Qed.

Lemma serve_ok (sc : scope) (cx : context) (r : request) (db : mysql_db) :
  store_ok db -> store_ok (snd (serve sc cx r db)).
Proof.
  intros Hok.
  destruct r as [body | body | q uid | body | userId | userId body]; unfold serve;
    try (apply register_ok, Hok); try exact Hok;
    unfold guarded; destruct (authMiddleware sc (clock cx) (authorization cx));
    try exact Hok.
  - unfold post_products. repeat break_match; exact Hok.
  - apply put_user_ok, Hok.
Qed.

(** X4. Whatever the scope binds, along any history of requests the
    users table of the Express server keeps its keys: no two rows share
    an email or an id, whether rows come from registrations or emails
    are changed by PUT /api/users/:userId. *)
Theorem express_users_keys (sc : scope) (history : list (context * request)) :
  let db := fst (run sc history (empty_db, [])) in
  store_ok db
  /\ forall u v, In u (users db) -> In v (users db) ->
                 user_email u = user_email v \/ user_id u = user_id v -> u = v.
Proof.
  cbv zeta.
  assert (Hrun : forall st, store_ok (fst st) -> store_ok (fst (run sc history st))).
  { induction history as [|[cx r] rest IH]; intros st Hok; simpl; [exact Hok|].
    apply IH. cbn [fst]. apply serve_ok, Hok. }
  assert (Hok : store_ok (fst (run sc history (empty_db, [])))).
  { apply Hrun. repeat split; try constructor. intros u []. }
  split; [exact Hok|].
  destruct Hok as (Hemail & Hids & _).
  intros u v Hu Hv [Heq | Heq].
  - apply (nodup_map_inj user_email _ u v Hemail Hu Hv Heq).
  - apply (nodup_map_inj user_id _ u v Hids Hu Hv Heq).
Qed.

(** X5. PUT /api/users/:userId by the row's owner, with an email no
    other row has, answers 200, rewrites the username and email of the
    rows with that id and of no other, and leaves every id, stored
    password and creation time as it was; a missing email or an email
    another row has is answered 500 with nothing changed. *)
Theorem put_user_rewrites_own_row (fl : faults) (username : field) (email : string)
  (user : claims) (id : Z) (db : mysql_db) (row : user_row) (rest : list user_row)
  (Hid : c_id user = Some id) (Hquery : query_err fl = None)
  (Hrow : filter (fun u => user_id u =? id) (users db) = row :: rest)
  (Hfree : forall u, In u (users db) -> user_email u = email -> user_id u = id) :
  let rewritten u :=
    if user_id u =? id
    then mkUser (user_id u) email (user_password u) username (user_member_since u)
    else u in
  put_user fl (Z_to_string id) (mkProfile username (Some email)) user db
  = (Sent 200 (message_body "User updated successfully!"),
     mkDb (map rewritten (users db)) (products db)
          (users_auto_increment db) (products_auto_increment db))
  /\ put_user fl (Z_to_string id) (mkProfile username None) user db
     = (Sent 500 (error_body "Failed to update user data."), db)
  /\ (forall taken other,
        In other (users db) -> user_email other = taken -> user_id other <> id ->
        put_user fl (Z_to_string id) (mkProfile username (Some taken)) user db
        = (Sent 500 (error_body "Failed to update user data."), db)).
Proof.
  cbv zeta.
  assert (Hrid : user_id row = id).
  { assert (Hin : In row (filter (fun u => user_id u =? id) (users db)))
      by (rewrite Hrow; left; reflexivity).
    apply filter_In in Hin as [_ Hm]. apply Z.eqb_eq, Hm. }
  split; [|split].
  - unfold put_user, update_user.
    rewrite Hid, String.eqb_refl, Hquery, select_users_by_decimal, Hrow.
    cbn [negb pf_email pf_username].
    assert (existsb (fun u => (user_email u =? email)%string
                              && negb (user_id u =? user_id row)) (users db) = false) as ->.
    { apply not_true_is_false. intros Hex.
      apply existsb_exists in Hex as (u & Hu & Hc).
      apply andb_prop in Hc as [He Hn]. apply String.eqb_eq in He.
      rewrite Hrid, (Hfree u Hu He), Z.eqb_refl in Hn. discriminate. }
    assert ((Z.of_nat (Datatypes.length (row :: rest)) =? 0) = false) as ->
      by (apply Z.eqb_neq; simpl Datatypes.length; lia).
    f_equal. f_equal. apply map_ext. intros u. rewrite int_matches_decimal. reflexivity.
  - unfold put_user, update_user.
    rewrite Hid, String.eqb_refl, Hquery, select_users_by_decimal, Hrow. reflexivity.
  - intros taken other Hother Htaken Hne. unfold put_user, update_user.
    rewrite Hid, String.eqb_refl, Hquery, select_users_by_decimal, Hrow.
    cbn [negb pf_email].
    assert (existsb (fun u => (user_email u =? taken)%string
                              && negb (user_id u =? user_id row)) (users db) = true) as ->.
    { apply existsb_exists. exists other. split; [exact Hother|].
      rewrite Htaken, String.eqb_refl, Hrid.
      apply Z.eqb_neq in Hne. rewrite Hne. reflexivity. }
    reflexivity.
Qed.

End ExpressKeys.

(** ** The scheme word of the Authorization header *)

Lemma not_bearer_prefix (w t : string) :
  no_char space w = true -> w <> "Bearer" ->
  String.prefix "Bearer " (w ++ String space t) = false.
Proof.
  intros Hw Hne. apply not_true_is_false. intros Hp.
  destruct (prefix_split _ _ Hp) as [r Hr].
  apply (f_equal (split_on space)) in Hr.
  change ("Bearer " ++ r)%string with ("Bearer" ++ String space r)%string in Hr.
  rewrite !split_on_app in Hr by (assumption || reflexivity).
  inversion Hr. contradiction.
Qed.

(** X6. The Express gate takes the second space-separated piece of the
    header as the token, whatever the first piece says and whatever
    follows a second space; a header with no space carries no token.
    The Flask gate insists on the exact prefix "Bearer ": the same
    valid token under any other scheme word is answered 401 "Missing
    token". *)
Theorem scheme_word_handling `{JwtLib}
  (getenv : string -> option string) (sc : Express.scope) (k : string)
  (view : Z -> Flask.response * Flask.pg) (w rest : string) (c : claims)
  (now : Z) (db : Flask.pg)
  (Hw : no_char space w = true) (Hscheme : w <> "Bearer")
  (Hbound : Express.lookup "JWT_SECRET" sc = Some (Express.JsString k))
  (Hlive : is_expired c now = false) :
  Express.bearer_token (Some (w ++ " " ++ jwt_encode c k)%string) = Some (jwt_encode c k)
  /\ Express.bearer_token (Some (w ++ " " ++ jwt_encode c k ++ " " ++ rest)%string)
     = Some (jwt_encode c k)
  /\ Express.bearer_token (Some w) = None
  /\ Express.authMiddleware sc now (Some (w ++ " " ++ jwt_encode c k ++ " " ++ rest)%string)
     = Express.Next c
  /\ Express.authMiddleware sc now (Some w)
     = Express.Rejected 401 (error_body "Authentication failed: No token provided.")
  /\ Flask.require_auth getenv view
       (Some (w ++ " " ++ jwt_encode c (Flask.JWT_SECRET getenv))%string) now db
     = (Flask.Ok (401, error_body "Missing token"), db).
Proof.
  assert (Hone : Express.bearer_token (Some (w ++ " " ++ jwt_encode c k)%string)
                 = Some (jwt_encode c k)).
  { unfold Express.bearer_token.
    change (w ++ " " ++ jwt_encode c k)%string with (w ++ String space (jwt_encode c k))%string.
    rewrite split_on_app by exact Hw.
    rewrite (split_on_no_char _ _ (token_no_space c k)). reflexivity. }
  assert (Htwo : Express.bearer_token
                   (Some (w ++ " " ++ jwt_encode c k ++ " " ++ rest)%string)
                 = Some (jwt_encode c k)).
  { unfold Express.bearer_token.
    change (w ++ " " ++ jwt_encode c k ++ " " ++ rest)%string
      with (w ++ String space (jwt_encode c k ++ String space rest))%string.
    rewrite split_on_app by exact Hw.
    rewrite split_on_app by apply token_no_space. reflexivity. }
  assert (Hnone : Express.bearer_token (Some w) = None).
  { unfold Express.bearer_token. rewrite (split_on_no_char _ _ Hw). reflexivity. }
  repeat split; try assumption.
  - rewrite (authMiddleware_bound sc k now _ (jwt_encode c k) Hbound Htwo).
    + rewrite jwt_decode_encode, Hlive. reflexivity.
    + apply jwt_encode_compact.
  - apply authMiddleware_no_token. rewrite Hnone. reflexivity.
  - apply require_auth_missing. unfold Flask.header_text.
    apply not_bearer_prefix; assumption.
Qed.

(** ** Which Flask requests change the tables *)

Section FlaskTables.
Context `{JwtLib} `{PasswordHasher}.
Variable getenv : string -> option string.
Import Flask.

Lemma same_tables_refl (db : pg) : same_tables db db.
Proof. repeat split. Qed.

(** A transaction either returns what its body returned, or raises and
    leaves every table as it was. *)
Lemma with_db_outcome {A} (body : cursor A) (db : pg) (fl : schedule) :
  (exists a c0 c, store c0 = db /\ body c0 = (Ok a, c)
                  /\ with_db body db fl = (Ok a, store c))
  \/ (exists e, fst (with_db body db fl) = Raise e)
     /\ same_tables (snd (with_db body db fl)) db.
Proof.
  unfold with_db, next_fault.
  destruct fl as [|[msg|] fl1].
  - destruct (body (mkConn db [])) as [[a | e] c] eqn:Hbody.
    + destruct (pending c) as [|[msg|] rest].
      * left. exists a, (mkConn db []), c. auto.
      * right. split; [eexists; reflexivity | apply same_tables_rollback].
      * left. exists a, (mkConn db []), c. auto.
    + right. split; [eexists; reflexivity | apply same_tables_rollback].
  - right. split; [eexists; reflexivity | apply same_tables_refl].
  - destruct (body (mkConn db fl1)) as [[a | e] c] eqn:Hbody.
    + destruct (pending c) as [|[msg|] rest].
      * left. exists a, (mkConn db fl1), c. auto.
      * right. split; [eexists; reflexivity | apply same_tables_rollback].
      * left. exists a, (mkConn db fl1), c. auto.
    + right. split; [eexists; reflexivity | apply same_tables_rollback].
Qed.

Lemma only_200 (body : cursor (Z * json)) (db : pg) (fl : schedule) :
  cursor_post answers_200 body ->
  status_of (fst (with_db body db fl)) <> 200 ->
  same_tables (snd (with_db body db fl)) db.
Proof.
  intros Hpost Hst.
  destruct (with_db_outcome body db fl) as [(a & c0 & c & _ & Hbody & Heq) | [_ Hsame]];
    [|exact Hsame].
  exfalso. apply Hst. rewrite Heq. cbn [fst]. pose proof (Hpost _ _ _ Hbody) as Ha.
  destruct a as [s b]. exact Ha.
Qed.

Ltac status_views :=
  repeat first
    [ apply cp_raise
    | apply cp_ret; reflexivity
    | apply cp_bind; intros ?
    | break_match ].

#[export] Instance unchanged_transactional : Transactional unchanged.
Proof.
  split.
  - intros d. apply same_tables_refl.
  - intros a b c (H1 & H2 & H3 & H4) (H5 & H6 & H7 & H8).
    repeat split; congruence.
  - intros before current _. apply same_tables_rollback.
Qed.

Lemma login_reads_only (now : Z) (fl : schedule) (data : login_body) (db : pg) :
  same_tables (snd (login getenv now fl data db)) db.
Proof.
  unfold login. apply (with_db_keeps unchanged).
  cursor_views unchanged ltac:(apply same_tables_refl).
Qed.

Lemma update_product_404 (fl : schedule) (pid : Z) (data : product_body) (uid : Z)
  (db : pg) :
  status_of (fst (update_product fl pid data uid db)) <> 200 ->
  same_tables (snd (update_product fl pid data uid db)) db.
Proof.
  unfold update_product. flask_run.
  schedule_cases fl;
    destruct (pb_title data), (pb_category data), (pb_price data);
    flask_step; unfold update_listing; flask_step;
    try (intros _; repeat split; fail);
    destruct (Z.of_nat _ =? 0) eqn:Hcount; cbn [fst snd store status_of];
    try (intros Hst; exfalso; apply Hst; reflexivity);
    try (intros _; repeat split; fail);
    intros _; apply Z.eqb_eq in Hcount;
    (assert (Hnone : filter (owned_by pid uid) (products db) = [])
      by (destruct (filter (owned_by pid uid) (products db));
          [reflexivity | simpl in Hcount; lia]));
    repeat split; cbn [products]; apply (map_unless _ _ _ Hnone).
Qed.

(** X7. A Flask request that is not answered 200 leaves every table as
    it was: a 400, 401, 404 or an exception (a 500) never goes with a
    change of rows, whatever the datastore did on the way. *)
Theorem flask_tables_change_only_on_200 (cx : context) (r : request) (db : pg)
  (Hstatus : status_of (fst (serve getenv cx r db)) <> 200) :
  same_tables (snd (serve getenv cx r db)) db.
Proof.
  revert Hstatus. destruct r; unfold serve.
  1: { unfold signup. break_match; [intros _; apply same_tables_refl|].
       match goal with
       | |- context [with_db ?body ?d ?fl] =>
           destruct (with_db_outcome body d fl)
             as [(a & c0 & c & _ & _ & Heq) | [[e He] Hsame]]
       end.
       - rewrite Heq. intros Hst. exfalso. apply Hst. reflexivity.
       - destruct (with_db _ db (env cx)) as [[uid | e'] db'] eqn:Hw;
           cbn [fst snd] in *; [discriminate|].
         destruct e'; intros _; exact Hsame. }
  1: intros _; apply login_reads_only.
  all: match goal with
       | |- context [require_auth getenv ?view ?a ?n ?d] =>
           destruct (require_auth_cases getenv view a n d)
             as [-> | [-> | [-> | [uid ->]]]]
       end;
       try (intros _; apply same_tables_refl).
  5: apply update_product_404.
  all: unfold_view; apply only_200; status_views.
Qed.

End FlaskTables.

(** ** Profiles and listings on the Flask server *)

Lemma filter_map_update {A} (f : A -> bool) (h : A -> A) (l : list A) :
  (forall a, f (h a) = f a) ->
  filter f (map (fun a => if f a then h a else a) l) = map h (filter f l).
Proof.
  intros Hf. induction l as [|a l IH]; simpl; [reflexivity|].
  destruct (f a) eqn:Hfa.
  - rewrite Hf, Hfa, IH. reflexivity.
  - rewrite Hfa, IH. reflexivity.
Qed.

Section FlaskProfiles.
Context `{JwtLib} `{PasswordHasher}.
Variable getenv : string -> option string.
Import Flask.

Lemma users_by_id_is (uid : Z) (db : pg) (row : user_row) (rest : list user_row) :
  users_by_id uid db = row :: rest -> In row (users db) /\ user_id row = uid.
Proof.
  intros Hrow.
  assert (Hin : In row (users_by_id uid db)) by (rewrite Hrow; left; reflexivity).
  apply filter_In in Hin as [Hin Hm]. split; [exact Hin | apply Z.eqb_eq, Hm].
Qed.

(** X8. PUT /api/users/me, for a caller whose row exists and an email
    no other row has, rewrites the username and email of the caller's
    row and of no other, keeps every id and password hash, and the
    profile GET /api/users/me then returns is the one just written.
    Without a "username" or "email" key it raises KeyError; with an
    email of another row, or for a caller whose row is gone, it ends in
    an error; in all three cases no table changes. *)
Theorem update_me_then_me (uid : Z) (username email : string) (db : pg)
  (row : user_row) (rest : list user_row)
  (Hrow : users_by_id uid db = row :: rest)
  (Hfree : forall u, In u (users db) -> user_email u = email -> user_id u = uid) :
  let written := update_me [] (mkProfile (Some username) (Some email)) uid db in
  let profile := JObj [("id", JNum uid); ("email", JStr email);
                       ("username", JStr username)] in
  fst written = Ok (200, JObj [("user", profile)])
  /\ fst (me [] uid (snd written)) = Ok (200, profile)
  /\ credentials (snd written) = credentials db
  /\ (forall u, In u (users db) -> user_id u <> uid -> In u (users (snd written)))
  /\ (forall fl name,
        update_me fl (mkProfile None name) uid db = (Raise (KeyError "username"), db)
        \/ exists msg, update_me fl (mkProfile None name) uid db = (Raise (PgError msg), db))
  /\ (forall taken other,
        In other (users db) -> user_email other = taken -> user_id other <> uid ->
        update_me [] (mkProfile (Some username) (Some taken)) uid db
        = (Raise (PgError "duplicate key value violates unique constraint"), db)).
Proof.
  cbv zeta.
  destruct (users_by_id_is uid db row rest Hrow) as [Hin Hid].
  assert (Hnodup : existsb (fun u => (user_email u =? email)%string
                                     && negb (user_id u =? uid)) (users db) = false).
  { apply not_true_is_false. intros Hex.
    apply existsb_exists in Hex as (u & Hu & Hc).
    apply andb_prop in Hc as [He Hn]. apply String.eqb_eq in He.
    rewrite (Hfree u Hu He), Z.eqb_refl in Hn. discriminate. }
  assert (Hupdated :
            filter (fun u => user_id u =? uid)
                   (map (fun u => if user_id u =? uid
                                  then mkUser (user_id u) email (Some username)
                                              (user_password_hash u)
                                  else u) (users db))
            = map (fun u => mkUser (user_id u) email (Some username) (user_password_hash u))
                  (row :: rest)).
  { rewrite (filter_map_update (fun u => user_id u =? uid)
               (fun u => mkUser (user_id u) email (Some username) (user_password_hash u)))
      by reflexivity.
    unfold users_by_id in Hrow. rewrite Hrow. reflexivity. }
  assert (Hwritten :
            update_me [] (mkProfile (Some username) (Some email)) uid db
            = (Ok (200, JObj [("user", JObj [("id", JNum uid); ("email", JStr email);
                                            ("username", JStr username)])]),
               snd (update_user username email uid db))).
  { unfold update_me. flask_run. unfold update_user. rewrite Hnodup.
    cbn [andb fst snd]. rewrite Hupdated. cbn. rewrite Hid. reflexivity. }
  rewrite Hwritten. cbn [fst snd].
  split; [reflexivity|]. split; [|split; [|split; [|split]]].
  - unfold me. flask_run. unfold update_user, users_by_id. rewrite Hnodup.
    cbn [andb snd users]. rewrite Hupdated. cbn. rewrite Hid. reflexivity.
  - apply (update_user_keeps username email uid db).
  - intros u Hu Hne. unfold update_user. rewrite Hnodup. cbn [andb snd users].
    apply in_map_iff. exists u. split; [|exact Hu].
    apply Z.eqb_neq in Hne. rewrite Hne. reflexivity.
  - intros fl name. unfold update_me. flask_run.
    destruct fl as [|[msg|] fl1]; cbn; rewrite ?rollback_same; eauto.
  - intros taken other Hother Hemail Hne. unfold update_me. flask_run.
    unfold update_user.
    assert (existsb (fun u => (user_email u =? taken)%string
                              && negb (user_id u =? uid)) (users db) = true) as ->.
    { apply existsb_exists. exists other. split; [exact Hother|].
      rewrite Hemail, String.eqb_refl. apply Z.eqb_neq in Hne. rewrite Hne. reflexivity. }
    assert (existsb (fun u => user_id u =? uid) (users db) = true) as ->.
    { apply existsb_exists. exists row. split; [exact Hin|]. apply Z.eqb_eq, Hid. }
    cbn. rewrite rollback_same. reflexivity.
Qed.

(** X9. The user object a successful login returns is the profile that
    GET /api/users/me returns for the token of that login, as long as
    the id of the row found by email finds the same row. *)
Theorem login_user_is_me (now now' : Z) (email password : string) (db : pg)
  (u : user_row) (rest rest' : list user_row)
  (Hrow : users_by_email email db = u :: rest)
  (Hkey : users_by_id (user_id u) db = u :: rest')
  (Hmatch : bcrypt_verify password (user_password_hash u) = true)
  (Hlive : now' < now + token_lifetime) :
  let profile := JObj [("id", JNum (user_id u)); ("email", JStr email);
                       ("username", jopt JStr (user_username u))] in
  fst (login getenv now [] (mkLogin (Some email) (Some password)) db)
  = Ok (200, JObj [("token", JStr (session_token getenv (user_id u) now));
                   ("user", profile)])
  /\ require_auth getenv (fun uid => me [] uid db)
       (Some ("Bearer " ++ session_token getenv (user_id u) now)%string) now' db
     = (Ok (200, profile), db).
Proof.
  cbv zeta. split.
  - rewrite (flask_login_ok getenv now email password db u rest Hrow Hmatch). reflexivity.
  - rewrite session_live by exact Hlive.
    unfold me. flask_run. rewrite Hkey. cbn. unfold profile_json.
    assert (Hin : In u (users_by_email email db)) by (rewrite Hrow; left; reflexivity).
    apply filter_In in Hin as [_ He]. apply String.eqb_eq in He. rewrite He.
    reflexivity.
Qed.

(** The price text at the edges: below one unit, negative, and zero. *)
Example price_text_edges :
  price_text 1250 = "12.50" /\ price_text 5 = "0.05" /\ price_text 0 = "0.00"
  /\ price_text (-50) = "-0.50" /\ price_text (-12345) = "-123.45".
Proof. repeat split. Qed.

(** X10. POST /api/products stores the listing under the next sequence
    value with the caller as owner, whatever the price (zero and
    negative prices included), and answers with that id; the listing
    is then the last one of the caller's GET /api/my/listings and no
    other user's listings change.  A body without "title" raises
    KeyError and changes nothing. *)
Theorem create_then_my_listings (uid : Z) (title : string) (description : field)
  (category : string) (price : Z) (image_url : field) (db : pg) :
  let data := mkProductBody (Some title) description (Some category) (Some price)
                            image_url in
  let listing := mkProduct (products_id_seq db) title description category price
                           image_url uid in
  let created := create_product [] data uid db in
  fst created = Ok (200, JObj [("id", JNum (products_id_seq db))])
  /\ products (snd created) = (products db ++ [listing])%list
  /\ fst (my_listings [] uid (snd created))
     = Ok (items (map my_listing_json
                      (filter (fun p => product_owner_id p =? uid) (products db)
                       ++ [listing])))
  /\ (forall v, v <> uid ->
        fst (my_listings [] v (snd created)) = fst (my_listings [] v db))
  /\ (forall fl,
        create_product fl (mkProductBody None description (Some category) (Some price)
                                         image_url) uid db
        = (Raise (KeyError "title"), db)
        \/ exists msg,
             create_product fl (mkProductBody None description (Some category)
                                              (Some price) image_url) uid db
             = (Raise (PgError msg), db)).
Proof.
  cbv zeta. split; [reflexivity|]. split; [reflexivity|].
  remember (snd (create_product [] (mkProductBody (Some title) description
                                                  (Some category) (Some price) image_url)
                                uid db)) as db' eqn:Hdb'.
  assert (Hp : products db'
               = (products db ++ [mkProduct (products_id_seq db) title description
                                            category price image_url uid])%list)
    by (subst db'; reflexivity).
  clear Hdb'. split; [|split].
  - unfold my_listings. flask_run. rewrite Hp, filter_app. cbn [filter product_owner_id].
    rewrite Z.eqb_refl. reflexivity.
  - intros v Hv. unfold my_listings. flask_run. rewrite Hp, filter_app.
    cbn [filter product_owner_id].
    assert ((uid =? v) = false) as -> by (apply Z.eqb_neq; congruence).
    rewrite app_nil_r. reflexivity.
  - intros fl. unfold create_product. flask_run.
    destruct fl as [|[msg|] fl1]; cbn; rewrite ?rollback_same; eauto.
Qed.

End FlaskProfiles.

(** ** Cart, checkout and orders *)

Lemma filter_all {A} (f : A -> bool) (l : list A) :
  (forall x, In x l -> f x = true) -> filter f l = l.
Proof.
  induction l as [|a l IH]; simpl; intros Hf; [reflexivity|].
  rewrite (Hf a (or_introl eq_refl)). f_equal.
  apply IH. intros x Hx. apply Hf. right. exact Hx.
Qed.

Section FlaskCart.
Import Flask.

(** X11. POST /api/cart appends one row for the caller, with quantity
    1 when the body gives none; GET /api/cart then shows it after the
    rows it showed before when the product exists, and does not show
    it at all when no product has that id; DELETE /api/cart/:id of that
    row by another user answers 200 "Removed" and removes nothing, and
    by the caller puts the table back as it was. *)
Theorem cart_add_show_remove (uid product : Z) (quantity : option Z) (db : pg)
  (Hfresh : forall c, In c (cart_items db) -> cart_id c < cart_items_id_seq db) :
  let row := mkCart (cart_items_id_seq db) uid product
                    (match quantity with Some n => n | None => 1 end) in
  let added := add_cart [] (mkCartBody (Some product) quantity) uid db in
  fst added = Ok (200, message_body "Added")
  /\ cart_items (snd added) = (cart_items db ++ [row])%list
  /\ cart_join uid (snd added)
     = (cart_join uid db
        ++ map (fun p => (row, p))
               (filter (fun p => product_id p =? product) (products db)))%list
  /\ fst (get_cart [] uid (snd added))
     = Ok (items (map cart_json (cart_join uid (snd added))))
  /\ (forall v, v <> uid ->
        fst (remove_cart [] (cart_items_id_seq db) v (snd added))
        = Ok (200, message_body "Removed")
        /\ cart_items (snd (remove_cart [] (cart_items_id_seq db) v (snd added)))
           = cart_items (snd added))
  /\ cart_items (snd (remove_cart [] (cart_items_id_seq db) uid (snd added)))
     = cart_items db
  /\ (forall fl,
        add_cart fl (mkCartBody None quantity) uid db = (Raise (KeyError "product_id"), db)
        \/ exists msg,
             add_cart fl (mkCartBody None quantity) uid db = (Raise (PgError msg), db)).
Proof.
  cbv zeta. split; [reflexivity|]. split; [reflexivity|].
  remember (snd (add_cart [] (mkCartBody (Some product) quantity) uid db)) as db'
    eqn:Hdb'.
  assert (Hc : cart_items db'
               = (cart_items db
                  ++ [mkCart (cart_items_id_seq db) uid product
                             (match quantity with Some n => n | None => 1 end)])%list)
    by (subst db'; reflexivity).
  assert (Hp : products db' = products db) by (subst db'; reflexivity).
  clear Hdb'.
  pose proof (fun f => filter_all f (cart_items db)) as Hkeep.
  split; [|split; [|split; [|split]]].
  - unfold cart_join, cart_of. rewrite Hc, Hp, filter_app, flat_map_app.
    cbn [filter cart_user_id]. rewrite Z.eqb_refl. cbn [flat_map cart_product_id].
    rewrite app_nil_r. reflexivity.
  - unfold get_cart. flask_run. reflexivity.
  - intros v Hv. split; [reflexivity|].
    change (cart_items (snd (remove_cart [] (cart_items_id_seq db) v db')))
      with (filter (fun c => negb ((cart_id c =? cart_items_id_seq db)
                                   && (cart_user_id c =? v))) (cart_items db')).
    rewrite Hc, filter_app. cbn [filter cart_id cart_user_id].
    assert ((uid =? v) = false) as -> by (apply Z.eqb_neq; congruence).
    rewrite andb_false_r. cbn [negb]. f_equal. apply Hkeep.
    intros c Hin. specialize (Hfresh c Hin).
    assert ((cart_id c =? cart_items_id_seq db) = false) as ->
      by (apply Z.eqb_neq; lia).
    reflexivity.
  - change (cart_items (snd (remove_cart [] (cart_items_id_seq db) uid db')))
      with (filter (fun c => negb ((cart_id c =? cart_items_id_seq db)
                                   && (cart_user_id c =? uid))) (cart_items db')).
    rewrite Hc, filter_app. cbn [filter cart_id cart_user_id]. rewrite !Z.eqb_refl.
    cbn [andb negb]. rewrite app_nil_r. apply Hkeep.
    intros c Hin. specialize (Hfresh c Hin).
    assert ((cart_id c =? cart_items_id_seq db) = false) as ->
      by (apply Z.eqb_neq; lia).
    reflexivity.
  - intros fl. unfold add_cart. flask_run.
    destruct fl as [|[msg|] fl1]; cbn; rewrite ?rollback_same; eauto.
Qed.

Lemma insert_desc_perm (x : order_row * product_row) (l : list (order_row * product_row)) :
  Permutation (insert_desc x l) (x :: l).
Proof.
  induction l as [|y l IH]; simpl; [reflexivity|].
  destruct (order_purchased_at (fst y) <=? order_purchased_at (fst x)); [reflexivity|].
  rewrite IH. apply perm_swap.
Qed.

Lemma sort_desc_perm (l : list (order_row * product_row)) : Permutation (sort_desc l) l.
Proof.
  induction l as [|x l IH]; simpl; [reflexivity|].
  rewrite insert_desc_perm. apply perm_skip, IH.
Qed.





Lemma orders_join_in (uid : Z) (db : pg) (o : order_row) (p : product_row) :
  In (o, p) (orders_join uid db) <->
  In o (orders db) /\ order_user_id o = uid
  /\ In p (products db) /\ product_id p = order_product_id o.
Proof.
  unfold orders_join, orders_of. split.
  - intros Hin. apply (Permutation_in _ (sort_desc_perm _)) in Hin.
    apply in_flat_map in Hin as (o' & Ho' & Hin).
    apply in_map_iff in Hin as (p' & Heq & Hp'). inversion Heq; subst.
    apply filter_In in Ho' as [Ho Hu]. apply filter_In in Hp' as [Hp Hid].
    apply Z.eqb_eq in Hu, Hid. auto.
  - intros (Ho & Hu & Hp & Hid).
    apply (Permutation_in _ (Permutation_sym (sort_desc_perm _))).
    apply in_flat_map. exists o. split.
    + apply filter_In. split; [exact Ho | apply Z.eqb_eq, Hu].
    + apply in_map. apply filter_In. split; [exact Hp | apply Z.eqb_eq, Hid].
Qed.


Lemma number_orders_products (next now : Z) (rows : list cart_row) :
  map order_product_id (number_orders next now rows) = map cart_product_id rows.
Proof.
  revert next. induction rows as [|c rows IH]; intros next; simpl;
    [reflexivity | now rewrite IH].
Qed.

Lemma number_orders_stamp (next now : Z) (rows : list cart_row) :
  forall o, In o (number_orders next now rows) ->
            order_purchased_at o = now
            /\ exists c, In c rows /\ order_user_id o = cart_user_id c
                         /\ order_product_id o = cart_product_id c.
Proof.
  revert next. induction rows as [|c rows IH]; intros next o; simpl; [intros []|].
  intros [<- | Hin].
  - split; [reflexivity|]. exists c. auto.
  - destruct (IH _ _ Hin) as [Ht (c' & Hc' & Hu & Hp)].
    split; [exact Ht|]. exists c'. auto.
Qed.

(** X13. A checkout that succeeds places one order per cart row of the
    caller, whatever the row's quantity, with the row's product and the
    time of the checkout, after the orders that were there; every item
    GET /api/cart showed before is an item of GET /api/orders after;
    other users' cart rows stay.  With an empty cart it still answers
    "Order placed" and no table changes. *)
Theorem checkout_places_cart_rows (now uid : Z) (db : pg) :
  let after := snd (checkout now [] uid db) in
  let placed := number_orders (orders_id_seq db) now (cart_of uid db) in
  orders after = (orders db ++ placed)%list
  /\ map order_product_id placed = map cart_product_id (cart_of uid db)
  /\ (forall o, In o placed -> order_user_id o = uid /\ order_purchased_at o = now)
  /\ cart_items after = filter (fun c => negb (cart_user_id c =? uid)) (cart_items db)
  /\ (forall c p, In (c, p) (cart_join uid db) ->
        exists o, In (o, p) (orders_join uid after)
                  /\ order_product_id o = cart_product_id c
                  /\ order_purchased_at o = now)
  /\ (cart_of uid db = [] ->
      fst (checkout now [] uid db) = Ok (200, message_body "Order placed")
      /\ same_tables after db).
Proof.
  cbv zeta.
  remember (snd (checkout now [] uid db)) as after eqn:Hafter.
  assert (Ho : orders after
               = (orders db ++ number_orders (orders_id_seq db) now (cart_of uid db))%list)
    by (subst after; reflexivity).
  assert (Hc : cart_items after
               = filter (fun c => negb (cart_user_id c =? uid)) (cart_items db))
    by (subst after; reflexivity).
  assert (Hu : users after = users db) by (subst after; reflexivity).
  assert (Hp : products after = products db) by (subst after; reflexivity).
  clear Hafter.
  assert (Hstamp : forall o,
            In o (number_orders (orders_id_seq db) now (cart_of uid db)) ->
            order_user_id o = uid /\ order_purchased_at o = now).
  { intros o Hin. destruct (number_orders_stamp _ _ _ o Hin) as [Ht (c & Hcin & Hcu & _)].
    split; [|exact Ht]. rewrite Hcu. apply (cart_of_owner uid db c Hcin). }
  split; [exact Ho|]. split; [apply number_orders_products|].
  split; [exact Hstamp|]. split; [exact Hc|]. split.
  - intros c p Hin. unfold cart_join in Hin.
    apply in_flat_map in Hin as (c' & Hc' & Hin).
    apply in_map_iff in Hin as (p' & Heq & Hp'). inversion Heq; subst c' p'.
    apply filter_In in Hp' as [Hpin Hpid]. apply Z.eqb_eq in Hpid.
    assert (Hprod : In (cart_product_id c)
                       (map order_product_id
                            (number_orders (orders_id_seq db) now (cart_of uid db)))).
    { rewrite number_orders_products. apply in_map, Hc'. }
    apply in_map_iff in Hprod as (o & Hop & Hoin).
    destruct (Hstamp o Hoin) as [Hou Hot].
    exists o. split; [|auto].
    apply orders_join_in. rewrite Ho, Hp. repeat split.
    + apply in_or_app. right. exact Hoin.
    + exact Hou.
    + exact Hpin.
    + congruence.
  - intros Hempty. split; [reflexivity|].
    repeat split; try assumption.
    + rewrite Hc. fold (cart_of uid db) in *.
      apply filter_all. intros c Hin.
      destruct (cart_user_id c =? uid) eqn:Hm; [|reflexivity].
      assert (Hf : In c (cart_of uid db)) by (apply filter_In; auto).
      rewrite Hempty in Hf. destruct Hf.
    + rewrite Ho, Hempty. simpl. apply app_nil_r.
Qed.

End FlaskCart.

(** ** Ids and owners of listings *)

Section ListingOwners.
Context `{JwtLib} `{PasswordHasher}.
Variable getenv : string -> option string.
Import Flask.

#[export] Instance listings_stay_transactional : Transactional listings_stay.
Proof.
  split.
  - intros db. split; [lia|]. intros p' Hp'. left. exists p'. auto.
  - intros a b c [Hs1 Hl1] [Hs2 Hl2]. split; [lia|].
    intros p'' Hp''. destruct (Hl2 p'' Hp'') as [(p' & Hp' & Hid & Hown) | Hnew].
    + destruct (Hl1 p' Hp') as [(p & Hp & Hid' & Hown') | Hnew].
      * left. exists p. repeat split; [exact Hp | congruence | congruence].
      * right. lia.
    + right. lia.
  - intros before current [Hs _]. split; [exact Hs|].
    intros p' Hp'. left. exists p'. auto.
Qed.

Lemma stays_products (db db' : pg) :
  products db' = products db -> products_id_seq db' = products_id_seq db ->
  listings_stay db db'.
Proof.
  intros Hp Hs. split; [lia|]. rewrite Hp. intros p' Hp'. left. exists p'. auto.
Qed.

Lemma insert_product_stays title description category price image_url owner (db : pg) :
  listings_stay db (snd (insert_product title description category price image_url
                                        owner db)).
Proof.
  unfold listings_stay, insert_product. cbn [snd products products_id_seq].
  split; [lia|]. intros p' Hp'. apply in_app_or in Hp' as [Hp' | [<- | []]].
  - left. exists p'. auto.
  - right. simpl. lia.
Qed.

Lemma update_listing_stays title description category price image_url pid uid (db : pg) :
  listings_stay db (snd (update_listing title description category price image_url
                                        pid uid db)).
Proof.
  unfold listings_stay, update_listing. cbn [snd products products_id_seq].
  split; [lia|]. intros p' Hp'. apply in_map_iff in Hp' as (p & <- & Hp).
  left. exists p. destruct (owned_by pid uid p); auto.
Qed.

Lemma delete_listing_stays pid uid (db : pg) :
  listings_stay db (snd (delete_listing pid uid db)).
Proof.
  unfold listings_stay, delete_listing. cbn [snd products products_id_seq].
  split; [lia|]. intros p' Hp'. apply filter_In in Hp' as [Hp' _].
  left. exists p'. auto.
Qed.

Ltac stays_statement :=
  first [ apply insert_product_stays | apply update_listing_stays
        | apply delete_listing_stays | apply stays_products; reflexivity
        | unfold update_user; break_match; apply stays_products; reflexivity ].

Lemma serve_stays (cx : context) (r : request) (db : pg) :
  listings_stay db (snd (serve getenv cx r db)).
Proof.
  destruct r; unfold serve.
  1: { unfold signup. break_match; [apply tx_refl|].
       match goal with
       | |- context [with_db ?body ?d ?fl] =>
           assert (Hg : listings_stay d (snd (with_db body d fl)))
       end.
       { apply (with_db_keeps listings_stay). apply (ck_execute listings_stay).
         intros d. unfold insert_user. break_match; apply stays_products; reflexivity. }
       repeat break_match; exact Hg. }
  1: unfold login; apply (with_db_keeps listings_stay);
     cursor_views listings_stay stays_statement.
  all: match goal with
       | |- context [require_auth getenv ?view ?a ?n ?d] =>
           destruct (require_auth_cases getenv view a n d)
             as [-> | [-> | [-> | [uid ->]]]]
       end;
       try apply (tx_refl (R := listings_stay));
       unfold_view; apply (with_db_keeps listings_stay);
       cursor_views listings_stay stays_statement.
Qed.

(** X14. No request changes the id or the owner of a listing: along
    any history, a listing of the final store either has the id and
    owner of a listing of the initial store, or an id the sequence gave
    out since; and in a store reached from the empty one ids are
    pairwise distinct and below the sequence. *)
Theorem listing_id_and_owner_are_fixed (history : list (context * request))
  (st : pg * list (Z * string)) :
  (forall p', In p' (products (fst (run getenv history st))) ->
     (exists p, In p (products (fst st)) /\ product_id p = product_id p'
                /\ product_owner_id p = product_owner_id p')
     \/ products_id_seq (fst st) <= product_id p')
  /\ listing_ids_ok (fst (run getenv history (empty_pg, []))).
Proof.
  split.
  - assert (Hrun : listings_stay (fst st) (fst (run getenv history st))).
    { revert st. induction history as [|[cx r] rest IH]; intros st; simpl.
      - apply tx_refl.
      - eapply tx_trans; [apply (serve_stays cx r (fst st))|].
        apply (IH (snd (serve getenv cx r (fst st)),
                   (registered cx r (fst st) ++ snd st)%list)). }
    apply Hrun.
  - apply (listing_ids_reachable getenv history (empty_pg, [])).
    split; [constructor | intros p []].
Qed.

End ListingOwners.

(** ** Searching listings *)





Section FlaskSearch.
Import Flask.


End FlaskSearch.

(** ** The clients against the servers *)

Section ScriptClient.
Context `{JwtLib} `{PasswordHasher}.
Import Express Script.

(** X16. The product page of the script client never gets a listing
    from the Express server: [loadProducts] calls [api] without the
    [auth] argument, so no Authorization header is sent even when a
    token is stored, the gate answers 401 and the error is logged
    instead of anything being rendered.  This holds whether or not
    [JWT_SECRET] is bound.  The same endpoint called with [auth] set and
    a stored token the server accepts resolves with rows of the table. *)
Theorem script_products_page_sends_no_token (sc : scope) (now : Z) (fl : faults)
  (db : mysql_db) (token : field) (query : string) :
  loadProducts (express_products sc now fl db) token query
  = Logged (JsError (JStr "Authentication failed: No token provided."))
  /\ (forall k c,
        lookup "JWT_SECRET" sc = Some (JsString k) ->
        is_expired c now = false ->
        query_err fl = None ->
        token = Some (jwt_encode c k) ->
        exists rows,
          api (express_products sc now fl db (Some query)) token true
          = Resolved (JArr (map product_json rows))
          /\ incl rows (products db)).
Proof.
  split.
  - unfold loadProducts, api, express_products, serve, guarded. cbn [andb].
    cbn [authorization clock env].
    rewrite (authMiddleware_no_token sc now None eq_refl). reflexivity.
  - intros k c Hsc Hlive Hquery ->.
    unfold api, express_products, serve, guarded. rewrite token_truthy. cbn [andb text].
    cbn [authorization clock env].
    rewrite (authMiddleware_bound sc k now _ (jwt_encode c k) Hsc (bearer_token_of c k)
               (proj2 (jwt_encode_compact c k))).
    rewrite jwt_decode_encode, Hlive. cbn [fst].
    unfold get_products. rewrite Hquery.
    destruct (truthy (Some query)) eqn:Hq.
    + rewrite (products_query_title (Some query) None eq_refl Hq).
      eexists. split; [reflexivity|]. intros p Hp. apply filter_In in Hp. tauto.
    + rewrite (products_query_all (Some query) None eq_refl Hq).
      eexists. split; [reflexivity|]. intros p Hp. exact Hp.
Qed.

End ScriptClient.

Section Regex.
Import React.

Lemma lang_cat_inv (r1 r2 : regex) (s : string) :
  lang (Cat r1 r2) s <-> exists u v, s = (u ++ v)%string /\ lang r1 u /\ lang r2 v.
Proof.
  split.
  - intros Hl. inversion Hl; subst. eauto.
  - intros (u & v & -> & Hu & Hv). constructor; assumption.
Qed.

Lemma lang_class_inv (member : ascii -> bool) (s : string) :
  lang (Class member) s <-> exists c, s = String c "" /\ member c = true.
Proof.
  split.
  - intros Hl. inversion Hl; subst. eauto.
  - intros (c & -> & Hc). constructor. exact Hc.
Qed.

Lemma nullable_lang (r : regex) : nullable r = true <-> lang r "".
Proof.
  induction r as [| |member|r1 IH1 r2 IH2|r1 IH1 r2 IH2|r IH]; simpl.
  - split; [discriminate | intros Hl; inversion Hl].
  - split; [constructor | reflexivity].
  - split; [discriminate | intros Hl; inversion Hl].
  - rewrite andb_true_iff, IH1, IH2. split.
    + intros [H1 H2]. change "" with ("" ++ "")%string. constructor; assumption.
    + intros Hl. apply lang_cat_inv in Hl as (u & v & Huv & Hu & Hv).
      destruct u; [|discriminate]. simpl in Huv. subst v. auto.
  - rewrite orb_true_iff, IH1, IH2. split.
    + intros [Hl | Hl]; [apply lang_alt_l | apply lang_alt_r]; assumption.
    + intros Hl. inversion Hl; subst; auto.
  - split; [constructor | reflexivity].
Qed.

Lemma lang_star_cons (c : ascii) (r : regex) (s : string) :
  lang (Star r) (String c s) ->
  exists u v, s = (u ++ v)%string /\ lang r (String c u) /\ lang (Star r) v.
Proof.
  intros Hl. remember (Star r) as r' eqn:Hr. remember (String c s) as w eqn:Hw.
  induction Hl as [| | | | | |r0 u v Hu _ Hv IH]; try discriminate.
  injection Hr as ->. destruct u as [|d u].
  - simpl in Hw. apply IH; [reflexivity | exact Hw].
  - simpl in Hw. injection Hw as -> <-. exists u, v. auto.
Qed.

Lemma deriv_lang (c : ascii) (r : regex) :
  forall s, lang (deriv c r) s <-> lang r (String c s).
Proof.
  induction r as [| |member|r1 IH1 r2 IH2|r1 IH1 r2 IH2|r IH]; intros s; simpl.
  - split; intros Hl; inversion Hl.
  - split; intros Hl; inversion Hl.
  - split.
    + destruct (member c) eqn:Hc; intros Hl; inversion Hl; subst.
      constructor. exact Hc.
    + intros Hl. inversion Hl as [|m d Hd| | | | |]; subst. rewrite Hd. constructor.
  - split.
    + intros Hl.
      assert (Hcat : lang (Cat (deriv c r1) r2) s -> lang (Cat r1 r2) (String c s)).
      { intros Hc. apply lang_cat_inv in Hc as (u & v & -> & Hu & Hv).
        change (String c (u ++ v)) with (String c u ++ v)%string.
        constructor; [apply IH1; exact Hu | exact Hv]. }
      destruct (nullable r1) eqn:Hn; [|auto].
      inversion Hl; subst; [auto|].
      change (String c s) with ("" ++ String c s)%string.
      constructor; [apply nullable_lang; exact Hn | apply IH2; assumption].
    + intros Hl. apply lang_cat_inv in Hl as (u & v & Huv & Hu & Hv).
      destruct u as [|d u]; simpl in Huv.
      * subst v. apply nullable_lang in Hu as ->. apply lang_alt_r, IH2, Hv.
      * injection Huv as <- ->.
        assert (Hcat : lang (Cat (deriv c r1) r2) (u ++ v))
          by (constructor; [apply IH1; exact Hu | exact Hv]).
        destruct (nullable r1); [apply lang_alt_l|]; exact Hcat.
  - split; intros Hl; inversion Hl; subst;
      first [apply lang_alt_l, IH1; assumption | apply lang_alt_r, IH2; assumption].
  - split.
    + intros Hl. apply lang_cat_inv in Hl as (u & v & -> & Hu & Hv).
      change (String c (u ++ v)) with (String c u ++ v)%string.
      constructor; [apply IH; exact Hu | exact Hv].
    + intros Hl. apply lang_star_cons in Hl as (u & v & -> & Hu & Hv).
      constructor; [apply IH; exact Hu | exact Hv].
Qed.

(** The matcher decides the language. *)
Lemma test_lang (s : string) : forall r, test r s = true <-> lang r s.
Proof.
  induction s as [|c s IH]; intros r; simpl.
  - apply nullable_lang.
  - rewrite IH. apply deriv_lang.
Qed.

Lemma lang_star_class (member : ascii -> bool) (s : string) :
  lang (Star (Class member)) s <-> all_chars member s = true.
Proof.
  split.
  - intros Hl. remember (Star (Class member)) as r eqn:Hr.
    induction Hl as [| | | | | |r0 u v Hu _ Hv IH]; try discriminate; [reflexivity|].
    injection Hr as ->. apply lang_class_inv in Hu as (c & -> & Hc).
    simpl. rewrite Hc. apply IH. reflexivity.
  - induction s as [|c s IH]; simpl; intros Hs; [constructor|].
    apply andb_prop in Hs as [Hc Hs].
    change (String c s) with (String c "" ++ s)%string.
    constructor; [constructor; exact Hc | apply IH, Hs].
Qed.

Lemma lang_plus_class (member : ascii -> bool) (s : string) :
  lang (Plus (Class member)) s <-> s <> "" /\ all_chars member s = true.
Proof.
  unfold Plus. rewrite lang_cat_inv. split.
  - intros (u & v & -> & Hu & Hv). apply lang_class_inv in Hu as (c & -> & Hc).
    apply lang_star_class in Hv. simpl. rewrite Hc, Hv. split; [discriminate | reflexivity].
  - intros [Hne Hs]. destruct s as [|c s]; [contradiction|].
    simpl in Hs. apply andb_prop in Hs as [Hc Hs].
    exists (String c ""), s. split; [reflexivity|]. split.
    + constructor. exact Hc.
    + apply lang_star_class, Hs.
Qed.

(** X17. [emailRegex] accepts exactly the texts of the form
    [l ++ "@" ++ d ++ "." ++ t] in which [l], [d] and [t] are non-empty
    and hold neither white space nor "@" (dots are allowed in each of
    them). *)
Theorem emailRegex_shape (e : string) :
  test emailRegex e = true
  <-> exists l d t, e = (l ++ "@" ++ d ++ "." ++ t)%string
                    /\ plain l /\ plain d /\ plain t.
Proof.
  rewrite test_lang. unfold emailRegex, plain. split.
  - intros Hl.
    apply lang_cat_inv in Hl as (l & x1 & -> & Hl & Hx).
    apply lang_cat_inv in Hx as (a & x2 & -> & Ha & Hx).
    apply lang_cat_inv in Hx as (d & x3 & -> & Hd & Hx).
    apply lang_cat_inv in Hx as (p & t & -> & Hp & Ht).
    apply lang_class_inv in Ha as (ca & -> & Hca), Hp as (cp & -> & Hcp).
    apply Ascii.eqb_eq in Hca, Hcp. subst ca cp.
    apply lang_plus_class in Hl, Hd, Ht.
    exists l, d, t. auto.
  - intros (l & d & t & -> & Hl & Hd & Ht).
    apply lang_plus_class in Hl, Hd, Ht.
    constructor; [exact Hl|].
    change ("@" ++ d ++ "." ++ t)%string with (String "@" "" ++ d ++ "." ++ t)%string.
    constructor; [constructor; reflexivity|].
    constructor; [exact Hd|].
    change ("." ++ t)%string with (String "." "" ++ t)%string.
    constructor; [constructor; reflexivity | exact Ht].
Qed.

End Regex.

Section ReactForms.
Context `{JwtLib} `{PasswordHasher}.
Variable getenv : string -> option string.
Import Flask React.

Lemma length_nonempty (s : string) (n : nat) :
  (String.length s <? S n)%nat = false -> s <> "".
Proof. intros Hn ->. discriminate. Qed.

(** X18. A form that passes [validateSignup] also passes
    [validateLogin]; sent to the Flask server for signup when no user
    has its email, and then for login, it creates the user and obtains a
    token for the new id, with the user's own email and username in the
    answer.  When a user already has the email the signup is answered
    400 with the driver's message and no table changes. *)
Theorem validated_form_signs_up_and_logs_in (salt : string) (now : Z) (f : form)
  (db : pg) (Hvalid : no_errors (validateSignup f) = true) :
  let created := signup salt [] (signup_request f) db in
  let uid := users_id_seq db in
  no_errors (validateLogin f) = true
  /\ (users_by_email (email f) db = [] ->
      fst created = Ok (200, JObj [("message", JStr "User created"); ("id", JNum uid)])
      /\ fst (login getenv now [] (login_request f) (snd created))
         = Ok (200, JObj [("token", JStr (session_token getenv uid now));
                          ("user", JObj [("id", JNum uid);
                                         ("email", JStr (email f));
                                         ("username", JStr (username f))])]))
  /\ (users_by_email (email f) db <> [] ->
      fst created = Ok (400, error_body "duplicate key value violates unique constraint")
      /\ same_tables (snd created) db).
Proof.
  cbv zeta. unfold validateSignup, validateLogin, no_errors in *.
  destruct (negb (truthy (Some (email f))) || negb (test emailRegex (email f)))
    eqn:He; [discriminate|].
  destruct (negb (truthy (Some (username f))) || (String.length (username f) <? 3)%nat)
    eqn:Hu; [discriminate|].
  destruct (negb (truthy (Some (password f))) || (String.length (password f) <? 6)%nat)
    eqn:Hp; [discriminate|].
  apply orb_false_elim in He as [He _], Hp as [Hp Hp'].
  rewrite Hp.
  apply negb_false_iff in He, Hp. simpl in He, Hp.
  apply negb_true_iff, String.eqb_neq in He, Hp.
  split; [reflexivity|]. unfold signup_request, login_request. split.
  - intros Hfresh.
    destruct (flask_signup_then_login getenv salt (email f) (Some (username f))
                (password f) now now now db db (fun _ => (Ok (200, JNull), db))
                He Hp Hfresh ltac:(unfold token_lifetime; lia)) as (Hc & Hl & _).
    split; [exact Hc | exact Hl].
  - intros Htaken. apply signup_duplicate; assumption.
Qed.

End ReactForms.

(* ================================================================== *)
(** * The scenario, run *)

Import Scenario.

(** C9 at ana's login on the Express server. *)
Lemma express_jwt_secret_never_defined_witness :
  Express.lookup "JWT_SECRET" Express.server_scope = None
  /\ Express.login Express.server_scope (Express.healthy "salt") 0
       (Express.mkLogin (Some "a@x.com") (Some "secret1")) express_db
     = Express.Thrown (Express.ReferenceError "JWT_SECRET").
Proof.
  destruct (@express_jwt_secret_never_defined reference_jwt reference_hasher
              (Express.healthy "salt") 0
              (Express.mkLogin (Some "a@x.com") (Some "secret1"))
              express_db express_ana [])
    as (Hunbound & _ & _ & Hthrown & _); try reflexivity.
  split; [exact Hunbound | exact Hthrown].
Defined.

(** C1 at a token signed with "supersecret" that carries no "uid". *)
Lemma auth_gate_divergence_witness :
  Express.authMiddleware Express.server_scope 0
    (Some ("Bearer " ++ jwt_encode express_payload "supersecret")%string)
  = Express.Rejected 401 (error_body "Authentication failed: Invalid token.")
  /\ Flask.require_auth no_env (ok_view Flask.empty_pg)
       (Some ("Bearer " ++ jwt_encode express_payload (Flask.JWT_SECRET no_env))%string)
       0 Flask.empty_pg
     = (Flask.Raise (Flask.KeyError "uid"), Flask.empty_pg).
Proof.
  apply (@auth_gate_divergence reference_jwt no_env (ok_view Flask.empty_pg)
           express_payload "supersecret" 0 Flask.empty_pg); reflexivity.
Defined.

(** C2 at ana's login on both servers, the Flask token being presented
    exactly eight hours later. *)
Lemma issue_then_verify_divergence_witness :
  Express.login Express.server_scope (Express.healthy "salt") 0
                (Express.mkLogin (Some "a@x.com") (Some "secret1")) express_db
  = Express.Thrown (Express.ReferenceError "JWT_SECRET")
  /\ Flask.require_auth no_env (ok_view flask_db)
       (Some ("Bearer " ++ Flask.session_token no_env 1 0)%string) 28800 flask_db
     = (Flask.Ok (401, error_body "Invalid token"), flask_db).
Proof.
  destruct (@issue_then_verify_divergence reference_jwt reference_hasher no_env
              (Express.healthy "salt") 0 28800 "a@x.com" "secret1"
              express_db express_ana [] flask_db flask_db ana [] (ok_view flask_db))
    as (Hthrown & _ & Hexpired); try reflexivity; try discriminate.
  split; [exact Hthrown | exact Hexpired].
Defined.

(** C5 at ana's registration on an empty Express store. *)
Lemma express_register_then_login_throws_witness :
  fst (Express.register (Express.healthy "salt") 0
         (Express.mkRegister (Some "a@x.com") (Some "secret1") (Some "ana"))
         Express.empty_db)
  = Express.Sent 201 (message_body "Registration successful!")
  /\ Express.login Express.server_scope (Express.healthy "salt") 1
       (Express.mkLogin (Some "a@x.com") (Some "secret1"))
       (snd (Express.register (Express.healthy "salt") 0
               (Express.mkRegister (Some "a@x.com") (Some "secret1") (Some "ana"))
               Express.empty_db))
     = Express.Thrown (Express.ReferenceError "JWT_SECRET").
Proof.
  apply (@express_register_then_login_throws reference_jwt reference_hasher
           "salt" "salt" 0 1 "a@x.com" "ana" "secret1" Express.empty_db);
    try discriminate; reflexivity.
Defined.

(** C8 at ana's email, against an empty store and the scenario's. *)
Lemma flask_login_reveals_registered_email_witness :
  Flask.status_of
    (fst (Flask.login no_env 0 [] (Flask.mkLogin (Some "a@x.com") None) Flask.empty_pg))
  = 401
  /\ Flask.status_of
       (fst (Flask.login no_env 0 [] (Flask.mkLogin (Some "a@x.com") None) flask_db))
     = 500.
Proof.
  destruct (@flask_login_reveals_registered_email reference_jwt reference_hasher
              no_env 0 "a@x.com" Flask.empty_pg flask_db ana [])
    as (_ & _ & Hunknown & Hknown); try reflexivity.
  split; [exact Hunknown | exact Hknown].
Defined.


(** C7 once the email is registered. *)
Lemma signup_duplicate_example :
  Express.status_of
    (fst (Express.register (Express.healthy "salt") 0
            (Express.mkRegister (Some "a@x.com") (Some "secret1") (Some "ana"))
            express_db))
  = Some 409
  /\ Flask.status_of
       (fst (Flask.signup "salt" []
               (Flask.mkSignup (Some "a@x.com") (Some "ana") (Some "secret1"))
               flask_db))
     = 400.
Proof. split; reflexivity. Qed.


(** C3 at the lamp: bob's token, ana's token, and a header whose token
    does not parse. *)
Lemma listing_owner_only_witness :
  let data := Flask.mkProductBody (Some "Desk lamp") None (Some "Home") (Some 1500) None in
  let bearer uid := Some ("Bearer " ++ Flask.session_token no_env uid 0)%string in
  let put auth :=
    Flask.require_auth no_env (fun uid => Flask.update_product [] 1 data uid flask_db)
                       auth 100 flask_db in
  let delete auth :=
    Flask.require_auth no_env (fun uid => Flask.delete_product [] 1 uid flask_db)
                       auth 100 flask_db in
  put (bearer 2) = (Flask.Ok (404, error_body "Not found"), flask_db)
  /\ delete (bearer 2) = (Flask.Ok (200, message_body "Deleted"), flask_db)
  /\ fst (delete (bearer 2)) = fst (delete (bearer 1))
  /\ Flask.products (snd (put (bearer 1)))
     = [Flask.mkProduct 1 "Desk lamp" None "Home" 1500 None 1]
  /\ Flask.products (snd (delete (bearer 1))) = []
  /\ (exists msg, put (Some "Bearer garbage") = (Flask.Ok (401, error_body msg), flask_db)).
Proof.
  destruct (@listing_owner_only reference_jwt no_env flask_db lamp 2 0 100
              "Desk lamp" None "Home" 1500 None (Some "Bearer garbage"))
    as (Hput & Hdel & Hsame & _ & _ & _ & _ & Hown & Hgone & Hbad & _).
  - repeat constructor. simpl. tauto.
  - simpl. tauto.
  - discriminate.
  - reflexivity.
  - intros token Htok. vm_compute in Htok. injection Htok as <-.
    exists Malformed. reflexivity.
  - cbv zeta.
    split; [exact Hput|]. split; [exact Hdel|]. split; [exact Hsame|].
    split; [exact (f_equal (fun answer => Flask.products (snd answer)) Hown)|].
    split; [exact (f_equal (fun answer => Flask.products (snd answer)) Hgone)|].
    exact Hbad.
Defined.

(** C4 at bob's cart. *)
Lemma checkout_atomic_witness :
  fst (Flask.checkout 50 [] 2 flask_db) = Flask.Ok (200, message_body "Order placed")
  /\ Flask.cart_of 2 (snd (Flask.checkout 50 [] 2 flask_db)) = []
  /\ Flask.orders_of 2 (snd (Flask.checkout 50 [] 2 flask_db)) = [Flask.mkOrder 1 2 1 50]
  /\ Flask.same_tables (snd (Flask.checkout 50 [None; None; Some "connection lost"] 2
                                            flask_db))
                       flask_db.
Proof.
  destruct (checkout_atomic 50 [] 2 flask_db) as [_ Hok].
  split; [exact Hok|]. repeat split.
Defined.

(** C10 with both parameters given. *)
Lemma products_query_precedence_witness :
  Express.products_query (Some "lamp") (Some "7")
  = ("SELECT * FROM products WHERE user_id = ?", ["7"])
  /\ Express.products_query (Some "lamp") None
     = ("SELECT * FROM products WHERE title LIKE ?", ["%lamp%"]).
Proof.
  split.
  - apply (proj1 (products_query_precedence (Express.healthy "salt") (Some "lamp")
                    (Some "7") express_db)).
    reflexivity.
  - apply (proj1 (proj2 (products_query_precedence (Express.healthy "salt")
                           (Some "lamp") None express_db)));
      reflexivity.
Defined.

(** A [user_id] parameter that is present and empty does not take
    precedence: the title filter is applied. *)
Lemma user_id_present_but_empty :
  Express.products_query (Some "lamp") (Some "")
  = ("SELECT * FROM products WHERE title LIKE ?", ["%lamp%"])
  /\ Express.products_query (Some "lamp") (Some "")
     <> ("SELECT * FROM products WHERE user_id = ?", [""]).
Proof. split; [reflexivity | discriminate]. Qed.

(** C6 along ana's signup, login and profile read on the Flask server. *)
Lemma password_hash_never_plain_never_sent_witness :
  Flask.run no_env ana_history (Flask.empty_pg, [])
  = (Flask.mkPg [ana] [] [] [] 2 1 1 1, [(1, "secret1")])
  /\ (forall u,
        In u (Flask.users (fst (Flask.run no_env ana_history (Flask.empty_pg, [])))) ->
        Flask.user_password_hash u <> "secret1")
  /\ Flask.body_of (fst (Flask.serve no_env (Flask.mkContext (Some ("Bearer " ++ ana_token)%string) 2 [])
                                     Flask.Me (Flask.mkPg [ana] [] [] [] 2 1 1 1)))
     = Some (JObj [("id", JNum 1); ("email", JStr "a@x.com"); ("username", JStr "ana")]).
Proof.
  split; [reflexivity|]. split; [|reflexivity].
  intros u Hu.
  destruct (@password_hash_never_plain_never_sent reference_jwt reference_hasher
              no_env Express.server_scope [] ana_history) as (_ & Hflask & _).
  destruct (Hflask u Hu) as (p & Hp & _ & _ & Hne).
  destruct Hu as [<- | []]. destruct Hp as [Heq | []].
  injection Heq as <-. exact Hne.
Defined.

(** X1 at a product search and after ana's registration. *)
Lemma express_store_only_gains_users_witness :
  (exists msg,
     Express.serve Express.server_scope
       (Express.mkContext (Some "Bearer abc") 0 (Express.healthy "salt"))
       (Express.GetProducts (Some "lamp") None) express_db
     = (Express.Sent 401 (error_body msg), express_db))
  /\ Express.products
       (fst (Express.run Express.server_scope
               [(Express.mkContext None 0 (Express.healthy "salt"),
                 Express.PostRegister
                   (Express.mkRegister (Some "a@x.com") (Some "secret1") (Some "ana")))]
               (Express.empty_db, [])))
     = [].
Proof.
  split.
  - apply (@express_store_only_gains_users reference_jwt reference_hasher []
             (Express.empty_db, [])); intros body; discriminate.
  - apply (@express_store_only_gains_users reference_jwt reference_hasher
             [(Express.mkContext None 0 (Express.healthy "salt"),
               Express.PostRegister
                 (Express.mkRegister (Some "a@x.com") (Some "secret1") (Some "ana")))]
             (Express.empty_db, [])).
Defined.

(** X2 at ana's payload, asking for user 2 and for herself. *)
Lemma own_profile_only_witness :
  Express.get_user (Express.healthy "salt") "2" express_payload express_db
  = Express.Sent 403 (error_body "Forbidden: You can only access your own data.")
  /\ Express.get_user (Express.healthy "salt") "1" express_payload express_db
     = Express.Sent 200 (Express.public_user_json express_ana).
Proof.
  destruct (own_profile_only (Express.healthy "salt") "2"
              (Express.mkProfile (Some "ana") (Some "a@x.com")) express_payload 1
              express_db eq_refl eq_refl) as (Hother & Hown & _).
  split; [apply Hother; discriminate | exact Hown].
Defined.

(** X3 at the lamp of the scenario. *)
Lemma post_products_appends_witness :
  let body := Express.mkProductBody (Some "Lamp") None (Some "Home") (Some 1250) None in
  fst (Express.post_products (Express.healthy "salt") body express_payload express_db)
  = Express.Sent 201 (message_body "Product added successfully!")
  /\ Express.products
       (snd (Express.post_products (Express.healthy "salt") body express_payload
                                   express_db))
     = [Express.mkProduct 1 "Lamp" None (Some "Home") 1250 None (Some 1)].
Proof.
  cbv zeta.
  destruct (post_products_appends (Express.healthy "salt")
              (Express.mkProductBody (Some "Lamp") None (Some "Home") (Some 1250) None)
              express_payload express_db eq_refl) as (_ & Hadd).
  destruct (Hadd "Lamp" "Home" 1250) as (Hsent & Hrows & _);
    try reflexivity; try discriminate.
  split; [exact Hsent | exact Hrows].
Defined.

(** X4 after ana registers twice. *)
Lemma express_users_keys_witness :
  let twice :=
    [(Express.mkContext None 0 (Express.healthy "salt"),
      Express.PostRegister
        (Express.mkRegister (Some "a@x.com") (Some "secret1") (Some "ana")));
     (Express.mkContext None 1 (Express.healthy "salt"),
      Express.PostRegister
        (Express.mkRegister (Some "a@x.com") (Some "secret1") (Some "ana")))] in
  Express.store_ok (fst (Express.run Express.server_scope twice (Express.empty_db, []))).
Proof.
  cbv zeta.
  apply (@express_users_keys reference_jwt reference_hasher Express.server_scope).
Defined.

(** X5 at ana's row, moved to a new address. *)
Lemma put_user_rewrites_own_row_witness :
  Express.put_user (Express.healthy "salt") "1"
                   (Express.mkProfile (Some "ana2") (Some "ana@x.com"))
                   express_payload express_db
  = (Express.Sent 200 (message_body "User updated successfully!"),
     Express.mkDb [Express.mkUser 1 "ana@x.com" ana_hash (Some "ana2") 0] [] 2 1)
  /\ Express.put_user (Express.healthy "salt") "1" (Express.mkProfile (Some "ana2") None)
                      express_payload express_db
     = (Express.Sent 500 (error_body "Failed to update user data."), express_db).
Proof.
  destruct (put_user_rewrites_own_row (Express.healthy "salt") (Some "ana2") "ana@x.com"
              express_payload 1 express_db express_ana [] eq_refl eq_refl eq_refl)
    as (Hok & Hmissing & _).
  - intros u [<- | []] _. reflexivity.
  - split; [exact Hok | exact Hmissing].
Defined.

(** X6 at a header whose first word is "Token". *)
Lemma scheme_word_handling_witness :
  Express.authMiddleware bound_scope 0
    (Some ("Token " ++ jwt_encode express_payload "supersecret" ++ " tail")%string)
  = Express.Next express_payload
  /\ Flask.require_auth no_env (ok_view flask_db)
       (Some ("Token " ++ jwt_encode express_payload (Flask.JWT_SECRET no_env))%string)
       0 flask_db
     = (Flask.Ok (401, error_body "Missing token"), flask_db).
Proof.
  destruct (@scheme_word_handling reference_jwt no_env bound_scope "supersecret"
              (ok_view flask_db) "Token" "tail" express_payload 0 flask_db
              eq_refl ltac:(discriminate) eq_refl eq_refl)
    as (_ & _ & _ & Hexpress & _ & Hflask).
  split; [exact Hexpress | exact Hflask].
Defined.

(** X7 at a profile read without a header. *)
Lemma flask_tables_change_only_on_200_witness :
  Flask.same_tables
    (snd (Flask.serve no_env (Flask.mkContext None 0 []) Flask.Me flask_db)) flask_db.
Proof.
  apply (@flask_tables_change_only_on_200 reference_jwt reference_hasher no_env).
  vm_compute. discriminate.
Defined.

(** X8 at ana's profile. *)
Lemma update_me_then_me_witness :
  let written :=
    Flask.update_me [] (Flask.mkProfile (Some "ana2") (Some "ana@x.com")) 1 flask_db in
  let profile := JObj [("id", JNum 1); ("email", JStr "ana@x.com");
                       ("username", JStr "ana2")] in
  fst written = Flask.Ok (200, JObj [("user", profile)])
  /\ fst (Flask.me [] 1 (snd written)) = Flask.Ok (200, profile).
Proof.
  cbv zeta.
  destruct (update_me_then_me 1 "ana2" "ana@x.com" flask_db ana [] eq_refl)
    as (Hwritten & Hread & _).
  - intros u [<- | [<- | []]] Hemail; [reflexivity | discriminate].
  - split; [exact Hwritten | exact Hread].
Defined.

(** X9 at ana's login, the token being presented an hour later. *)
Lemma login_user_is_me_witness :
  let profile := JObj [("id", JNum 1); ("email", JStr "a@x.com");
                       ("username", JStr "ana")] in
  fst (Flask.login no_env 0 [] (Flask.mkLogin (Some "a@x.com") (Some "secret1")) flask_db)
  = Flask.Ok (200, JObj [("token", JStr (Flask.session_token no_env 1 0));
                         ("user", profile)])
  /\ Flask.require_auth no_env (fun uid => Flask.me [] uid flask_db)
       (Some ("Bearer " ++ Flask.session_token no_env 1 0)%string) 3600 flask_db
     = (Flask.Ok (200, profile), flask_db).
Proof.
  cbv zeta.
  apply (@login_user_is_me reference_jwt reference_hasher no_env 0 3600 "a@x.com"
           "secret1" flask_db ana [] []); reflexivity.
Defined.

(** X10 at a second listing of ana's. *)
Lemma create_then_my_listings_witness :
  let created :=
    Flask.create_product []
      (Flask.mkProductBody (Some "Desk") None (Some "Home") (Some 4000) None) 1 flask_db in
  fst created = Flask.Ok (200, JObj [("id", JNum 2)])
  /\ fst (Flask.my_listings [] 2 (snd created)) = fst (Flask.my_listings [] 2 flask_db).
Proof.
  cbv zeta.
  destruct (create_then_my_listings 1 "Desk" None "Home" 4000 None flask_db)
    as (Hcreated & _ & _ & Hothers & _).
  split; [exact Hcreated | apply Hothers; discriminate].
Defined.

(** X11 at ana putting the lamp in her cart and taking it out again. *)
Lemma cart_add_show_remove_witness :
  let added := Flask.add_cart [] (Flask.mkCartBody (Some 1) None) 1 flask_db in
  Flask.cart_items (snd added)
  = [Flask.mkCart 1 2 1 1; Flask.mkCart 2 1 1 1]
  /\ Flask.cart_items (snd (Flask.remove_cart [] 2 1 (snd added)))
     = [Flask.mkCart 1 2 1 1].
Proof.
  cbv zeta.
  destruct (cart_add_show_remove 1 1 None flask_db)
    as (_ & Hrows & _ & _ & _ & Hback & _).
  - intros c [<- | []]. reflexivity.
  - split; [exact Hrows | exact Hback].
Defined.


(** X13 at bob's cart. *)
Lemma checkout_places_cart_rows_witness :
  Flask.orders (snd (Flask.checkout 50 [] 2 flask_db)) = [Flask.mkOrder 1 2 1 50]
  /\ Flask.cart_items (snd (Flask.checkout 50 [] 2 flask_db)) = [].
Proof.
  destruct (checkout_places_cart_rows 50 2 flask_db) as (Horders & _ & _ & Hcart & _).
  split; [exact Horders | exact Hcart].
Defined.

(** X14 along ana's history. *)
Lemma listing_id_and_owner_are_fixed_witness :
  Flask.listing_ids_ok (fst (Flask.run no_env ana_history (Flask.empty_pg, []))).
Proof.
  apply (@listing_id_and_owner_are_fixed reference_jwt reference_hasher no_env
           ana_history (Flask.empty_pg, [])).
Defined.


(** X16 at a page holding a token the server would accept. *)
Lemma script_products_page_sends_no_token_witness :
  let token := Some (jwt_encode express_payload "supersecret") in
  Script.loadProducts
    (Script.express_products bound_scope 0 (Express.healthy "salt") express_db)
    token "lamp"
  = Script.Logged (Script.JsError (JStr "Authentication failed: No token provided."))
  /\ exists rows,
       Script.api (Script.express_products bound_scope 0 (Express.healthy "salt")
                                           express_db (Some "lamp"))
                  token true
       = Script.Resolved (JArr (map Express.product_json rows))
       /\ incl rows (Express.products express_db).
Proof.
  cbv zeta.
  destruct (@script_products_page_sends_no_token reference_jwt reference_hasher
              bound_scope 0 (Express.healthy "salt") express_db
              (Some (jwt_encode express_payload "supersecret")) "lamp")
    as (Hlogged & Hauth).
  split; [exact Hlogged|].
  apply (Hauth "supersecret" express_payload); reflexivity.
Defined.

(** X17 at ana's address. *)
Lemma emailRegex_shape_witness : React.test React.emailRegex "a@x.com" = true.
Proof.
  apply (proj2 (emailRegex_shape "a@x.com")).
  exists "a", "x", "com". split; [reflexivity|].
  repeat split; discriminate.
Defined.

(** X18 at cleo's form. *)
Lemma validated_form_signs_up_and_logs_in_witness :
  React.no_errors (React.validateLogin cleo) = true
  /\ fst (Flask.signup "salt" [] (React.signup_request cleo) flask_db)
     = Flask.Ok (200, JObj [("message", JStr "User created"); ("id", JNum 3)])
  /\ fst (Flask.login no_env 9 [] (React.login_request cleo)
            (snd (Flask.signup "salt" [] (React.signup_request cleo) flask_db)))
     = Flask.Ok (200, JObj [("token", JStr (Flask.session_token no_env 3 9));
                            ("user", JObj [("id", JNum 3);
                                           ("email", JStr "c@x.com");
                                           ("username", JStr "cleo")])]).
Proof.
  destruct (@validated_form_signs_up_and_logs_in reference_jwt reference_hasher no_env
              "salt" 9 cleo flask_db eq_refl) as (Hlogin & Hfresh & _).
  destruct (Hfresh eq_refl) as (Hcreated & Htoken).
  split; [exact Hlogin|]. split; [exact Hcreated | exact Htoken].
Defined.
